(** * TriBFT: a shallow embedding of the consensus core

    The development follows the C++ sources of the repository:
    - [common/TriBFTDefs.h]        data structures and constants,
    - [consensus/HotStuffEngine]   the three-phase engine,
    - [reputation/VRMManager]      the reputation manager,
    - [consensus/VRFSelector]      the committee selector,
    - [blockchain/LightweightSync] the header chain,
    - [shard/RegionalShardManager] the geographic shard registry.

    Conventions of the embedding.
    - [double] is IEEE binary64, embedded as Rocq's primitive [float]
      (round to nearest even, as the C++ code computes it).
    - [uint64_t] is a [Z] whose wrap-around is written [uint64];
      [size_t] comparisons against an [int] convert the [int] with
      [to_size_t], as the usual arithmetic conversions do.
    - [int] counters are unbounded [Z]: signed overflow is undefined
      behaviour in C++ and no statement below relies on it.
    - [std::map] and [std::set] are stdpp's [gmap] and [gset]; where the
      code iterates over them the keys are visited in ascending order.
    - [simTime()] is the external clock: every operation that reads it
      takes the current time [now] as an argument.
    - [std::function] callbacks are modelled by a flag (set / not set)
      and by the list of values handed to them.  Log messages and
      [std::cout] traces change no state and are left out. *)

From Stdlib Require Import ZArith Bool PrimFloat Uint63.
From stdpp Require Import gmap strings list fin_maps sorting pretty.

Set Warnings "-inexact-float".
Local Open Scope Z_scope.

(* ===================================================================== *)
(** ** common/TriBFTDefs.h                                                *)
(* ===================================================================== *)

Abbreviation NodeID := string (only parsing).
Abbreviation ShardID := Z (only parsing).
Abbreviation BlockHeight := Z (only parsing).
Abbreviation ViewNumber := Z (only parsing).
Abbreviation ReputationScore := float (only parsing).
Abbreviation simtime_t := Z (only parsing).
Abbreviation double := float (only parsing).

(** Unsigned 64-bit wrap-around ([uint64_t], [size_t]). *)
Definition uint64 (z : Z) : Z := z mod 2 ^ 64.

(** Conversion of an [int] to [size_t] in a mixed comparison. *)
Definition to_size_t (z : Z) : Z := z mod 2 ^ 64.

(** Range of a 32-bit [int]. *)
Definition int_range (z : Z) : Prop := - 2 ^ 31 <= z < 2 ^ 31.

(** Conversion of an [int] to [double] (exact for 32-bit values). *)
Definition double_of_int (z : Z) : double :=
  if z <? 0 then PrimFloat.opp (PrimFloat.of_uint63 (Uint63.of_Z (- z)))
  else PrimFloat.of_uint63 (Uint63.of_Z z).

(** [std::string::empty]. *)
Definition string_empty (s : string) : bool :=
  match s with
  | EmptyString => true
  | String _ _ => false
  end.

Inductive ConsensusPhase := IDLE | PREPARE | PRE_COMMIT | COMMIT.

(** The enumerators' integer values. *)
Definition phase_value (p : ConsensusPhase) : Z :=
  match p with
  | IDLE => 0
  | PREPARE => 1
  | PRE_COMMIT => 2
  | COMMIT => 3
  end.

Definition phase_index (p : ConsensusPhase) : nat := Z.to_nat (phase_value p).

Definition phase_of_index (n : nat) : ConsensusPhase :=
  match n with
  | O => IDLE
  | 1%nat => PREPARE
  | 2%nat => PRE_COMMIT
  | _ => COMMIT
  end.

#[global] Instance ConsensusPhase_eq_dec : EqDecision ConsensusPhase.
Proof. solve_decision. Defined.

#[global] Instance ConsensusPhase_countable : Countable ConsensusPhase.
Proof. refine (inj_countable' phase_index phase_of_index _). by intros []. Defined.

Inductive ReputationEvent :=
  | SUCCESSFUL_TX
  | FAILED_TX
  | SUCCESSFUL_VOTE
  | FAILED_VOTE
  | TIMEOUT
  | MALICIOUS_BEHAVIOR
  | PROPOSE_VALID_BLOCK
  | PROPOSE_INVALID_BLOCK
  | VOTE_CORRECTLY
  | VOTE_INCORRECTLY
  | SUCCESSFUL_CONSENSUS
  | FAILED_CONSENSUS.

Module EventWeight.
Record t := mk {
  baseWeight : double;
  useMarginalDecay : bool
}.

(** [EventWeight::getEffectiveWeight]. *)
Definition getEffectiveWeight (w : t) (currentReputation : double) : double :=
  if useMarginalDecay w
  then (baseWeight w / (1.0 + currentReputation))%float
  else baseWeight w.
End EventWeight.

Inductive ShardLevel := REGIONAL | CITY | GLOBAL.

Module Transaction.
Record t := mk {
  txID : string;
  sender : NodeID;
  receiver : NodeID;
  value : double;
  timestamp : simtime_t;
  data : string
}.
End Transaction.

Module ConsensusProposal.
Record t := mk {
  proposalID : string;
  blockHeight : BlockHeight;
  viewNumber : ViewNumber;
  leaderID : NodeID;
  shardID : ShardID;
  proposalTime : simtime_t;
  transactions : list Transaction.t;
  blockHash : string
}.

Definition ctor : t := mk "" 0 0 "" (-1) 0 [] "".
End ConsensusProposal.

Module VoteInfo.
Record t := mk {
  proposalID : string;
  voterID : NodeID;
  phase : ConsensusPhase;
  approve : bool;
  voteTime : simtime_t;
  signature : string
}.
End VoteInfo.

Module QuorumCertificate.
Record t := mk {
  proposalID : string;
  phase : ConsensusPhase;
  blockHeight : BlockHeight;
  viewNumber : ViewNumber;
  votes : list VoteInfo.t;
  totalVotes : Z;
  timestamp : simtime_t
}.

Definition ctor : t := mk "" IDLE 0 0 [] 0 0.

Definition isValid (qc : t) (quorumSize : Z) : bool := quorumSize <=? totalVotes qc.
End QuorumCertificate.

Module ReputationRecord.
Record t := mk {
  nodeID : NodeID;
  globalReputation : ReputationScore;
  localPerformance : ReputationScore;
  localInteractionCount : Z;
  score : ReputationScore;
  successfulTx : Z;
  failedTx : Z;
  validProposals : Z;
  totalProposals : Z;
  correctVotes : Z;
  totalVotes : Z;
  lastUpdate : simtime_t;
  recentEvents : list ReputationEvent
}.

(** [explicit ReputationRecord(const NodeID& id)]. *)
Definition ctor (id : NodeID) : t :=
  mk id 0.5%float 0.5%float 0 0.5%float 0 0 0 0 0 0 0 [].

Section WithExp.
(** [std::exp] of <cmath>: a library function outside the repository. *)
Variable exp : double -> double.

(** [getFinalReputation]: w * R_global + (1 - w) * R_local with
    w = exp(-LAMBDA * N_local), LAMBDA = 0.1. *)
Definition getFinalReputation (r : t) : double :=
  let LAMBDA := 0.1%float in
  let w := exp (- LAMBDA * double_of_int (localInteractionCount r))%float in
  (w * globalReputation r + (1.0 - w) * localPerformance r)%float.

Definition isReliable (r : t) : bool :=
  PrimFloat.leb 0.8%float (getFinalReputation r).
End WithExp.
End ReputationRecord.

Module Block.
Record t := mk {
  height : BlockHeight;
  blockHash : string;
  previousHash : string;
  shardID : ShardID;
  transactions : list Transaction.t;
  qc : QuorumCertificate.t;
  timestamp : simtime_t;
  proposer : NodeID
}.
End Block.

Module GeoCoord.
Record t := mk {
  latitude : double;
  longitude : double
}.

Definition distanceTo (a other : t) : double :=
  let dx := (latitude a - latitude other)%float in
  let dy := (longitude a - longitude other)%float in
  PrimFloat.sqrt (dx * dx + dy * dy)%float.
End GeoCoord.

(** Iteration order of [std::set<std::string>]: ascending, bytes compared
    as unsigned characters. *)
Definition string_le (a b : string) : Prop := String.leb a b = true.

#[global] Instance string_le_dec (a b : string) : Decision (string_le a b).
Proof. unfold string_le. apply _. Defined.

Definition set_in_order (s : gset string) : list string :=
  merge_sort string_le (elements s).

(** Iteration order of a [std::map] keyed by an integer. *)
Definition keys_in_order {V} (m : gmap Z V) : list Z :=
  merge_sort Z.le (map fst (map_to_list m)).

Module ShardInfo.
Record t := mk {
  shardID : ShardID;
  level : ShardLevel;
  centerPoint : GeoCoord.t;
  radius : double;
  members : gset NodeID;
  leader : NodeID;
  creationTime : simtime_t;
  lastUpdate : simtime_t
}.

Definition ctor : t := mk (-1) REGIONAL (GeoCoord.mk 0 0) 0 ∅ "" 0 0.

Definition contains (s : t) (location : GeoCoord.t) : bool :=
  PrimFloat.leb (GeoCoord.distanceTo (centerPoint s) location) (radius s).

Definition isLeader (s : t) (nodeID : NodeID) : bool := String.eqb (leader s) nodeID.

(** [members.size()], a [size_t]. *)
Definition getMemberCount (s : t) : Z := Z.of_nat (size (members s)).
End ShardInfo.

Module ConsensusMetrics.
Record t := mk {
  totalProposals : Z;
  successfulCommits : Z;
  failedConsensus : Z;
  avgLatency : double;
  minLatency : double;
  maxLatency : double;
  totalLatency : double;
  throughput : double;
  totalTransactions : Z
}.

Definition ctor : t := mk 0 0 0 0 999999.0%float 0 0 0 0.
End ConsensusMetrics.

Module Constants.
Definition MIN_QUORUM_SIZE : Z := 2.
Definition REGIONAL_SHARD_RADIUS : double := 3000.0%float.
Definition MIN_SHARD_SIZE : Z := 50.
Definition MAX_SHARD_SIZE : Z := 250.
Definition INITIAL_REPUTATION : double := 0.5%float.
Definition MIN_REPUTATION : double := 0.0%float.
Definition MAX_REPUTATION : double := 1.0%float.
Definition REPUTATION_DECAY_RATE : double := 0.01%float.
End Constants.

(* ===================================================================== *)
(** ** consensus/HotStuffEngine                                           *)
(* ===================================================================== *)

Module HotStuffEngine.
Record t := mk {
  nodeID_ : NodeID;
  shardID_ : ShardID;
  shardSize_ : Z;
  currentPhase_ : ConsensusPhase;
  currentView_ : ViewNumber;
  currentHeight_ : BlockHeight;
  previousBlockHash_ : string;
  currentProposal_ : ConsensusProposal.t;
  hasActiveProposal_ : bool;
  voteStore_ : gmap string (gmap ConsensusPhase (list VoteInfo.t));
  highestQC_ : QuorumCertificate.t;
  phaseQCs_ : gmap ConsensusPhase QuorumCertificate.t;
  committedBlocks_ : list Block.t;
  proposalCallback_ : bool;
  voteCallback_ : bool;
  commitCallback_ : bool;
  logCallback_ : bool;
  phaseAdvanceCallback_ : bool;
  metrics_ : ConsensusMetrics.t;
  consensusStartTime_ : simtime_t
}.

(** [HotStuffEngine::HotStuffEngine()]. *)
Definition ctor : t :=
  mk "" 0 0 IDLE 0 0 "" ConsensusProposal.ctor false ∅
     QuorumCertificate.ctor ∅ [] false false false false false
     ConsensusMetrics.ctor 0.

Definition set_identity (n : NodeID) (s : ShardID) (e : t) : t :=
  mk n s (shardSize_ e) (currentPhase_ e) (currentView_ e) (currentHeight_ e)
     (previousBlockHash_ e) (currentProposal_ e) (hasActiveProposal_ e)
     (voteStore_ e) (highestQC_ e) (phaseQCs_ e) (committedBlocks_ e)
     (proposalCallback_ e) (voteCallback_ e) (commitCallback_ e)
     (logCallback_ e) (phaseAdvanceCallback_ e) (metrics_ e)
     (consensusStartTime_ e).

Definition set_shardSize (size : Z) (e : t) : t :=
  mk (nodeID_ e) (shardID_ e) size (currentPhase_ e) (currentView_ e)
     (currentHeight_ e) (previousBlockHash_ e) (currentProposal_ e)
     (hasActiveProposal_ e) (voteStore_ e) (highestQC_ e) (phaseQCs_ e)
     (committedBlocks_ e) (proposalCallback_ e) (voteCallback_ e)
     (commitCallback_ e) (logCallback_ e) (phaseAdvanceCallback_ e)
     (metrics_ e) (consensusStartTime_ e).

(** The consensus round: phase, view, height, proposal, flag, start. *)
Definition set_round (ph : ConsensusPhase) (v : ViewNumber) (h : BlockHeight)
    (p : ConsensusProposal.t) (active : bool) (start : simtime_t) (e : t) : t :=
  mk (nodeID_ e) (shardID_ e) (shardSize_ e) ph v h (previousBlockHash_ e) p
     active (voteStore_ e) (highestQC_ e) (phaseQCs_ e) (committedBlocks_ e)
     (proposalCallback_ e) (voteCallback_ e) (commitCallback_ e)
     (logCallback_ e) (phaseAdvanceCallback_ e) (metrics_ e) start.

Definition set_voteStore
    (vs : gmap string (gmap ConsensusPhase (list VoteInfo.t))) (e : t) : t :=
  mk (nodeID_ e) (shardID_ e) (shardSize_ e) (currentPhase_ e) (currentView_ e)
     (currentHeight_ e) (previousBlockHash_ e) (currentProposal_ e)
     (hasActiveProposal_ e) vs (highestQC_ e) (phaseQCs_ e)
     (committedBlocks_ e) (proposalCallback_ e) (voteCallback_ e)
     (commitCallback_ e) (logCallback_ e) (phaseAdvanceCallback_ e)
     (metrics_ e) (consensusStartTime_ e).

Definition set_voteCallback (b : bool) (e : t) : t :=
  mk (nodeID_ e) (shardID_ e) (shardSize_ e) (currentPhase_ e) (currentView_ e)
     (currentHeight_ e) (previousBlockHash_ e) (currentProposal_ e)
     (hasActiveProposal_ e) (voteStore_ e) (highestQC_ e) (phaseQCs_ e)
     (committedBlocks_ e) (proposalCallback_ e) b (commitCallback_ e)
     (logCallback_ e) (phaseAdvanceCallback_ e) (metrics_ e)
     (consensusStartTime_ e).

(** [initialize(nodeID, shardID)]. *)
Definition initialize (nodeID : NodeID) (shardID : ShardID) (e : t) : t :=
  let e1 := set_identity nodeID shardID e in
  set_round IDLE 0 0 (currentProposal_ e1) false (consensusStartTime_ e1) e1.

(** [setShardSize(size)]. *)
Definition setShardSize (size : Z) (e : t) : t := set_shardSize size e.

(** [setVoteCallback(callback)] with a non-empty callback. *)
Definition setVoteCallback (e : t) : t := set_voteCallback true e.

(** [getQuorumSize()]: the body returns the literal 2 and does not read
    [shardSize_]. *)
Definition getQuorumSize (e : t) : Z := 2.

(** [validateProposal(proposal)].  The shard comparison is commented out
    in the source and therefore absent here. *)
Definition validateProposal (proposal : ConsensusProposal.t) (e : t) : bool :=
  if string_empty (ConsensusProposal.proposalID proposal)
     || string_empty (ConsensusProposal.blockHash proposal) then false
  else if negb (ConsensusProposal.blockHeight proposal =? uint64 (currentHeight_ e + 1))
  then false
  else if ConsensusProposal.viewNumber proposal <? currentView_ e then false
  else if match ConsensusProposal.transactions proposal with [] => true | _ => false end
  then false
  else forallb
         (fun tx => negb (string_empty (Transaction.txID tx)
                          || string_empty (Transaction.sender tx)))
         (ConsensusProposal.transactions proposal).

(** [sendVote(proposal, phase, approve)]: the votes handed to
    [voteCallback_] (none when the callback is not set). *)
Definition sendVote (proposal : ConsensusProposal.t) (phase : ConsensusPhase)
    (approve : bool) (now : simtime_t) (e : t) : list VoteInfo.t :=
  let vote :=
    VoteInfo.mk (ConsensusProposal.proposalID proposal) (nodeID_ e) phase approve now
                (nodeID_ e +:+ "_" +:+ ConsensusProposal.proposalID proposal) in
  if voteCallback_ e then [vote] else [].

(** [handleProposal(proposal)]: the new state and the votes sent. *)
Definition handleProposal (proposal : ConsensusProposal.t) (now : simtime_t)
    (e : t) : t * list VoteInfo.t :=
  if negb (validateProposal proposal e)
  then (e, sendVote proposal PREPARE false now e)
  else
    let e1 := set_round PREPARE (currentView_ e) (currentHeight_ e) proposal true now e in
    (e1, sendVote proposal PREPARE true now e1).

(** [hasQuorum(proposalID, phase)]: the body in the repository is
    [return false]. *)
Definition hasQuorum (proposalID : string) (phase : ConsensusPhase) (e : t) : bool :=
  false.

(** [advancePhase()]: the body in the repository is empty. *)
Definition advancePhase (e : t) : t := e.

(** [voteStore_[proposalID][phase].push_back(vote)]: [operator[]]
    creates the missing entries. *)
Definition push_back_vote (vote : VoteInfo.t)
    (vs : gmap string (gmap ConsensusPhase (list VoteInfo.t)))
    : gmap string (gmap ConsensusPhase (list VoteInfo.t)) :=
  let byPhase := default ∅ (vs !! VoteInfo.proposalID vote) in
  let votes := default [] (byPhase !! VoteInfo.phase vote) in
  <[VoteInfo.proposalID vote := <[VoteInfo.phase vote := votes ++ [vote]]> byPhase]> vs.

(** The votes stored for a proposal and a phase. *)
Definition storedVotes (proposalID : string) (phase : ConsensusPhase) (e : t)
    : list VoteInfo.t :=
  default [] (default ∅ (voteStore_ e !! proposalID) !! phase).

(** [handleVote(vote)]. *)
Definition handleVote (vote : VoteInfo.t) (e : t) : t :=
  if negb (hasActiveProposal_ e)
     || negb (String.eqb (VoteInfo.proposalID vote)
                         (ConsensusProposal.proposalID (currentProposal_ e)))
  then e
  else
    let e1 := set_voteStore (push_back_vote vote (voteStore_ e)) e in
    if bool_decide (VoteInfo.phase vote = currentPhase_ e1) then
      if hasQuorum (VoteInfo.proposalID vote) (currentPhase_ e1) e1
      then advancePhase e1
      else e1
    else if phase_value (VoteInfo.phase vote) <? phase_value (currentPhase_ e1) then
      (* the loop over the earlier phases only prints *)
      e1
    else e1.
(** [canPropose()]. *)
Definition canPropose (e : t) : bool :=
  bool_decide (currentPhase_ e = IDLE) && negb (hasActiveProposal_ e).

(** [isInProgress()]. *)
Definition isInProgress (e : t) : bool :=
  hasActiveProposal_ e && negb (bool_decide (currentPhase_ e = IDLE)).

(** [getCurrentProposal()]: [nullptr] is [None]. *)
Definition getCurrentProposal (e : t) : option ConsensusProposal.t :=
  if hasActiveProposal_ e then Some (currentProposal_ e) else None.

Definition set_metrics (mt : ConsensusMetrics.t) (e : t) : t :=
  mk (nodeID_ e) (shardID_ e) (shardSize_ e) (currentPhase_ e) (currentView_ e)
     (currentHeight_ e) (previousBlockHash_ e) (currentProposal_ e)
     (hasActiveProposal_ e) (voteStore_ e) (highestQC_ e) (phaseQCs_ e)
     (committedBlocks_ e) (proposalCallback_ e) (voteCallback_ e)
     (commitCallback_ e) (logCallback_ e) (phaseAdvanceCallback_ e)
     mt (consensusStartTime_ e).

Definition set_proposalCallback (b : bool) (e : t) : t :=
  mk (nodeID_ e) (shardID_ e) (shardSize_ e) (currentPhase_ e) (currentView_ e)
     (currentHeight_ e) (previousBlockHash_ e) (currentProposal_ e)
     (hasActiveProposal_ e) (voteStore_ e) (highestQC_ e) (phaseQCs_ e)
     (committedBlocks_ e) b (voteCallback_ e)
     (commitCallback_ e) (logCallback_ e) (phaseAdvanceCallback_ e)
     (metrics_ e) (consensusStartTime_ e).

(** [setProposalCallback(callback)] with a non-empty callback. *)
Definition setProposalCallback (e : t) : t := set_proposalCallback true e.

(** [resetConsensusState()]. *)
Definition resetConsensusState (e : t) : t :=
  mk (nodeID_ e) (shardID_ e) (shardSize_ e) IDLE (currentView_ e)
     (currentHeight_ e) (previousBlockHash_ e) (currentProposal_ e)
     false ∅ (highestQC_ e) ∅
     (committedBlocks_ e) (proposalCallback_ e) (voteCallback_ e)
     (commitCallback_ e) (logCallback_ e) (phaseAdvanceCallback_ e)
     (metrics_ e) (consensusStartTime_ e).

(** [metrics_.failedConsensus++]. *)
Definition countFailedConsensus (mt : ConsensusMetrics.t) : ConsensusMetrics.t :=
  ConsensusMetrics.mk
    (ConsensusMetrics.totalProposals mt) (ConsensusMetrics.successfulCommits mt)
    (ConsensusMetrics.failedConsensus mt + 1) (ConsensusMetrics.avgLatency mt)
    (ConsensusMetrics.minLatency mt) (ConsensusMetrics.maxLatency mt)
    (ConsensusMetrics.totalLatency mt) (ConsensusMetrics.throughput mt)
    (ConsensusMetrics.totalTransactions mt).

(** [metrics_.totalProposals++]. *)
Definition countProposal (mt : ConsensusMetrics.t) : ConsensusMetrics.t :=
  ConsensusMetrics.mk
    (ConsensusMetrics.totalProposals mt + 1) (ConsensusMetrics.successfulCommits mt)
    (ConsensusMetrics.failedConsensus mt) (ConsensusMetrics.avgLatency mt)
    (ConsensusMetrics.minLatency mt) (ConsensusMetrics.maxLatency mt)
    (ConsensusMetrics.totalLatency mt) (ConsensusMetrics.throughput mt)
    (ConsensusMetrics.totalTransactions mt).

(** [handleTimeout()]. *)
Definition handleTimeout (e : t) : t :=
  if hasActiveProposal_ e
  then resetConsensusState (set_metrics (countFailedConsensus (metrics_ e)) e)
  else e.

(** [handlePhaseAdvance(proposalID, toPhase)]: the new state and the
    votes sent. *)
Definition handlePhaseAdvance (proposalID : string) (toPhase : ConsensusPhase)
    (now : simtime_t) (e : t) : t * list VoteInfo.t :=
  if negb (String.eqb proposalID (ConsensusProposal.proposalID (currentProposal_ e)))
  then (e, [])
  else
    let expectedNext :=
      match currentPhase_ e with
      | PREPARE => Some PRE_COMMIT
      | PRE_COMMIT => Some COMMIT
      | _ => None
      end in
    match expectedNext with
    | None => (e, [])
    | Some next =>
      if negb (bool_decide (toPhase = next)) then (e, [])
      else
        let e1 :=
          set_round toPhase (currentView_ e) (currentHeight_ e) (currentProposal_ e)
                    (hasActiveProposal_ e) (consensusStartTime_ e) e in
        (e1, sendVote (currentProposal_ e1) toPhase true now e1)
    end.

(** [createQC(proposalID, phase)]: [totalVotes] and [timestamp] keep the
    values of the default constructor. *)
Definition createQC (proposalID : string) (phase : ConsensusPhase) (e : t)
    : QuorumCertificate.t :=
  let votes :=
    match voteStore_ e !! proposalID with
    | Some byPhase =>
      match byPhase !! phase with
      | Some stored => stored
      | None => []
      end
    | None => []
    end in
  QuorumCertificate.mk proposalID phase
    (ConsensusProposal.blockHeight (currentProposal_ e)) (currentView_ e) votes 0 0.

(** [syncToHeight(newHeight)]. *)
Definition syncToHeight (newHeight : BlockHeight) (e : t) : t :=
  if currentHeight_ e <? newHeight
  then set_round (currentPhase_ e) (currentView_ e) newHeight (currentProposal_ e)
                 (hasActiveProposal_ e) (consensusStartTime_ e) e
  else e.

Section WithFormat.
(** [operator<<] of the standard streams on a [uint64_t], and OMNeT++'s
    on a [simtime_t] (in the default stream state and after
    [std::setprecision(6)]): library functions outside the repository. *)
Variable show_uint64 : Z -> string.
Variable show_time : simtime_t -> string.
Variable show_time6 : simtime_t -> string.

(** [generateProposalID()]. *)
Definition generateProposalID (now : simtime_t) (e : t) : string :=
  nodeID_ e +:+ "_" +:+ show_uint64 (currentView_ e) +:+ "_"
    +:+ show_uint64 (uint64 (currentHeight_ e + 1)) +:+ "_" +:+ show_time6 now.

(** [proposeBlock(transactions)]: the returned flag, the new state, the
    proposals handed to [proposalCallback_] and the votes handed to
    [voteCallback_]. *)
Definition proposeBlock (transactions : list Transaction.t) (now : simtime_t) (e : t)
    : bool * t * list ConsensusProposal.t * list VoteInfo.t :=
  if negb (canPropose e) then (false, e, [], [])
  else if match transactions with [] => true | _ => false end then (false, e, [], [])
  else
    let blockHeight := uint64 (currentHeight_ e + 1) in
    let proposal :=
      ConsensusProposal.mk
        (generateProposalID now e) blockHeight (currentView_ e) (nodeID_ e)
        (shardID_ e) now transactions
        (show_uint64 blockHeight +:+ "_" +:+ previousBlockHash_ e +:+ "_" +:+ show_time now) in
    let e1 :=
      set_metrics (countProposal (metrics_ e))
        (set_round PREPARE (currentView_ e) (currentHeight_ e) proposal true now e) in
    (true, e1,
     (if proposalCallback_ e1 then [proposal] else []),
     sendVote proposal PREPARE true now e1).
End WithFormat.
End HotStuffEngine.

(* ===================================================================== *)
(** ** reputation/VRMManager                                              *)
(* ===================================================================== *)

Module VRMManager.
Record t := mk {
  records_ : gmap NodeID ReputationRecord.t;
  logCallback_ : bool
}.

(** [VRMManager::VRMManager()]. *)
Definition ctor : t := mk ∅ false.

(** [initialize()]. *)
Definition initialize (m : t) : t := mk ∅ (logCallback_ m).

(** [clampReputation(score)]. *)
Definition clampReputation (score : ReputationScore) : ReputationScore :=
  if PrimFloat.ltb score Constants.MIN_REPUTATION then Constants.MIN_REPUTATION
  else if PrimFloat.ltb Constants.MAX_REPUTATION score then Constants.MAX_REPUTATION
  else score.

(** [registerNode(nodeID, initialScore)]. *)
Definition registerNode (nodeID : NodeID) (initialScore : ReputationScore)
    (now : simtime_t) (m : t) : t :=
  match records_ m !! nodeID with
  | Some _ => m
  | None =>
    let r := ReputationRecord.ctor nodeID in
    let record :=
      ReputationRecord.mk
        (ReputationRecord.nodeID r) (ReputationRecord.globalReputation r)
        (ReputationRecord.localPerformance r)
        (ReputationRecord.localInteractionCount r)
        (clampReputation initialScore)
        (ReputationRecord.successfulTx r) (ReputationRecord.failedTx r)
        (ReputationRecord.validProposals r) (ReputationRecord.totalProposals r)
        (ReputationRecord.correctVotes r) (ReputationRecord.totalVotes r)
        now (ReputationRecord.recentEvents r) in
    mk (<[nodeID := record]> (records_ m)) (logCallback_ m)
  end.

(** [isRegistered(nodeID)]. *)
Definition isRegistered (nodeID : NodeID) (m : t) : bool :=
  match records_ m !! nodeID with
  | Some _ => true
  | None => false
  end.

(** [getRecord(nodeID)]: [nullptr] is [None]. *)
Definition getRecord (nodeID : NodeID) (m : t) : option ReputationRecord.t :=
  records_ m !! nodeID.

(** [getReputation(nodeID)]. *)
Definition getReputation (nodeID : NodeID) (m : t) : ReputationScore :=
  match records_ m !! nodeID with
  | Some r => ReputationRecord.score r
  | None => Constants.INITIAL_REPUTATION
  end.

(** [getEventWeight(event)]: the body in the repository is
    [return EventWeight(0.0, false)]. *)
Definition getEventWeight (event : ReputationEvent) : EventWeight.t :=
  EventWeight.mk 0.0%float false.

(** [updateScore(nodeID, delta)]: the body in the repository is empty. *)
Definition updateScore (nodeID : NodeID) (delta : double) (m : t) : t := m.

(** The [switch] of [recordEvent]: the signed delta and the counters
    of the record after the event. *)
Definition applyEvent (event : ReputationEvent) (alpha : double)
    (r : ReputationRecord.t) : double * ReputationRecord.t :=
  let counters sTx fTx vP tP cV tV :=
    ReputationRecord.mk
      (ReputationRecord.nodeID r) (ReputationRecord.globalReputation r)
      (ReputationRecord.localPerformance r)
      (ReputationRecord.localInteractionCount r) (ReputationRecord.score r)
      (ReputationRecord.successfulTx r + sTx) (ReputationRecord.failedTx r + fTx)
      (ReputationRecord.validProposals r + vP)
      (ReputationRecord.totalProposals r + tP)
      (ReputationRecord.correctVotes r + cV) (ReputationRecord.totalVotes r + tV)
      (ReputationRecord.lastUpdate r) (ReputationRecord.recentEvents r) in
  match event with
  | PROPOSE_VALID_BLOCK => (alpha, counters 0 0 1 1 0 0)
  | VOTE_CORRECTLY => (alpha, counters 0 0 0 0 1 1)
  | SUCCESSFUL_CONSENSUS => (alpha, r)
  | SUCCESSFUL_TX => (alpha, counters 1 0 0 0 0 0)
  | SUCCESSFUL_VOTE => (alpha, r)
  | PROPOSE_INVALID_BLOCK => (PrimFloat.opp alpha, counters 0 0 0 1 0 0)
  | VOTE_INCORRECTLY => (PrimFloat.opp alpha, counters 0 0 0 0 0 1)
  | TIMEOUT => (PrimFloat.opp alpha, r)
  | MALICIOUS_BEHAVIOR => (PrimFloat.opp alpha, r)
  | FAILED_CONSENSUS => (PrimFloat.opp alpha, r)
  | FAILED_TX => (PrimFloat.opp alpha, counters 0 1 0 0 0 0)
  | FAILED_VOTE => (PrimFloat.opp alpha, r)
  end.

(** The events whose case in [recordEvent] is marked positive. *)
Definition isPositive (event : ReputationEvent) : bool :=
  match event with
  | PROPOSE_VALID_BLOCK | VOTE_CORRECTLY | SUCCESSFUL_CONSENSUS
  | SUCCESSFUL_TX | SUCCESSFUL_VOTE => true
  | _ => false
  end.

Section WithExp.
Variable exp : double -> double.

(** The local [delta] that [recordEvent] passes to [updateScore]. *)
Definition eventDelta (event : ReputationEvent) (record : ReputationRecord.t)
    : double :=
  let weight := getEventWeight event in
  let currentRep := ReputationRecord.getFinalReputation exp record in
  let alpha := EventWeight.getEffectiveWeight weight currentRep in
  fst (applyEvent event alpha record).

(** [recordEvent(nodeID, event)]. *)
Definition recordEvent (nodeID : NodeID) (event : ReputationEvent)
    (now : simtime_t) (m : t) : t :=
  match records_ m !! nodeID with
  | None => m
  | Some r =>
    let record :=
      ReputationRecord.mk
        (ReputationRecord.nodeID r) (ReputationRecord.globalReputation r)
        (ReputationRecord.localPerformance r)
        (ReputationRecord.localInteractionCount r) (ReputationRecord.score r)
        (ReputationRecord.successfulTx r) (ReputationRecord.failedTx r)
        (ReputationRecord.validProposals r) (ReputationRecord.totalProposals r)
        (ReputationRecord.correctVotes r) (ReputationRecord.totalVotes r)
        now (ReputationRecord.recentEvents r ++ [event]) in
    let weight := getEventWeight event in
    let currentRep := ReputationRecord.getFinalReputation exp record in
    let alpha := EventWeight.getEffectiveWeight weight currentRep in
    let '(delta, record') := applyEvent event alpha record in
    updateScore nodeID delta (mk (<[nodeID := record']> (records_ m)) (logCallback_ m))
  end.
End WithExp.
(** [unregisterNode(nodeID)]. *)
Definition unregisterNode (nodeID : NodeID) (m : t) : t :=
  match records_ m !! nodeID with
  | Some _ => mk (delete nodeID (records_ m)) (logCallback_ m)
  | None => m
  end.

(** [getNodeCount()]. *)
Definition getNodeCount (m : t) : Z := Z.of_nat (size (records_ m)).

(** The statements of [applyDecay] on one record. *)
Definition decayRecord (now : simtime_t) (r : ReputationRecord.t) : ReputationRecord.t :=
  let target := Constants.INITIAL_REPUTATION in
  let decayRate := Constants.REPUTATION_DECAY_RATE in
  let score := (ReputationRecord.score r * (1.0 - decayRate) + target * decayRate)%float in
  ReputationRecord.mk
    (ReputationRecord.nodeID r) (ReputationRecord.globalReputation r)
    (ReputationRecord.localPerformance r)
    (ReputationRecord.localInteractionCount r) (clampReputation score)
    (ReputationRecord.successfulTx r) (ReputationRecord.failedTx r)
    (ReputationRecord.validProposals r) (ReputationRecord.totalProposals r)
    (ReputationRecord.correctVotes r) (ReputationRecord.totalVotes r)
    now (ReputationRecord.recentEvents r).

(** [applyDecay()]. *)
Definition applyDecay (now : simtime_t) (m : t) : t :=
  mk (decayRecord now <$> records_ m) (logCallback_ m).

(** The events that [cleanupHistory] keeps of one history: when the
    size exceeds the bound (converted to [size_t]), the oldest
    [size - bound] events are erased. *)
Definition trimEvents (maxEventsPerNode : Z) (events : list ReputationEvent)
    : list ReputationEvent :=
  let size := Z.of_nat (length events) in
  if to_size_t maxEventsPerNode <? size
  then drop (Z.to_nat (uint64 (size - to_size_t maxEventsPerNode))) events
  else events.

(** [cleanupHistory(maxEventsPerNode)]. *)
Definition cleanupHistory (maxEventsPerNode : Z) (m : t) : t :=
  mk ((fun r =>
         ReputationRecord.mk
           (ReputationRecord.nodeID r) (ReputationRecord.globalReputation r)
           (ReputationRecord.localPerformance r)
           (ReputationRecord.localInteractionCount r) (ReputationRecord.score r)
           (ReputationRecord.successfulTx r) (ReputationRecord.failedTx r)
           (ReputationRecord.validProposals r) (ReputationRecord.totalProposals r)
           (ReputationRecord.correctVotes r) (ReputationRecord.totalVotes r)
           (ReputationRecord.lastUpdate r)
           (trimEvents maxEventsPerNode (ReputationRecord.recentEvents r)))
      <$> records_ m)
     (logCallback_ m).

Section Wrappers.
Variable exp : double -> double.

(** [updateForProposal(proposer, wasValid)]. *)
Definition updateForProposal (proposer : NodeID) (wasValid : bool)
    (now : simtime_t) (m : t) : t :=
  if wasValid then recordEvent exp proposer PROPOSE_VALID_BLOCK now m
  else recordEvent exp proposer PROPOSE_INVALID_BLOCK now m.

(** [updateForVote(voter, wasCorrect)]. *)
Definition updateForVote (voter : NodeID) (wasCorrect : bool)
    (now : simtime_t) (m : t) : t :=
  if wasCorrect then recordEvent exp voter VOTE_CORRECTLY now m
  else recordEvent exp voter VOTE_INCORRECTLY now m.

(** [updateForConsensusSuccess(participants)]. *)
Definition updateForConsensusSuccess (participants : list NodeID)
    (now : simtime_t) (m : t) : t :=
  foldl (fun acc nodeID => recordEvent exp nodeID SUCCESSFUL_CONSENSUS now acc)
        m participants.

(** [updateForConsensusFail(participants)]. *)
Definition updateForConsensusFail (participants : list NodeID)
    (now : simtime_t) (m : t) : t :=
  foldl (fun acc nodeID => recordEvent exp nodeID FAILED_CONSENSUS now acc)
        m participants.

(** [penalizeForTimeout(nodeID)]. *)
Definition penalizeForTimeout (nodeID : NodeID) (now : simtime_t) (m : t) : t :=
  recordEvent exp nodeID TIMEOUT now m.

(** [isReliable(nodeID)]. *)
Definition isReliable (nodeID : NodeID) (m : t) : bool :=
  match records_ m !! nodeID with
  | Some r => ReputationRecord.isReliable exp r
  | None => false
  end.

(** [penalizeForMalicious(nodeID)]. *)
Definition penalizeForMalicious (nodeID : NodeID) (now : simtime_t) (m : t) : t :=
  recordEvent exp nodeID MALICIOUS_BEHAVIOR now m.
End Wrappers.
End VRMManager.

(* ===================================================================== *)
(** ** consensus/VRFSelector                                              *)
(* ===================================================================== *)

Inductive NodeRole := ORDINARY | CONSENSUS_PRIMARY | CONSENSUS_REDUNDANT | RSU_PERMANENT.

Module ConsensusGroup.
Record t := mk {
  primaryNodes : list NodeID;
  redundantNodes : list NodeID;
  rsuCount : Z;
  vehicleCount : Z;
  epoch : Z
}.

(** [ConsensusGroup()]. *)
Definition ctor : t := mk [] [] 0 0 0.

(** [satisfiesRSUConstraint()]: integer division of a non-negative
    [int] by 3. *)
Definition satisfiesRSUConstraint (g : t) : bool :=
  let total := Z.of_nat (length (primaryNodes g)) in
  Z.quot total 3 <=? rsuCount g.

Definition getTotalSize (g : t) : Z :=
  Z.of_nat (length (primaryNodes g)) + Z.of_nat (length (redundantNodes g)).
End ConsensusGroup.

Module VRFSelector.
Record t := mk {
  shardID_ : ShardID;
  currentGroup_ : ConsensusGroup.t;
  nodeRoles_ : gmap NodeID NodeRole;
  lastEpoch_ : Z;
  logCallback_ : bool
}.

(** [VRFSelector::VRFSelector()]. *)
Definition ctor : t := mk (-1) ConsensusGroup.ctor ∅ (-1) false.

(** [initialize(shardID)]. *)
Definition initialize (shardID : ShardID) (s : t) : t :=
  mk shardID ConsensusGroup.ctor ∅ (-1) (logCallback_ s).

(** [electConsensusGroup(candidates, rsuNodes, groupSize,
    redundantCount, seed)]: the body in the repository is
    [return ConsensusGroup()]; the selector is not modified. *)
Definition electConsensusGroup (candidates rsuNodes : list NodeID)
    (groupSize redundantCount : Z) (seed : Z) (s : t) : ConsensusGroup.t * t :=
  (ConsensusGroup.ctor, s).

(** [calculateVRF(nodeID, seed)]: the body in the repository is
    [return 0.0]. *)
Definition calculateVRF (nodeID : NodeID) (seed : Z) (s : t) : double := 0.0%float.

(** [isInConsensusGroup(nodeID)]. *)
Definition isInConsensusGroup (nodeID : NodeID) (s : t) : bool :=
  existsb (String.eqb nodeID) (ConsensusGroup.primaryNodes (currentGroup_ s)).

(** [needsReelection(currentEpoch)]. *)
Definition needsReelection (currentEpoch : Z) (s : t) : bool :=
  lastEpoch_ s <? currentEpoch.
(** [isRedundantNode(nodeID)]. *)
Definition isRedundantNode (nodeID : NodeID) (s : t) : bool :=
  existsb (String.eqb nodeID) (ConsensusGroup.redundantNodes (currentGroup_ s)).

(** [getNodeRole(nodeID)]. *)
Definition getNodeRole (nodeID : NodeID) (s : t) : NodeRole :=
  match nodeRoles_ s !! nodeID with
  | Some role => role
  | None => ORDINARY
  end.

(** [updateEpoch(epoch)]. *)
Definition updateEpoch (epoch : Z) (s : t) : t :=
  mk (shardID_ s) (currentGroup_ s) (nodeRoles_ s) epoch (logCallback_ s).

(** [setCurrentGroup(group)]: the role map is rebuilt, first from the
    primary nodes, then from the redundant ones. *)
Definition setCurrentGroup (group : ConsensusGroup.t) (s : t) : t :=
  let roles1 :=
    foldl (fun (acc : gmap NodeID NodeRole) nodeID => <[nodeID := CONSENSUS_PRIMARY]> acc)
          ∅ (ConsensusGroup.primaryNodes group) in
  let roles2 :=
    foldl (fun (acc : gmap NodeID NodeRole) nodeID => <[nodeID := CONSENSUS_REDUNDANT]> acc)
          roles1 (ConsensusGroup.redundantNodes group) in
  mk (shardID_ s) group roles2 (lastEpoch_ s) (logCallback_ s).
End VRFSelector.


(* ===================================================================== *)
(** ** blockchain/LightweightSync                                         *)
(* ===================================================================== *)

(** Conversion of a [size_t] to an [int] (modulo 2^32, as the compilers
    that build the simulation do it). *)
Definition to_int (z : Z) : Z := (z + 2 ^ 31) mod 2 ^ 32 - 2 ^ 31.

Module BlockHeader.
Record t := mk {
  height : BlockHeight;
  blockHash : string;
  previousHash : string;
  merkleRoot : string;
  shardID : ShardID;
  timestamp : simtime_t;
  proposer : NodeID;
  txCount : Z
}.
Section WithHash.
(** [std::hash<std::string>] and [std::to_string] on a [size_t]:
    library functions outside the repository. *)
Variable hasher : string -> Z.
Variable to_string : Z -> string.

(** [BlockHeader::calculateMerkleRoot(txs)]. *)
Definition calculateMerkleRoot (txs : list Transaction.t) : string :=
  match txs with
  | [] => "EMPTY_ROOT"
  | _ =>
    let combined := foldl (fun acc tx => acc +:+ Transaction.txID tx) "" txs in
    "MERKLE_" +:+ to_string (hasher combined)
  end.

(** [BlockHeader::fromBlock(block)]. *)
Definition fromBlock (block : Block.t) : t :=
  mk (Block.height block) (Block.blockHash block) (Block.previousHash block)
     (calculateMerkleRoot (Block.transactions block))
     (Block.shardID block) (Block.timestamp block) (Block.proposer block)
     (to_int (Z.of_nat (length (Block.transactions block)))).
End WithHash.
End BlockHeader.

Module LightweightSync.
Record t := mk {
  nodeRole_ : NodeRole;
  headers_ : gmap BlockHeight BlockHeader.t;
  latestHeight_ : BlockHeight;
  fullBlocks_ : gmap BlockHeight Block.t;
  pendingRequests_ : gmap string BlockHeight;
  logCallback_ : bool;
  requestCallback_ : bool
}.

(** [LightweightSync::LightweightSync()]. *)
Definition ctor : t := mk ORDINARY ∅ 0 ∅ ∅ false false.

(** [initialize(role)]. *)
Definition initialize (role : NodeRole) (s : t) : t :=
  mk role ∅ 0 ∅ (pendingRequests_ s) (logCallback_ s) (requestCallback_ s).

(** [getHeader(height)]: [nullptr] is [None]. *)
Definition getHeader (height : BlockHeight) (s : t) : option BlockHeader.t :=
  headers_ s !! height.

(** [validateHeaderChain(header)]. *)
Definition validateHeaderChain (header : BlockHeader.t) (s : t) : bool :=
  if BlockHeader.height header =? 0 then true
  else
    match getHeader (uint64 (BlockHeader.height header - 1)) s with
    | None =>
      if (size (headers_ s) =? 0)%nat then true else false
    | Some prevHeader =>
      if negb (String.eqb (BlockHeader.previousHash header)
                          (BlockHeader.blockHash prevHeader)) then false
      else if negb (BlockHeader.height header
                    =? uint64 (BlockHeader.height prevHeader + 1)) then false
      else true
    end.

(** [syncHeader(header)]: the returned flag and the new state. *)
Definition syncHeader (header : BlockHeader.t) (s : t) : bool * t :=
  if negb (validateHeaderChain header s) then (false, s)
  else
    let headers := <[BlockHeader.height header := header]> (headers_ s) in
    let latest :=
      if latestHeight_ s <? BlockHeader.height header
      then BlockHeader.height header else latestHeight_ s in
    (true, mk (nodeRole_ s) headers latest (fullBlocks_ s) (pendingRequests_ s)
              (logCallback_ s) (requestCallback_ s)).
(** [hasHeader(height)]. *)
Definition hasHeader (height : BlockHeight) (s : t) : bool :=
  match headers_ s !! height with
  | Some _ => true
  | None => false
  end.

(** [hasFullBlock(height)]. *)
Definition hasFullBlock (height : BlockHeight) (s : t) : bool :=
  match fullBlocks_ s !! height with
  | Some _ => true
  | None => false
  end.

(** [getFullBlock(height)]: [nullptr] is [None]. *)
Definition getFullBlock (height : BlockHeight) (s : t) : option Block.t :=
  fullBlocks_ s !! height.

Section WithHash.
Variable hasher : string -> Z.
Variable to_string : Z -> string.

(** [receiveFullBlock(block)]: the returned flag and the new state. *)
Definition receiveFullBlock (block : Block.t) (s : t) : bool * t :=
  match getHeader (Block.height block) s with
  | None => (false, s)
  | Some header =>
    if negb (String.eqb (BlockHeader.blockHash header) (Block.blockHash block))
    then (false, s)
    else if negb (String.eqb (BlockHeader.merkleRoot header)
                   (BlockHeader.calculateMerkleRoot hasher to_string
                      (Block.transactions block)))
    then (false, s)
    else if negb (BlockHeader.txCount header
                  =? to_int (Z.of_nat (length (Block.transactions block))))
    then (false, s)
    else
      (true, mk (nodeRole_ s) (headers_ s) (latestHeight_ s)
                (<[Block.height block := block]> (fullBlocks_ s))
                (pendingRequests_ s) (logCallback_ s) (requestCallback_ s))
  end.
End WithHash.

(** [cleanup(keepCount)]: [keepCount] is converted to the unsigned type
    of the heights in the comparison and in the subtraction. *)
Definition cleanup (keepCount : Z) (s : t) : t :=
  if latestHeight_ s <=? to_size_t keepCount then s
  else
    let cutoff := uint64 (latestHeight_ s - to_size_t keepCount) in
    mk (nodeRole_ s)
       (filter (fun entry => cutoff <= entry.1) (headers_ s))
       (latestHeight_ s)
       (filter (fun entry => cutoff <= entry.1) (fullBlocks_ s))
       (pendingRequests_ s) (logCallback_ s) (requestCallback_ s).
End LightweightSync.

(* ===================================================================== *)
(** ** shard/RegionalShardManager                                         *)
(* ===================================================================== *)

(** Entries of a [std::map] keyed by an integer, in iteration order. *)
Definition key_le {V} (a b : Z * V) : Prop := a.1 <= b.1.

#[global] Instance key_le_dec {V} (a b : Z * V) : Decision (key_le a b).
Proof. unfold key_le. apply _. Defined.

Definition map_in_order {V} (m : gmap Z V) : list (Z * V) :=
  merge_sort key_le (map_to_list m).

(** [std::numeric_limits<double>::max()]. *)
Definition DBL_MAX : double := 0x1.fffffffffffffp+1023%float.

Module RegionalShardManager.
Record t := mk {
  shards_ : gmap ShardID ShardInfo.t;
  nodeShardMap_ : gmap NodeID ShardID;
  nodeLocationMap_ : gmap NodeID GeoCoord.t;
  nodeReputationMap_ : gmap NodeID ReputationScore;
  nextShardID_ : ShardID;
  shardRadius_ : double;
  minShardSize_ : Z;
  maxShardSize_ : Z;
  vrfSelectors_ : gmap ShardID VRFSelector.t;
  consensusGroups_ : gmap ShardID ConsensusGroup.t;
  totalJoins_ : Z;
  totalLeaves_ : Z;
  totalSplits_ : Z;
  totalMerges_ : Z
}.

(** [RegionalShardManager::RegionalShardManager()]. *)
Definition ctor : t :=
  mk ∅ ∅ ∅ ∅ 0 Constants.REGIONAL_SHARD_RADIUS Constants.MIN_SHARD_SIZE
     Constants.MAX_SHARD_SIZE ∅ ∅ 0 0 0 0.

(** [initialize(shardRadius, minShardSize, maxShardSize)]. *)
Definition initialize (shardRadius : double) (minShardSize maxShardSize : Z)
    (m : t) : t :=
  mk (shards_ m) (nodeShardMap_ m) (nodeLocationMap_ m) (nodeReputationMap_ m)
     (nextShardID_ m) shardRadius minShardSize maxShardSize
     (vrfSelectors_ m) (consensusGroups_ m)
     (totalJoins_ m) (totalLeaves_ m) (totalSplits_ m) (totalMerges_ m).

(** Updates of one member, the others kept. *)
Definition with_shards (f : gmap ShardID ShardInfo.t -> gmap ShardID ShardInfo.t)
    (m : t) : t :=
  mk (f (shards_ m)) (nodeShardMap_ m) (nodeLocationMap_ m) (nodeReputationMap_ m)
     (nextShardID_ m) (shardRadius_ m) (minShardSize_ m) (maxShardSize_ m)
     (vrfSelectors_ m) (consensusGroups_ m)
     (totalJoins_ m) (totalLeaves_ m) (totalSplits_ m) (totalMerges_ m).

Definition with_nodeShardMap (f : gmap NodeID ShardID -> gmap NodeID ShardID)
    (m : t) : t :=
  mk (shards_ m) (f (nodeShardMap_ m)) (nodeLocationMap_ m) (nodeReputationMap_ m)
     (nextShardID_ m) (shardRadius_ m) (minShardSize_ m) (maxShardSize_ m)
     (vrfSelectors_ m) (consensusGroups_ m)
     (totalJoins_ m) (totalLeaves_ m) (totalSplits_ m) (totalMerges_ m).

Definition with_nodeInfo
    (f : gmap NodeID GeoCoord.t -> gmap NodeID GeoCoord.t)
    (g : gmap NodeID ReputationScore -> gmap NodeID ReputationScore)
    (m : t) : t :=
  mk (shards_ m) (nodeShardMap_ m) (f (nodeLocationMap_ m)) (g (nodeReputationMap_ m))
     (nextShardID_ m) (shardRadius_ m) (minShardSize_ m) (maxShardSize_ m)
     (vrfSelectors_ m) (consensusGroups_ m)
     (totalJoins_ m) (totalLeaves_ m) (totalSplits_ m) (totalMerges_ m).

Definition with_nextShardID (n : ShardID) (m : t) : t :=
  mk (shards_ m) (nodeShardMap_ m) (nodeLocationMap_ m) (nodeReputationMap_ m)
     n (shardRadius_ m) (minShardSize_ m) (maxShardSize_ m)
     (vrfSelectors_ m) (consensusGroups_ m)
     (totalJoins_ m) (totalLeaves_ m) (totalSplits_ m) (totalMerges_ m).

(** The four statistics counters, each increased by the given amount. *)
Definition count (joins leaves splits merges : Z) (m : t) : t :=
  mk (shards_ m) (nodeShardMap_ m) (nodeLocationMap_ m) (nodeReputationMap_ m)
     (nextShardID_ m) (shardRadius_ m) (minShardSize_ m) (maxShardSize_ m)
     (vrfSelectors_ m) (consensusGroups_ m)
     (totalJoins_ m + joins) (totalLeaves_ m + leaves)
     (totalSplits_ m + splits) (totalMerges_ m + merges).

(** Updates of one shard record. *)
Definition set_members (f : gset NodeID -> gset NodeID) (s : ShardInfo.t)
    : ShardInfo.t :=
  ShardInfo.mk (ShardInfo.shardID s) (ShardInfo.level s) (ShardInfo.centerPoint s)
               (ShardInfo.radius s) (f (ShardInfo.members s)) (ShardInfo.leader s)
               (ShardInfo.creationTime s) (ShardInfo.lastUpdate s).

Definition set_leader (l : NodeID) (s : ShardInfo.t) : ShardInfo.t :=
  ShardInfo.mk (ShardInfo.shardID s) (ShardInfo.level s) (ShardInfo.centerPoint s)
               (ShardInfo.radius s) (ShardInfo.members s) l
               (ShardInfo.creationTime s) (ShardInfo.lastUpdate s).

Definition set_lastUpdate (now : simtime_t) (s : ShardInfo.t) : ShardInfo.t :=
  ShardInfo.mk (ShardInfo.shardID s) (ShardInfo.level s) (ShardInfo.centerPoint s)
               (ShardInfo.radius s) (ShardInfo.members s) (ShardInfo.leader s)
               (ShardInfo.creationTime s) now.

(** [shards_[shardID]] taken as a reference: [operator[]] inserts a
    default-constructed shard when the key is absent. *)
Definition touchShard (shardID : ShardID) (m : t) : t :=
  match shards_ m !! shardID with
  | Some _ => m
  | None => with_shards (insert shardID ShardInfo.ctor) m
  end.

(** Reading through a reference to [shards_[shardID]]. *)
Definition shardAt (shardID : ShardID) (m : t) : ShardInfo.t :=
  default ShardInfo.ctor (shards_ m !! shardID).

(** [canAcceptMember(shardID)]. *)
Definition canAcceptMember (shardID : ShardID) (m : t) : bool :=
  match shards_ m !! shardID with
  | Some s => ShardInfo.getMemberCount s <? to_size_t (maxShardSize_ m)
  | None => false
  end.

(** [shouldSplitShard(shardID)]. *)
Definition shouldSplitShard (shardID : ShardID) (m : t) : bool :=
  match shards_ m !! shardID with
  | Some s => to_size_t (maxShardSize_ m) <? ShardInfo.getMemberCount s
  | None => false
  end.

(** [shouldMergeShard(shardID)]. *)
Definition shouldMergeShard (shardID : ShardID) (m : t) : bool :=
  match shards_ m !! shardID with
  | Some s => ShardInfo.getMemberCount s <? to_size_t (minShardSize_ m)
  | None => false
  end.

(** One iteration of the loop of [getShardForLocation]. *)
Definition bestShardStep (location : GeoCoord.t) (m : t)
    (acc : ShardID * double) (entry : ShardID * ShardInfo.t) : ShardID * double :=
  let '(bestShard, minDistance) := acc in
  let '(shardID, shard) := entry in
  if ShardInfo.contains shard location then
    if canAcceptMember shardID m then
      let distance := GeoCoord.distanceTo (ShardInfo.centerPoint shard) location in
      if PrimFloat.ltb distance minDistance then (shardID, distance)
      else (bestShard, minDistance)
    else (bestShard, minDistance)
  else (bestShard, minDistance).

(** [getShardForLocation(location)]. *)
Definition getShardForLocation (location : GeoCoord.t) (m : t) : ShardID :=
  fst (foldl (bestShardStep location m) (-1, DBL_MAX) (map_in_order (shards_ m))).

(** [findNearestShard(location)]. *)
Definition findNearestShard (location : GeoCoord.t) (m : t) : ShardID :=
  fst (foldl
         (fun (acc : ShardID * double) (entry : ShardID * ShardInfo.t) =>
            let distance := GeoCoord.distanceTo (ShardInfo.centerPoint entry.2) location in
            if PrimFloat.ltb distance acc.2 then (entry.1, distance) else acc)
         (-1, DBL_MAX) (map_in_order (shards_ m))).

(** [createShard(centerPoint)]: the new id and the new state. *)
Definition createShard (centerPoint : GeoCoord.t) (now : simtime_t) (m : t)
    : ShardID * t :=
  let shardID := nextShardID_ m in
  let shard := ShardInfo.mk shardID REGIONAL centerPoint (shardRadius_ m) ∅ "" 0 now in
  (shardID, with_shards (insert shardID shard) (with_nextShardID (shardID + 1) m)).

(** [electLeaderByReputation(shardID)]: the body in the repository is
    [return ""]. *)
Definition electLeaderByReputation (shardID : ShardID) (m : t) : NodeID := "".

(** [electLeader(shardID)]. *)
Definition electLeader (shardID : ShardID) (now : simtime_t) (m : t) : t :=
  match shards_ m !! shardID with
  | None => m
  | Some _ =>
    let leader := electLeaderByReputation shardID m in
    with_shards (alter (fun s => set_lastUpdate now (set_leader leader s)) shardID) m
  end.

(** [calculateSplitPoint(shard)]. *)
Definition calculateSplitPoint (shard : ShardInfo.t) (m : t) : GeoCoord.t :=
  if (size (ShardInfo.members shard) =? 0)%nat then ShardInfo.centerPoint shard
  else
    let '(avgLat, avgLon, count) :=
      foldl (fun (acc : double * double * Z) (nodeID : NodeID) =>
               let '(lat, lon, n) := acc in
               match nodeLocationMap_ m !! nodeID with
               | Some loc =>
                 ((lat + GeoCoord.latitude loc)%float,
                  (lon + GeoCoord.longitude loc)%float, n + 1)
               | None => acc
               end)
            (0.0%float, 0.0%float, 0) (set_in_order (ShardInfo.members shard)) in
    if 0 <? count
    then GeoCoord.mk (avgLat / double_of_int count)%float
                     (avgLon / double_of_int count)%float
    else ShardInfo.centerPoint shard.

(** [splitShard(shardID)].  [originalShard] and [newShard] are
    references into [shards_]: they are read and written through the
    map so that the two may name the same entry. *)
Definition splitShard (shardID : ShardID) (now : simtime_t) (m : t) : t :=
  match shards_ m !! shardID with
  | None => m
  | Some originalShard =>
    if ShardInfo.getMemberCount originalShard <=? to_size_t (minShardSize_ m) then m
    else
      let splitPoint := calculateSplitPoint originalShard m in
      let '(newShardID, m1) := createShard splitPoint now m in
      let membersToMove :=
        List.filter
          (fun nodeID =>
             match nodeLocationMap_ m1 !! nodeID with
             | Some loc =>
               let distToOriginal :=
                 GeoCoord.distanceTo (ShardInfo.centerPoint (shardAt shardID m1)) loc in
               let distToNew := GeoCoord.distanceTo splitPoint loc in
               PrimFloat.ltb distToNew distToOriginal
             | None => false
             end)
          (set_in_order (ShardInfo.members (shardAt shardID m1))) in
      let m2 := touchShard newShardID m1 in
      let m3 :=
        foldl (fun acc nodeID =>
                 with_nodeShardMap (insert nodeID newShardID)
                   (with_shards
                      (fun sh =>
                         alter (set_members (fun s => s ∪ {[nodeID]})) newShardID
                           (alter (set_members (fun s => s ∖ {[nodeID]})) shardID sh))
                      acc))
              m2 membersToMove in
      let m4 := electLeader shardID now m3 in
      let m5 := electLeader newShardID now m4 in
      count 0 0 1 0 m5
  end.

(** [mergeShard(shardID)]. *)
Definition mergeShard (shardID : ShardID) (now : simtime_t) (m : t) : t :=
  match shards_ m !! shardID with
  | None => m
  | Some shard =>
    let nearestShard := findNearestShard (ShardInfo.centerPoint shard) m in
    if (nearestShard =? -1) || (nearestShard =? shardID) then m
    else
      let m1 := touchShard nearestShard m in
      let m2 :=
        foldl (fun acc nodeID =>
                 with_nodeShardMap (insert nodeID nearestShard)
                   (with_shards
                      (alter (set_members (fun s => s ∪ {[nodeID]})) nearestShard) acc))
              m1 (set_in_order (ShardInfo.members shard)) in
      let m3 := with_shards (delete shardID) m2 in
      let m4 := electLeader nearestShard now m3 in
      count 0 0 0 1 m4
  end.

(** [electConsensusGroup(shardID, epoch)]: the body in the repository
    is [return ConsensusGroup()]; the manager is not modified. *)
Definition electConsensusGroup (shardID : ShardID) (epoch : Z) (m : t)
    : ConsensusGroup.t * t :=
  (ConsensusGroup.ctor, m).

(** [addNode(nodeID, location, reputation)]: the returned shard id and
    the new state. *)
Definition addNode (nodeID : NodeID) (location : GeoCoord.t)
    (reputation : ReputationScore) (now : simtime_t) (m : t) : ShardID * t :=
  match nodeShardMap_ m !! nodeID with
  | Some shardID => (shardID, m)
  | None =>
    let m1 := with_nodeInfo (insert nodeID location) (insert nodeID reputation) m in
    let found := getShardForLocation location m1 in
    let '(shardID, m2) :=
      if found =? -1 then createShard location now m1 else (found, m1) in
    let m3 := touchShard shardID m2 in
    let m4 :=
      with_nodeShardMap (insert nodeID shardID)
        (with_shards
           (alter (fun s => set_lastUpdate now (set_members (fun ms => ms ∪ {[nodeID]}) s))
                  shardID) m3) in
    let m5 :=
      if string_empty (ShardInfo.leader (shardAt shardID m4))
      then electLeader shardID now m4 else m4 in
    let m6 := if shouldSplitShard shardID m5 then splitShard shardID now m5 else m5 in
    (shardID, count 1 0 0 0 m6)
  end.

(** [removeNode(nodeID)]. *)
Definition removeNode (nodeID : NodeID) (now : simtime_t) (m : t) : t :=
  match nodeShardMap_ m !! nodeID with
  | None => m
  | Some shardID =>
    let m1 := touchShard shardID m in
    let m2 :=
      with_shards
        (alter (fun s => set_lastUpdate now (set_members (fun ms => ms ∖ {[nodeID]}) s))
               shardID) m1 in
    let m3 :=
      if String.eqb (ShardInfo.leader (shardAt shardID m2)) nodeID then
        let m' := with_shards (alter (set_leader "") shardID) m2 in
        if negb (size (ShardInfo.members (shardAt shardID m')) =? 0)%nat
        then electLeader shardID now m' else m'
      else m2 in
    let m4 :=
      with_nodeInfo (delete nodeID) (delete nodeID)
        (with_nodeShardMap (delete nodeID) m3) in
    let m5 :=
      if (size (ShardInfo.members (shardAt shardID m4)) =? 0)%nat
      then with_shards (delete shardID) m4
      else if shouldMergeShard shardID m4 then mergeShard shardID now m4
      else m4 in
    count 0 1 0 0 m5
  end.
(** [getNodeShard(nodeID)]. *)
Definition getNodeShard (nodeID : NodeID) (m : t) : ShardID :=
  match nodeShardMap_ m !! nodeID with
  | Some shardID => shardID
  | None => -1
  end.

(** [getNodeLocation(nodeID)]. *)
Definition getNodeLocation (nodeID : NodeID) (m : t) : GeoCoord.t :=
  match nodeLocationMap_ m !! nodeID with
  | Some location => location
  | None => GeoCoord.mk 0.0 0.0
  end.

(** [getShardLeader(shardID)]. *)
Definition getShardLeader (shardID : ShardID) (m : t) : NodeID :=
  match shards_ m !! shardID with
  | Some s => ShardInfo.leader s
  | None => ""
  end.

(** [isShardLeader(nodeID, shardID)]. *)
Definition isShardLeader (nodeID : NodeID) (shardID : ShardID) (m : t) : bool :=
  match shards_ m !! shardID with
  | Some s => ShardInfo.isLeader s nodeID
  | None => false
  end.

(** [getTotalNodes()]. *)
Definition getTotalNodes (m : t) : Z := Z.of_nat (size (nodeShardMap_ m)).

(** [nodeReputationMap_[nodeID]] read with [operator[]]: a missing entry
    is created with the value 0.0. *)
Definition touchReputation (nodeID : NodeID) (m : t) : t :=
  match nodeReputationMap_ m !! nodeID with
  | Some _ => m
  | None => with_nodeInfo (fun l => l) (insert nodeID 0.0%float) m
  end.

(** [updateNodeLocation(nodeID, newLocation)]: the returned shard id and
    the new state. *)
Definition updateNodeLocation (nodeID : NodeID) (newLocation : GeoCoord.t)
    (now : simtime_t) (m : t) : ShardID * t :=
  match nodeShardMap_ m !! nodeID with
  | None => (-1, m)
  | Some currentShardID =>
    let m1 := with_nodeInfo (insert nodeID newLocation) (fun r => r) m in
    let m2 := touchShard currentShardID m1 in
    if ShardInfo.contains (shardAt currentShardID m2) newLocation
    then (currentShardID, m2)
    else
      let m3 := removeNode nodeID now m2 in
      let m4 := touchReputation nodeID m3 in
      let reputation :=
        match nodeReputationMap_ m4 !! nodeID with
        | Some r => r
        | None => 0.0%float
        end in
      addNode nodeID newLocation reputation now m4
  end.
End RegionalShardManager.

(* ===================================================================== *)
(** ** reputation/LowRepVerifier                                          *)
(* ===================================================================== *)

Module PendingEvent.
Record t := mk {
  reporterID : NodeID;
  eventID : string;
  eventType : string;
  eventData : string;
  timestamp : simtime_t;
  reporterReputation : double;
  verificationCount : Z;
  confirmCount : Z;
  rejectCount : Z;
  verified : bool;
  result : bool
}.

(** [PendingEvent()]. *)
Definition ctor : t := mk "" "" "" "" 0 0.0%float 0 0 0 false false.
End PendingEvent.

Module VerificationTask.
Record t := mk {
  eventID : string;
  verifiers : list NodeID;
  assignedTime : simtime_t
}.
End VerificationTask.

Module LowRepVerifier.
Record t := mk {
  pendingEvents_ : gmap string PendingEvent.t;
  tasks_ : gmap string VerificationTask.t;
  verifiersPerEvent_ : Z;
  threshold_ : double;
  logCallback_ : bool;
  verificationCallback_ : bool
}.

(** [LowRepVerifier::LowRepVerifier()]. *)
Definition ctor : t := mk ∅ ∅ 3 0.67%float false false.

(** [initialize(verifiersPerEvent, threshold)]. *)
Definition initialize (verifiersPerEvent : Z) (threshold : double) (s : t) : t :=
  mk (pendingEvents_ s) (tasks_ s) verifiersPerEvent threshold
     (logCallback_ s) (verificationCallback_ s).

(** [setVerificationCallback(callback)] with a non-empty callback. *)
Definition setVerificationCallback (s : t) : t :=
  mk (pendingEvents_ s) (tasks_ s) (verifiersPerEvent_ s) (threshold_ s)
     (logCallback_ s) true.

Definition set_pendingEvents (events : gmap string PendingEvent.t) (s : t) : t :=
  mk events (tasks_ s) (verifiersPerEvent_ s) (threshold_ s)
     (logCallback_ s) (verificationCallback_ s).

Section WithFormat.
(** The text that [generateEventID] streams for a time: [SimTime::dbl]
    followed by [std::fixed << std::setprecision(3)], library functions
    outside the repository. *)
Variable show_fixed3 : simtime_t -> string.

(** [generateEventID(reporterID, timestamp)]. *)
Definition generateEventID (reporterID : NodeID) (timestamp : simtime_t) : string :=
  "EVT_" +:+ reporterID +:+ "_" +:+ show_fixed3 timestamp.

(** [submitEvent(reporterID, eventType, eventData, reporterRep)]: the
    returned event id and the new state. *)
Definition submitEvent (reporterID : NodeID) (eventType eventData : string)
    (reporterRep : double) (now : simtime_t) (s : t) : string * t :=
  let eventID := generateEventID reporterID now in
  let event :=
    PendingEvent.mk reporterID eventID eventType eventData now reporterRep
                    0 0 0 false false in
  (eventID, set_pendingEvents (<[eventID := event]> (pendingEvents_ s)) s).
End WithFormat.

(** [checkVerificationThreshold(event)]. *)
Definition checkVerificationThreshold (event : PendingEvent.t) (s : t) : bool :=
  if PendingEvent.verificationCount event <? verifiersPerEvent_ s then false
  else
    let confirmRatio :=
      (double_of_int (PendingEvent.confirmCount event)
       / double_of_int (PendingEvent.verificationCount event))%float in
    let rejectRatio :=
      (double_of_int (PendingEvent.rejectCount event)
       / double_of_int (PendingEvent.verificationCount event))%float in
    if PrimFloat.leb (threshold_ s) confirmRatio
       || PrimFloat.ltb (1.0 - threshold_ s)%float rejectRatio
    then true
    else false.

(** The counters of an event after one more answer. *)
Definition countAnswer (confirm : bool) (event : PendingEvent.t) : PendingEvent.t :=
  PendingEvent.mk
    (PendingEvent.reporterID event) (PendingEvent.eventID event)
    (PendingEvent.eventType event) (PendingEvent.eventData event)
    (PendingEvent.timestamp event) (PendingEvent.reporterReputation event)
    (PendingEvent.verificationCount event + 1)
    (if confirm then PendingEvent.confirmCount event + 1 else PendingEvent.confirmCount event)
    (if confirm then PendingEvent.rejectCount event else PendingEvent.rejectCount event + 1)
    (PendingEvent.verified event) (PendingEvent.result event).

(** [submitVerification(eventID, verifierID, confirm)]: the new state
    and the results handed to [verificationCallback_]. *)
Definition submitVerification (eventID : string) (verifierID : NodeID)
    (confirm : bool) (s : t) : t * list (string * bool) :=
  match pendingEvents_ s !! eventID with
  | None => (s, [])
  | Some stored =>
    let event := countAnswer confirm stored in
    if checkVerificationThreshold event s then
      let confirmRatio :=
        (double_of_int (PendingEvent.confirmCount event)
         / double_of_int (PendingEvent.verificationCount event))%float in
      let result := PrimFloat.leb (threshold_ s) confirmRatio in
      let event' :=
        PendingEvent.mk
          (PendingEvent.reporterID event) (PendingEvent.eventID event)
          (PendingEvent.eventType event) (PendingEvent.eventData event)
          (PendingEvent.timestamp event) (PendingEvent.reporterReputation event)
          (PendingEvent.verificationCount event) (PendingEvent.confirmCount event)
          (PendingEvent.rejectCount event) true result in
      (set_pendingEvents (<[eventID := event']> (pendingEvents_ s)) s,
       if verificationCallback_ s then [(eventID, result)] else [])
    else (set_pendingEvents (<[eventID := event]> (pendingEvents_ s)) s, [])
  end.

(** [isEventVerified(eventID)]. *)
Definition isEventVerified (eventID : string) (s : t) : bool :=
  match pendingEvents_ s !! eventID with
  | Some event => PendingEvent.verified event
  | None => false
  end.

(** [getVerificationResult(eventID)]. *)
Definition getVerificationResult (eventID : string) (s : t) : bool :=
  match pendingEvents_ s !! eventID with
  | Some event => PendingEvent.verified event && PendingEvent.result event
  | None => false
  end.

(** [getPendingCount()]. *)
Definition getPendingCount (s : t) : Z := Z.of_nat (size (pendingEvents_ s)).

Section WithClock.
(** [SimTime::dbl]: the conversion of a simulation time to seconds, a
    library function outside the repository. *)
Variable dbl : simtime_t -> double.

(** The test of [cleanupExpiredEvents] on one event. *)
Definition expired (currentTime : simtime_t) (timeout : double)
    (event : PendingEvent.t) : bool :=
  negb (PendingEvent.verified event)
  && PrimFloat.ltb timeout (dbl (currentTime - PendingEvent.timestamp event)).

(** [cleanupExpiredEvents(currentTime, timeout)]. *)
Definition cleanupExpiredEvents (currentTime : simtime_t) (timeout : double)
    (s : t) : t :=
  let toRemove :=
    (map_to_list
       (filter (fun entry => expired currentTime timeout entry.2 = true)
               (pendingEvents_ s))).*1 in
  foldl (fun acc eventID =>
           mk (delete eventID (pendingEvents_ acc)) (delete eventID (tasks_ acc))
              (verifiersPerEvent_ acc) (threshold_ acc)
              (logCallback_ acc) (verificationCallback_ acc))
        s toRemove.
End WithClock.
End LowRepVerifier.

(* ===================================================================== *)
(** ** Concrete scenarios                                                 *)
(* ===================================================================== *)

Module Scenario.
(** A stand-in for [std::exp] with which the closed examples run:
    the argument is scaled by 2^-10, a degree-12 Taylor polynomial is
    evaluated by Horner's rule and the result is squared ten times.
    It returns 1 at zero, as [std::exp] does; the examples call it
    there only, and no general statement mentions it. *)
Definition exp_series (x : double) : double :=
  let y := (x / 1024)%float in
  let p :=
    fold_right (fun k acc => (1 + y * acc / k)%float) 1%float
               [1; 2; 3; 4; 5; 6; 7; 8; 9; 10; 11; 12]%float in
  Nat.iter 10 (fun v => (v * v)%float) p.

(** A replica "n2" of shard 0 whose vote callback is set. *)
Definition replica : HotStuffEngine.t :=
  HotStuffEngine.setVoteCallback
    (HotStuffEngine.initialize "n2" 0 HotStuffEngine.ctor).

Definition tx1 : Transaction.t := Transaction.mk "t1" "n1" "n3" 1.0%float 0 "".

(** A proposal of leader "n1" for height 1, view 0, stamped with
    shard 1, which is not the replica's shard. *)
Definition foreignProposal : ConsensusProposal.t :=
  ConsensusProposal.mk "n1_0_1_0" 1 0 "n1" 1 0 [tx1] "1__0".




(** A reputation manager in which only "n1" is registered. *)
Definition registry : VRMManager.t :=
  VRMManager.registerNode "n1" Constants.INITIAL_REPUTATION 0
    (VRMManager.initialize VRMManager.ctor).

(** The committee election of the determinism scenario. *)
Definition elect (seed : Z) : ConsensusGroup.t :=
  fst (VRFSelector.electConsensusGroup ["n1"; "n2"; "n3"; "n4"] ["n1"] 2 1 seed
         (VRFSelector.initialize 0 VRFSelector.ctor)).

(** Headers at heights 5 and 6, the second chained on the first. *)
Definition header5 : BlockHeader.t :=
  BlockHeader.mk 5 "h5" "h4" "EMPTY_ROOT" 0 0 "n1" 0.

Definition header6 : BlockHeader.t :=
  BlockHeader.mk 6 "h6" "h5" "EMPTY_ROOT" 0 0 "n1" 0.

Definition emptySync : LightweightSync.t :=
  LightweightSync.initialize ORDINARY LightweightSync.ctor.

(** A shard manager with radius 3000, sizes between 1 and 2, and two
    nodes "a" and "b" at the origin: shard 0 is full. *)
Definition origin : GeoCoord.t := GeoCoord.mk 0 0.

Definition fullShard : RegionalShardManager.t :=
  snd (RegionalShardManager.addNode "b" origin 0.5%float 0
    (snd (RegionalShardManager.addNode "a" origin 0.5%float 0
       (RegionalShardManager.initialize 3000.0%float 1 2 RegionalShardManager.ctor)))).

(** The record of shard 0 in [fullShard]. *)
Definition shard0 : ShardInfo.t := RegionalShardManager.shardAt 0 fullShard.

(** A point far outside the radius of shard 0. *)
Definition farAway : GeoCoord.t := GeoCoord.mk 9000 9000.
(** Decimal text of an integer, as [operator<<] prints a [uint64_t]. *)
Definition show_decimal (z : Z) : string := pretty z.

(** A stand-in for the text OMNeT++ prints for a [simtime_t], used
    only to run the closed examples: the raw tick count in decimal. *)
Definition show_ticks (t : simtime_t) : string := pretty t.

(** The leader "n1" of shard 0 with both callbacks set. *)
Definition leader : HotStuffEngine.t :=
  HotStuffEngine.setProposalCallback
    (HotStuffEngine.setVoteCallback
       (HotStuffEngine.initialize "n1" 0 HotStuffEngine.ctor)).
(** A stand-in for [std::hash<std::string>], used only to run the
    closed examples: the length of the string. *)
Definition hash_length (s : string) : Z := Z.of_nat (String.length s).

(** A block of height 5 with one transaction. *)
Definition block5 : Block.t :=
  Block.mk 5 "h5" "h4" 0 [tx1] QuorumCertificate.ctor 0 "n1".

(** A stand-in for [SimTime::dbl], used only to run the closed
    examples: one tick is one second. *)
Definition seconds (t : simtime_t) : double := double_of_int t.

(** A verifier with the constructor's configuration, a callback, and one
    event reported by "n9" at time 0; its id is "EVT_n9_0". *)
Definition reported : LowRepVerifier.t :=
  snd (LowRepVerifier.submitEvent show_ticks "n9" "accident" "lane 2" 0.2%float 0
         (LowRepVerifier.setVerificationCallback LowRepVerifier.ctor)).

(** [reported] after two confirmations of the event. *)
Definition twoConfirmed : LowRepVerifier.t :=
  fst (LowRepVerifier.submitVerification "EVT_n9_0" "n2" true
         (fst (LowRepVerifier.submitVerification "EVT_n9_0" "n1" true reported))).
End Scenario.

(* ===================================================================== *)
(** ** Notions used by the statements                                     *)
(* ===================================================================== *)

(** The quorum size as the specification words it: ceil(2N/3) + 1, not
    below 2.  It is compared with [HotStuffEngine.getQuorumSize]. *)
Definition spec_quorum_size (N : Z) : Z := Z.max 2 ((2 * N + 2) / 3 + 1).

(** [handleVote] over a sequence of votes, in arrival order. *)
Definition handleVotes (votes : list VoteInfo.t) (e : HotStuffEngine.t)
    : HotStuffEngine.t :=
  foldl (fun acc v => HotStuffEngine.handleVote v acc) e votes.



(** The checks that [validateProposal] performs on the transactions. *)
Definition wellFormedTx (tx : Transaction.t) : Prop :=
  Transaction.txID tx <> "" /\ Transaction.sender tx <> "".

(** The header that a new header chains on: it is stored one height
    below, its hash is the new header's previous hash and its own height
    is one less. *)
Definition chainsOn (header : BlockHeader.t) (s : LightweightSync.t) : Prop :=
  exists prevHeader,
    LightweightSync.headers_ s !! (BlockHeader.height header - 1) = Some prevHeader /\
    BlockHeader.previousHash header = BlockHeader.blockHash prevHeader /\
    BlockHeader.height header = uint64 (BlockHeader.height prevHeader + 1).

(** Shard ids are handed out by [nextShardID_++]: every shard in the map
    has an id below the next one. *)
Definition fresh_ids (m : RegionalShardManager.t) : Prop :=
  forall k, is_Some (RegionalShardManager.shards_ m !! k) ->
            k < RegionalShardManager.nextShardID_ m.

(** The part of [addNode] that follows the choice of the shard: insert
    the member, elect a leader if there is none, split if oversized,
    count the join. *)
Definition joinShard (nodeID : NodeID) (shardID : ShardID) (now : simtime_t)
    (m2 : RegionalShardManager.t) : RegionalShardManager.t :=
  let m3 := RegionalShardManager.touchShard shardID m2 in
  let m4 :=
    RegionalShardManager.with_nodeShardMap (insert nodeID shardID)
      (RegionalShardManager.with_shards
         (alter (fun s => RegionalShardManager.set_lastUpdate now
                            (RegionalShardManager.set_members (fun ms => ms ∪ {[nodeID]}) s))
                shardID) m3) in
  let m5 :=
    if string_empty (ShardInfo.leader (RegionalShardManager.shardAt shardID m4))
    then RegionalShardManager.electLeader shardID now m4 else m4 in
  let m6 :=
    if RegionalShardManager.shouldSplitShard shardID m5
    then RegionalShardManager.splitShard shardID now m5 else m5 in
  RegionalShardManager.count 1 0 0 0 m6.

(** What holds of the record stored for [nodeID] in every registry that
    the manager's operations build: it carries its key, its score does
    not compare below 0 or above 1, the two components of the dual model
    and the interaction count are those of the constructor, and the
    counters are ordered. *)
Definition recordOk (nodeID : NodeID) (r : ReputationRecord.t) : Prop :=
  ReputationRecord.nodeID r = nodeID /\
  PrimFloat.ltb (ReputationRecord.score r) Constants.MIN_REPUTATION = false /\
  PrimFloat.ltb Constants.MAX_REPUTATION (ReputationRecord.score r) = false /\
  ReputationRecord.globalReputation r = 0.5%float /\
  ReputationRecord.localPerformance r = 0.5%float /\
  ReputationRecord.localInteractionCount r = 0 /\
  0 <= ReputationRecord.validProposals r <= ReputationRecord.totalProposals r /\
  0 <= ReputationRecord.correctVotes r <= ReputationRecord.totalVotes r /\
  0 <= ReputationRecord.successfulTx r /\
  0 <= ReputationRecord.failedTx r.

(** The registries that the public operations of the reputation manager
    build, starting from the constructor. *)
Inductive RegistryReachable (exp : double -> double) : VRMManager.t -> Prop :=
  | reach_ctor : RegistryReachable exp VRMManager.ctor
  | reach_initialize m :
      RegistryReachable exp m -> RegistryReachable exp (VRMManager.initialize m)
  | reach_registerNode nodeID initialScore now m :
      RegistryReachable exp m ->
      RegistryReachable exp (VRMManager.registerNode nodeID initialScore now m)
  | reach_unregisterNode nodeID m :
      RegistryReachable exp m ->
      RegistryReachable exp (VRMManager.unregisterNode nodeID m)
  | reach_recordEvent nodeID event now m :
      RegistryReachable exp m ->
      RegistryReachable exp (VRMManager.recordEvent exp nodeID event now m)
  | reach_applyDecay now m :
      RegistryReachable exp m -> RegistryReachable exp (VRMManager.applyDecay now m)
  | reach_cleanupHistory maxEventsPerNode m :
      RegistryReachable exp m ->
      RegistryReachable exp (VRMManager.cleanupHistory maxEventsPerNode m).

(** The number of times [nodeID] occurs in a list of participants. *)
Definition occurrences (nodeID : NodeID) (participants : list NodeID) : nat :=
  length (List.filter (String.eqb nodeID) participants).

(** The sync states that the operations of the lightweight sync build,
    starting from the constructor. *)
Inductive SyncReachable (hasher : string -> Z) (to_string : Z -> string)
    : LightweightSync.t -> Prop :=
  | sync_ctor : SyncReachable hasher to_string LightweightSync.ctor
  | sync_initialize role s :
      SyncReachable hasher to_string s ->
      SyncReachable hasher to_string (LightweightSync.initialize role s)
  | sync_syncHeader header s :
      SyncReachable hasher to_string s ->
      SyncReachable hasher to_string (snd (LightweightSync.syncHeader header s))
  | sync_receiveFullBlock block s :
      SyncReachable hasher to_string s ->
      SyncReachable hasher to_string
        (snd (LightweightSync.receiveFullBlock hasher to_string block s))
  | sync_cleanup keepCount s :
      SyncReachable hasher to_string s ->
      SyncReachable hasher to_string (LightweightSync.cleanup keepCount s).

(** A shard that [getShardForLocation] may return for a location: it
    exists, contains the location and holds fewer members than the bound. *)
Definition admits (location : GeoCoord.t) (m : RegionalShardManager.t)
    (shardID : ShardID) : Prop :=
  exists shard,
    RegionalShardManager.shards_ m !! shardID = Some shard /\
    ShardInfo.contains shard location = true /\
    ShardInfo.getMemberCount shard < to_size_t (RegionalShardManager.maxShardSize_ m).

(** The node is assigned to a shard that exists and lists it as a member. *)
Definition placed (nodeID : NodeID) (m : RegionalShardManager.t) : Prop :=
  exists shardID shard,
    RegionalShardManager.nodeShardMap_ m !! nodeID = Some shardID /\
    RegionalShardManager.shards_ m !! shardID = Some shard /\
    nodeID ∈ ShardInfo.members shard.

(** Every assigned node is a member of the shard it is assigned to, and
    every shard id in use was handed out by the id counter. *)
Definition shardsOk (m : RegionalShardManager.t) : Prop :=
  fresh_ids m /\
  forall nodeID, is_Some (RegionalShardManager.nodeShardMap_ m !! nodeID) ->
                 placed nodeID m.

(** The shard managers that the public operations build from a fresh one. *)
Inductive ShardsReachable : RegionalShardManager.t -> Prop :=
  | shards_ctor : ShardsReachable RegionalShardManager.ctor
  | shards_initialize shardRadius minShardSize maxShardSize m :
      ShardsReachable m ->
      ShardsReachable
        (RegionalShardManager.initialize shardRadius minShardSize maxShardSize m)
  | shards_addNode nodeID location reputation now m :
      ShardsReachable m ->
      ShardsReachable
        (snd (RegionalShardManager.addNode nodeID location reputation now m))
  | shards_removeNode nodeID now m :
      ShardsReachable m ->
      ShardsReachable (RegionalShardManager.removeNode nodeID now m)
  | shards_updateNodeLocation nodeID newLocation now m :
      ShardsReachable m ->
      ShardsReachable
        (snd (RegionalShardManager.updateNodeLocation nodeID newLocation now m)).

(** What holds of every event the verifier stores: it is stored under
    its own id, its counters are non-negative and add up, and a result
    is only set together with the verified flag. *)
Definition eventOk (eventID : string) (event : PendingEvent.t) : Prop :=
  PendingEvent.eventID event = eventID /\
  0 <= PendingEvent.confirmCount event /\
  0 <= PendingEvent.rejectCount event /\
  PendingEvent.verificationCount event
  = PendingEvent.confirmCount event + PendingEvent.rejectCount event /\
  (PendingEvent.result event = true -> PendingEvent.verified event = true).

(** The verifiers that the public operations build from a fresh one. *)
Inductive VerifierReachable (show_fixed3 : simtime_t -> string)
    (dbl : simtime_t -> double) : LowRepVerifier.t -> Prop :=
  | verifier_ctor : VerifierReachable show_fixed3 dbl LowRepVerifier.ctor
  | verifier_initialize verifiersPerEvent threshold s :
      VerifierReachable show_fixed3 dbl s ->
      VerifierReachable show_fixed3 dbl
        (LowRepVerifier.initialize verifiersPerEvent threshold s)
  | verifier_setVerificationCallback s :
      VerifierReachable show_fixed3 dbl s ->
      VerifierReachable show_fixed3 dbl (LowRepVerifier.setVerificationCallback s)
  | verifier_submitEvent reporterID eventType eventData reporterRep now s :
      VerifierReachable show_fixed3 dbl s ->
      VerifierReachable show_fixed3 dbl
        (snd (LowRepVerifier.submitEvent show_fixed3 reporterID eventType eventData
                reporterRep now s))
  | verifier_submitVerification eventID verifierID confirm s :
      VerifierReachable show_fixed3 dbl s ->
      VerifierReachable show_fixed3 dbl
        (fst (LowRepVerifier.submitVerification eventID verifierID confirm s))
  | verifier_cleanupExpiredEvents currentTime timeout s :
      VerifierReachable show_fixed3 dbl s ->
      VerifierReachable show_fixed3 dbl
        (LowRepVerifier.cleanupExpiredEvents dbl currentTime timeout s).

(* ===================================================================== *)
(** ** The consensus engine                                               *)
(* ===================================================================== *)

Section Engine.
Import HotStuffEngine.

Lemma string_empty_true (s : string) : string_empty s = true <-> s = "".
Proof. destruct s; simpl; split; congruence. Qed.

Lemma string_empty_false (s : string) : string_empty s = false <-> s <> "".
Proof. destruct s; simpl; split; congruence. Qed.

Lemma spec_quorum_size_small (N : Z) : spec_quorum_size N = 2 <-> N <= 1.
Proof.
  unfold spec_quorum_size. split; intros H.
  - destruct (Z_le_gt_dec N 1) as [|Hgt]; [done|].
    assert (2 <= (2 * N + 2) / 3) by (apply Z.div_le_lower_bound; lia). lia.
  - assert ((2 * N + 2) / 3 <= 1).
    { apply Z.lt_succ_r. apply Z.div_lt_upper_bound; lia. }
    lia.
Qed.

(** [getQuorumSize] does not read the size that [setShardSize] records:
    it is 2 for every size, and agrees with ceil(2N/3) + 1 (floored at
    2) exactly when N <= 1. *)
Lemma getQuorumSize_constant (e : t) (N : Z) :
  getQuorumSize (setShardSize N e) = 2 /\
  (getQuorumSize (setShardSize N e) = spec_quorum_size N <-> N <= 1).
Proof.
  split; [reflexivity|]. unfold getQuorumSize.
  rewrite <- spec_quorum_size_small. split; congruence.
Qed.

(** C1 (the code at the failing input).  For a committee of three the
    quorum size is ceil(2*3/3) + 1 = 3, the "> 2/3" that the declaration
    of [getQuorumSize] documents; the engine returns 2, which is not
    above two thirds of three. *)
Theorem getQuorumSize_differs_at_3 :
  getQuorumSize (setShardSize 3 Scenario.replica) = 2 /\
  spec_quorum_size 3 = 3 /\
  shardSize_ (setShardSize 3 Scenario.replica) = 3 /\
  3 * getQuorumSize (setShardSize 3 Scenario.replica) <= 2 * 3.
Proof. repeat split; vm_compute; discriminate. Qed.

(** What [validateProposal] checks: everything the specification
    lists except the shard id. *)
Lemma validateProposal_iff (p : ConsensusProposal.t) (e : t) :
  validateProposal p e = true <->
    ConsensusProposal.proposalID p <> "" /\
    ConsensusProposal.blockHash p <> "" /\
    ConsensusProposal.blockHeight p = uint64 (currentHeight_ e + 1) /\
    currentView_ e <= ConsensusProposal.viewNumber p /\
    ConsensusProposal.transactions p <> [] /\
    Forall wellFormedTx (ConsensusProposal.transactions p).
Proof.
  unfold validateProposal.
  destruct (string_empty (ConsensusProposal.proposalID p)) eqn:Hid; simpl.
  { apply string_empty_true in Hid. split; [done|]. intros (? & _). done. }
  destruct (string_empty (ConsensusProposal.blockHash p)) eqn:Hh; simpl.
  { apply string_empty_true in Hh. split; [done|]. intros (_ & ? & _). done. }
  apply string_empty_false in Hid, Hh.
  destruct (Z.eqb_spec (ConsensusProposal.blockHeight p) (uint64 (currentHeight_ e + 1)))
    as [Hheight|Hheight]; simpl.
  2:{ split; [done|]. intros (_ & _ & ? & _). done. }
  destruct (Z.ltb_spec (ConsensusProposal.viewNumber p) (currentView_ e)) as [Hv|Hv].
  { split; [done|]. intros (_ & _ & _ & ? & _). lia. }
  destruct (ConsensusProposal.transactions p) as [|tx txs] eqn:Htx.
  { split; [done|]. intros (_ & _ & _ & _ & ? & _). done. }
  rewrite forallb_forall, Forall_forall.
  split.
  - intros Hall. do 5 (split; [done|]).
    intros t0 Ht0. apply list_elem_of_In, Hall in Ht0.
    apply negb_true_iff, orb_false_iff in Ht0 as [H1 H2].
    split; by apply string_empty_false.
  - intros (_ & _ & _ & _ & _ & Hall) t0 Ht0.
    apply list_elem_of_In, Hall in Ht0 as [H1 H2].
    apply string_empty_false in H1, H2. by rewrite H1, H2.
Qed.

(** [handleProposal] in terms of [validateProposal]. *)
Lemma handleProposal_rejects (p : ConsensusProposal.t) (now : simtime_t) (e : t) :
  validateProposal p e = false ->
  handleProposal p now e = (e, sendVote p PREPARE false now e).
Proof. unfold handleProposal. by intros ->. Qed.

Lemma handleProposal_accepts (p : ConsensusProposal.t) (now : simtime_t) (e : t) :
  validateProposal p e = true ->
  let e' := fst (handleProposal p now e) in
  currentProposal_ e' = p /\ hasActiveProposal_ e' = true /\
  currentPhase_ e' = PREPARE /\
  snd (handleProposal p now e) = sendVote p PREPARE true now e'.
Proof. unfold handleProposal. by intros ->. Qed.

(** C2 (the code at the failing input).  A replica of shard 0 receives
    a proposal stamped with shard 1 that passes every other check: it
    adopts the proposal and sends an approving Prepare vote. *)
Theorem handleProposal_adopts_foreign_shard :
  let result := handleProposal Scenario.foreignProposal 0 Scenario.replica in
  (ConsensusProposal.shardID Scenario.foreignProposal =? shardID_ Scenario.replica) = false /\
  validateProposal Scenario.foreignProposal Scenario.replica = true /\
  hasActiveProposal_ (fst result) = true /\
  currentPhase_ (fst result) = PREPARE /\
  currentProposal_ (fst result) = Scenario.foreignProposal /\
  map VoteInfo.approve (snd result) = [true] /\
  map VoteInfo.phase (snd result) = [PREPARE].
Proof. vm_compute. repeat split; reflexivity. Qed.

(** Votes for an unknown proposal are ignored. *)
Lemma handleVote_unknown (v : VoteInfo.t) (e : t) :
  hasActiveProposal_ e = false \/
  VoteInfo.proposalID v <> ConsensusProposal.proposalID (currentProposal_ e) ->
  handleVote v e = e.
Proof.
  unfold handleVote. intros [->|Hne]; [done|].
  apply String.eqb_neq in Hne. rewrite Hne. by rewrite orb_true_r.
Qed.





End Engine.

(* ===================================================================== *)
(** ** The reputation manager                                             *)
(* ===================================================================== *)

Section Reputation.
Import VRMManager.

(** [std::exp]: the statements hold for every function in its place. *)
Variable exp : double -> double.

(** The rule that [EventWeight::getEffectiveWeight] implements, for a
    weight that asks for marginal decay and for one that does not. *)
Lemma getEffectiveWeight_marginal (beta R : double) :
  EventWeight.getEffectiveWeight (EventWeight.mk beta true) R = (beta / (1.0 + R))%float.
Proof. reflexivity. Qed.

Lemma getEffectiveWeight_fixed (gamma R : double) :
  EventWeight.getEffectiveWeight (EventWeight.mk gamma false) R = gamma.
Proof. reflexivity. Qed.

(** With the table of [getEventWeight] every event weighs 0.0 without
    decay, so the delta of [recordEvent] is 0.0 for a positive event
    and -0.0 for a negative one, whatever the record. *)
Lemma eventDelta_zero (event : ReputationEvent) (r : ReputationRecord.t) :
  eventDelta exp event r = if isPositive event then 0.0%float else (-0.0)%float.
Proof. destruct event; reflexivity. Qed.

(** [recordEvent] never changes a score. *)
Lemma recordEvent_score (nodeID n : NodeID) (event : ReputationEvent)
    (now : simtime_t) (m : t) :
  getReputation n (recordEvent exp nodeID event now m) = getReputation n m.
Proof.
  unfold recordEvent, getReputation.
  destruct (records_ m !! nodeID) as [r|] eqn:Hr; [|done].
  destruct (applyEvent event _ _) as [delta record'] eqn:Happly.
  unfold updateScore. simpl.
  destruct (decide (nodeID = n)) as [->|Hne].
  - rewrite lookup_insert_eq, Hr.
    destruct event; simpl in Happly; injection Happly as _ <-; reflexivity.
  - by rewrite lookup_insert_ne.
Qed.

(** C3 (the code at the failing input).  "n1" is registered with the
    default score and proposes two valid blocks in succession: both
    deltas are 0.0, the second is not smaller than the first, and the
    score is still 0.5 afterwards. *)
Theorem recordEvent_positive_delta_not_diminishing :
  let m0 := Scenario.registry in
  let m1 := recordEvent exp "n1" PROPOSE_VALID_BLOCK 1 m0 in
  let m2 := recordEvent exp "n1" PROPOSE_VALID_BLOCK 2 m1 in
  let delta1 := eventDelta exp PROPOSE_VALID_BLOCK <$> getRecord "n1" m0 in
  let delta2 := eventDelta exp PROPOSE_VALID_BLOCK <$> getRecord "n1" m1 in
  exists d1 d2 : double,
    delta1 = Some d1 /\ delta2 = Some d2 /\
    d1 = 0.0%float /\ d2 = 0.0%float /\ PrimFloat.ltb d2 d1 = false /\
    getReputation "n1" m0 = 0.5%float /\
    getReputation "n1" m1 = 0.5%float /\
    getReputation "n1" m2 = 0.5%float.
Proof.
  intros m0 m1 m2 delta1 delta2.
  assert (H0 : getReputation "n1" m0 = 0.5%float) by (vm_compute; reflexivity).
  assert (is_Some (getRecord "n1" m0)) as [r0 Hr0] by (vm_compute; eauto).
  assert (is_Some (getRecord "n1" m1)) as [r1 Hr1].
  { subst m1. unfold getRecord, recordEvent. unfold getRecord in Hr0. rewrite Hr0.
    destruct (applyEvent _ _ _). unfold updateScore. simpl.
    rewrite lookup_insert_eq. eauto. }
  exists 0.0%float, 0.0%float.
  subst delta1 delta2. rewrite Hr0, Hr1. simpl. rewrite !eventDelta_zero. simpl.
  subst m2 m1. rewrite !recordEvent_score. done.
Qed.

(** C7 (as the code has it).  Recording an event for a node that is
    not registered changes nothing: the manager is returned as it was
    and the node is still not registered. *)
Theorem recordEvent_unregistered_noop (nodeID : NodeID) (event : ReputationEvent)
    (now : simtime_t) (m : t) :
  isRegistered nodeID m = false ->
  recordEvent exp nodeID event now m = m /\
  isRegistered nodeID (recordEvent exp nodeID event now m) = false.
Proof.
  unfold isRegistered, recordEvent. destruct (records_ m !! nodeID) eqn:Hr; [done|].
  intros _. by rewrite Hr.
Qed.
End Reputation.

(** The numbers of the specification's marginal-decay scenario, computed
    by [getEffectiveWeight] for a weight (0.05, decay): the effective
    weight at reputation 0.5 exceeds the one at 0.5 plus that weight. *)
Example getEffectiveWeight_scenario :
  let w := EventWeight.mk 0.05%float true in
  let d1 := EventWeight.getEffectiveWeight w 0.5%float in
  let d2 := EventWeight.getEffectiveWeight w (0.5 + d1)%float in
  PrimFloat.ltb d2 d1 = true.
Proof. vm_compute. reflexivity. Qed.

(** C7 (witness): a timeout recorded for "ghost", which [Scenario.registry]
    does not know. *)
Lemma recordEvent_unregistered_noop_witness :
  VRMManager.recordEvent Scenario.exp_series "ghost" TIMEOUT 1 Scenario.registry
  = Scenario.registry /\
  VRMManager.isRegistered "ghost"
    (VRMManager.recordEvent Scenario.exp_series "ghost" TIMEOUT 1 Scenario.registry)
  = false.
Proof.
  apply (recordEvent_unregistered_noop Scenario.exp_series "ghost" TIMEOUT 1 Scenario.registry).
  reflexivity.
Defined.

(** C7 (counterexample).  After an event is recorded for the unknown
    node "ghost" the node is not registered and the registry still holds
    one record. *)
Lemma recordEvent_does_not_register :
  VRMManager.isRegistered "ghost" Scenario.registry = false /\
  VRMManager.isRegistered "ghost"
    (VRMManager.recordEvent Scenario.exp_series "ghost" TIMEOUT 1 Scenario.registry)
  = false /\
  size (VRMManager.records_
          (VRMManager.recordEvent Scenario.exp_series "ghost" TIMEOUT 1 Scenario.registry))
  = 1%nat.
Proof. vm_compute. repeat split; reflexivity. Qed.

(* ===================================================================== *)
(** ** The committee selector                                             *)
(* ===================================================================== *)

Section Committee.
Import VRFSelector.

(** Same arguments, same committee: the election is a function. *)
Lemma electConsensusGroup_deterministic (candidates rsuNodes : list NodeID)
    (groupSize redundantCount seed : Z) (s : t) (g1 g2 : ConsensusGroup.t) :
  fst (electConsensusGroup candidates rsuNodes groupSize redundantCount seed s) = g1 ->
  fst (electConsensusGroup candidates rsuNodes groupSize redundantCount seed s) = g2 ->
  g1 = g2.
Proof. congruence. Qed.

(** C4 (the code at every input).  The election returns the
    default-constructed committee, so two calls that differ in the seed
    alone return the same committee, and the VRF value of a node does
    not depend on the seed either. *)
Theorem electConsensusGroup_ignores_seed (candidates rsuNodes : list NodeID)
    (groupSize redundantCount seed1 seed2 : Z) (s : t) (nodeID : NodeID) :
  fst (electConsensusGroup candidates rsuNodes groupSize redundantCount seed1 s)
  = ConsensusGroup.ctor /\
  fst (electConsensusGroup candidates rsuNodes groupSize redundantCount seed1 s)
  = fst (electConsensusGroup candidates rsuNodes groupSize redundantCount seed2 s) /\
  calculateVRF nodeID seed1 s = calculateVRF nodeID seed2 s.
Proof. repeat split. Qed.

End Committee.

(* ===================================================================== *)
(** ** The header chain                                                   *)
(* ===================================================================== *)

Section HeaderChain.
Import LightweightSync.

Lemma uint64_small (z : Z) : 0 <= z < 2 ^ 64 -> uint64 z = z.
Proof. intros. unfold uint64. by apply Z.mod_small. Qed.

Lemma validateHeaderChain_genesis (header : BlockHeader.t) (s : t) :
  BlockHeader.height header = 0 -> validateHeaderChain header s = true.
Proof. unfold validateHeaderChain. by intros ->. Qed.

Lemma validateHeaderChain_iff (header : BlockHeader.t) (s : t) :
  0 < BlockHeader.height header < 2 ^ 64 ->
  validateHeaderChain header s = true <-> headers_ s = ∅ \/ chainsOn header s.
Proof.
  intros Hh. unfold validateHeaderChain, chainsOn, getHeader.
  destruct (Z.eqb_spec (BlockHeader.height header) 0) as [|_]; [lia|].
  rewrite uint64_small by lia.
  destruct (headers_ s !! (BlockHeader.height header - 1)) as [prevHeader|] eqn:Hprev.
  - destruct (String.eqb_spec (BlockHeader.previousHash header)
                              (BlockHeader.blockHash prevHeader)) as [Hhash|Hhash]; simpl.
    + destruct (Z.eqb_spec (BlockHeader.height header)
                           (uint64 (BlockHeader.height prevHeader + 1))) as [Hinc|Hinc]; simpl.
      * split; [|done]. intros _. right. by exists prevHeader.
      * split; [done|]. intros [Hempty|(p & Hp & _ & Hp')].
        -- rewrite Hempty, lookup_empty in Hprev. done.
        -- congruence.
    + split; [done|]. intros [Hempty|(p & Hp & Hp' & _)].
      * rewrite Hempty, lookup_empty in Hprev. done.
      * congruence.
  - destruct (Nat.eqb_spec (size (headers_ s)) 0) as [Hsize|Hsize].
    + split; [|done]. intros _. left. by apply map_size_empty_iff.
    + split; [done|]. intros [Hempty|(p & Hp & _)]; [|done].
      rewrite Hempty, map_size_empty in Hsize. done.
Qed.

(** C8 (as the code has it).  For a header whose height is a 64-bit
    value: above height 0 it is accepted exactly when the header store
    is empty or the header chains on the stored header one height
    below; at height 0 it is always accepted; an accepted header is
    stored under its height and the latest height is raised to it if
    it is larger, nothing else changes; a rejected header leaves the
    state as it was. *)
Theorem syncHeader_accepts_iff (header : BlockHeader.t) (s : t) :
  0 <= BlockHeader.height header < 2 ^ 64 ->
  (0 < BlockHeader.height header ->
     (fst (syncHeader header s) = true <-> headers_ s = ∅ \/ chainsOn header s)) /\
  (BlockHeader.height header = 0 -> fst (syncHeader header s) = true) /\
  (fst (syncHeader header s) = true ->
     snd (syncHeader header s)
     = mk (nodeRole_ s) (<[BlockHeader.height header := header]> (headers_ s))
          (Z.max (latestHeight_ s) (BlockHeader.height header))
          (fullBlocks_ s) (pendingRequests_ s) (logCallback_ s) (requestCallback_ s)) /\
  (fst (syncHeader header s) = false -> snd (syncHeader header s) = s).
Proof.
  intros Hrange. unfold syncHeader.
  destruct (validateHeaderChain header s) eqn:Hvalid; simpl.
  - repeat split; try done.
    + intros _. apply validateHeaderChain_iff; [lia|done].
    + intros _. do 2 f_equal.
      destruct (Z.ltb_spec (latestHeight_ s) (BlockHeader.height header)); lia.
  - repeat split; try done.
    + intros [Hempty|Hchain]; [|].
      all: assert (validateHeaderChain header s = true) as Hv
             by (apply validateHeaderChain_iff; [lia|tauto]).
      all: congruence.
    + intros Hzero. by rewrite validateHeaderChain_genesis in Hvalid.
Qed.
End HeaderChain.

(** C8 (witness): after header 5 opened the chain, header 6 is accepted
    because it chains on it. *)
Lemma syncHeader_accepts_iff_witness :
  let s := snd (LightweightSync.syncHeader Scenario.header5 Scenario.emptySync) in
  (0 < 6 ->
     (fst (LightweightSync.syncHeader Scenario.header6 s) = true <->
      LightweightSync.headers_ s = ∅ \/ chainsOn Scenario.header6 s)) /\
  (6 = 0 -> fst (LightweightSync.syncHeader Scenario.header6 s) = true) /\
  (fst (LightweightSync.syncHeader Scenario.header6 s) = true ->
     snd (LightweightSync.syncHeader Scenario.header6 s)
     = LightweightSync.mk
         (LightweightSync.nodeRole_ s) (<[6 := Scenario.header6]> (LightweightSync.headers_ s))
         (Z.max (LightweightSync.latestHeight_ s) 6)
         (LightweightSync.fullBlocks_ s) (LightweightSync.pendingRequests_ s)
         (LightweightSync.logCallback_ s) (LightweightSync.requestCallback_ s)) /\
  (fst (LightweightSync.syncHeader Scenario.header6 s) = false ->
     snd (LightweightSync.syncHeader Scenario.header6 s) = s).
Proof.
  apply (syncHeader_accepts_iff Scenario.header6
           (snd (LightweightSync.syncHeader Scenario.header5 Scenario.emptySync))).
  simpl. lia.
Defined.

(** C8 (counterexample).  On an empty header store a header of height 5
    is accepted although no header of height 4 is known; it is stored and
    becomes the latest height. *)
Lemma syncHeader_accepts_first_header :
  LightweightSync.getHeader 4 Scenario.emptySync = None /\
  fst (LightweightSync.syncHeader Scenario.header5 Scenario.emptySync) = true /\
  LightweightSync.getHeader 5
    (snd (LightweightSync.syncHeader Scenario.header5 Scenario.emptySync))
  = Some Scenario.header5 /\
  LightweightSync.latestHeight_
    (snd (LightweightSync.syncHeader Scenario.header5 Scenario.emptySync)) = 5.
Proof. vm_compute. repeat split; reflexivity. Qed.

(* ===================================================================== *)
(** ** The shard manager                                                  *)
(* ===================================================================== *)

Section Shards.
Import RegionalShardManager.

(** A loop over a list keeps what each of its steps keeps. *)
Lemma foldl_keeps {A B} (P : A -> Prop) (step : A -> B -> A) (l : list B) (a : A) :
  (forall acc x, P acc -> P (step acc x)) -> P a -> P (foldl step a l).
Proof. intros Hstep. revert a. induction l; simpl; auto. Qed.

(** [getShardForLocation] returns -1 or a shard that can accept a member. *)
Lemma getShardForLocation_spec (location : GeoCoord.t) (m : t) :
  getShardForLocation location m = -1 \/
  canAcceptMember (getShardForLocation location m) m = true.
Proof.
  unfold getShardForLocation.
  apply (foldl_keeps (fun acc => acc.1 = -1 \/ canAcceptMember acc.1 m = true)).
  - intros [best dist] [sid sh] Hacc. unfold bestShardStep.
    repeat case_match; simpl in *; auto.
  - by left.
Qed.

Lemma touchShard_present (sid : ShardID) (m : t) :
  is_Some (shards_ m !! sid) -> touchShard sid m = m.
Proof. unfold touchShard. by intros [sh ->]. Qed.

Lemma electLeader_lookup_ne (sid k : ShardID) (now : simtime_t) (m : t) :
  k <> sid -> shards_ (electLeader sid now m) !! k = shards_ m !! k.
Proof.
  intros Hne. unfold electLeader. destruct (shards_ m !! sid); [|done]. simpl.
  by rewrite lookup_alter_ne.
Qed.

Lemma electLeader_members (sid k : ShardID) (now : simtime_t) (m : t) :
  ShardInfo.members <$> shards_ (electLeader sid now m) !! k
  = ShardInfo.members <$> shards_ m !! k.
Proof.
  unfold electLeader. destruct (shards_ m !! sid) eqn:Hsid; [|done]. simpl.
  destruct (decide (sid = k)) as [->|Hne].
  - rewrite lookup_alter_eq, Hsid. done.
  - by rewrite lookup_alter_ne.
Qed.

(** [electLeader] changes nothing but the shard records. *)
Lemma electLeader_frame (sid : ShardID) (now : simtime_t) (m : t) :
  nodeShardMap_ (electLeader sid now m) = nodeShardMap_ m /\
  nextShardID_ (electLeader sid now m) = nextShardID_ m /\
  minShardSize_ (electLeader sid now m) = minShardSize_ m /\
  maxShardSize_ (electLeader sid now m) = maxShardSize_ m /\
  totalSplits_ (electLeader sid now m) = totalSplits_ m /\
  totalMerges_ (electLeader sid now m) = totalMerges_ m.
Proof. unfold electLeader. by destruct (shards_ m !! sid). Qed.

(** What a split leaves alone: every shard other than the one split and
    the one created, and the size bound. *)
Lemma splitShard_lookup_ne (sid k : ShardID) (now : simtime_t) (m : t) :
  k <> sid -> k <> nextShardID_ m ->
  shards_ (splitShard sid now m) !! k = shards_ m !! k /\
  maxShardSize_ (splitShard sid now m) = maxShardSize_ m.
Proof.
  intros Hsid Hnew. unfold splitShard.
  destruct (shards_ m !! sid) as [orig|]; [|done].
  destruct (_ <=? _); [done|]. unfold createShard. simpl.
  set (n := nextShardID_ m) in *.
  set (m1 := with_shards _ _).
  rewrite touchShard_present by (subst m1; simpl; rewrite lookup_insert_eq; eauto).
  match goal with |- context [foldl ?f m1 ?l] => set (m3 := foldl f m1 l) end.
  assert (Hm3 : shards_ m3 !! k = shards_ m !! k /\ maxShardSize_ m3 = maxShardSize_ m).
  { subst m3. apply (foldl_keeps
      (fun acc => shards_ acc !! k = shards_ m !! k /\ maxShardSize_ acc = maxShardSize_ m)).
    - intros acc nodeID [Hacc1 Hacc2]. simpl. by rewrite !lookup_alter_ne.
    - subst m1. simpl. by rewrite lookup_insert_ne. }
  destruct Hm3 as [Hm3 Hmax3].
  rewrite !electLeader_lookup_ne by done.
  destruct (electLeader_frame n now (electLeader sid now m3)) as (_ & _ & _ & -> & _).
  destruct (electLeader_frame sid now m3) as (_ & _ & _ & -> & _).
  done.
Qed.

(** [addNode] for a node that is not placed yet. *)
Lemma addNode_unplaced (nodeID : NodeID) (location : GeoCoord.t)
    (reputation : ReputationScore) (now : simtime_t) (m : t) :
  nodeShardMap_ m !! nodeID = None ->
  addNode nodeID location reputation now m
  = let m1 := with_nodeInfo (insert nodeID location) (insert nodeID reputation) m in
    let found := getShardForLocation location m1 in
    let chosen := if found =? -1 then createShard location now m1 else (found, m1) in
    (chosen.1, joinShard nodeID chosen.1 now chosen.2).
Proof. unfold addNode. intros ->. simpl. by destruct (_ =? _). Qed.

Lemma size_add_member (ms : gset NodeID) (nodeID : NodeID) :
  (size (ms ∪ {[nodeID]}) <= S (size ms))%nat.
Proof.
  rewrite size_union_alt.
  assert (size (({[nodeID]} : gset NodeID) ∖ ms) <= 1)%nat; [|lia].
  rewrite <- (size_singleton (C := gset NodeID) nodeID).
  apply subseteq_size, subseteq_difference_l. done.
Qed.

Lemma size_remove_member (ms : gset NodeID) (nodeID : NodeID) :
  (size ms <= S (size (ms ∖ {[nodeID]})))%nat.
Proof.
  assert (ms ⊆ (ms ∖ {[nodeID]}) ∪ {[nodeID]}) as Hsub.
  { intros x Hx. destruct (decide (x = nodeID)); set_solver. }
  apply subseteq_size in Hsub.
  pose proof (size_add_member (ms ∖ {[nodeID]}) nodeID). lia.
Qed.

(** Joining a shard other than [s] leaves [s] as it is, and splits
    nothing when the joined shard had room. *)
Lemma joinShard_frame (nodeID : NodeID) (shardID s : ShardID) (now : simtime_t)
    (m2 : t) (shard sh2 : ShardInfo.t) :
  shardID <> s ->
  shards_ m2 !! s = Some shard ->
  s < nextShardID_ m2 ->
  shards_ m2 !! shardID = Some sh2 ->
  shards_ (joinShard nodeID shardID now m2) !! s = Some shard /\
  maxShardSize_ (joinShard nodeID shardID now m2) = maxShardSize_ m2 /\
  (ShardInfo.getMemberCount sh2 < to_size_t (maxShardSize_ m2) ->
   totalSplits_ (joinShard nodeID shardID now m2) = totalSplits_ m2).
Proof.
  intros Hne Hs Hnext Hsh2. unfold joinShard.
  rewrite touchShard_present by eauto.
  set (m4 := with_nodeShardMap _ _).
  set (m5 := if string_empty _ then _ else _).
  assert (Hm5 : shards_ m5 !! s = Some shard /\
                maxShardSize_ m5 = maxShardSize_ m2 /\
                nextShardID_ m5 = nextShardID_ m2 /\
                totalSplits_ m5 = totalSplits_ m2 /\
                ShardInfo.members <$> shards_ m5 !! shardID
                = Some (ShardInfo.members sh2 ∪ {[nodeID]})).
  { assert (Hm4 : shards_ m4 !! s = Some shard /\
                  ShardInfo.members <$> shards_ m4 !! shardID
                  = Some (ShardInfo.members sh2 ∪ {[nodeID]})).
    { subst m4. simpl. rewrite lookup_alter_ne by done.
      rewrite lookup_alter_eq, Hsh2. done. }
    subst m5. destruct (string_empty _).
    - rewrite electLeader_lookup_ne by done. rewrite electLeader_members.
      destruct (electLeader_frame shardID now m4) as (_ & -> & _ & -> & -> & _).
      by destruct Hm4.
    - by destruct Hm4. }
  destruct Hm5 as (Hs5 & Hmax5 & Hnext5 & Hsplits5 & Hmem5).
  destruct (shouldSplitShard shardID m5) eqn:Hsplit; simpl.
  - destruct (splitShard_lookup_ne shardID s now m5) as [-> ->]; [done|lia|].
    split; [done|]. split; [done|]. intros Hroom. exfalso.
    unfold shouldSplitShard in Hsplit.
    apply fmap_Some in Hmem5 as (s5 & Hs5' & Hmem).
    rewrite Hs5' in Hsplit. apply Z.ltb_lt in Hsplit.
    unfold ShardInfo.getMemberCount in *. rewrite <- Hmem, Hmax5 in Hsplit.
    pose proof (size_add_member (ShardInfo.members sh2) nodeID). lia.
  - rewrite Z.add_0_r. done.
Qed.

Lemma to_size_t_count (shard : ShardInfo.t) (z : Z) :
  ShardInfo.getMemberCount shard = z -> int_range z -> to_size_t z = z.
Proof.
  unfold ShardInfo.getMemberCount, int_range, to_size_t. intros <- [_ Hlt].
  apply Z.mod_small. lia.
Qed.

(** The join half of C9. *)
Lemma addNode_full_shard (m : t) (s : ShardID) (shard : ShardInfo.t)
    (nodeID : NodeID) (location : GeoCoord.t) (reputation : ReputationScore)
    (now : simtime_t) :
  shards_ m !! s = Some shard ->
  ShardInfo.getMemberCount shard = maxShardSize_ m ->
  int_range (maxShardSize_ m) ->
  fresh_ids m ->
  nodeShardMap_ m !! nodeID = None ->
  let r := addNode nodeID location reputation now m in
  r.1 <> s /\
  shards_ r.2 !! s = Some shard /\
  shouldSplitShard s r.2 = false /\
  (1 <= maxShardSize_ m -> totalSplits_ r.2 = totalSplits_ m).
Proof.
  intros Hs Hfull Hrange Hfresh Hnew.
  pose proof (to_size_t_count _ _ Hfull Hrange) as Hmax.
  rewrite addNode_unplaced by done. cbv zeta.
  set (m1 := with_nodeInfo _ _ m).
  set (found := getShardForLocation location m1).
  set (chosen := if found =? -1 then _ else _).
  assert (Hchosen : chosen.1 <> s /\ shards_ chosen.2 !! s = Some shard /\
                    s < nextShardID_ chosen.2 /\
                    maxShardSize_ chosen.2 = maxShardSize_ m /\
                    totalSplits_ chosen.2 = totalSplits_ m /\
                    exists sh2, shards_ chosen.2 !! chosen.1 = Some sh2 /\
                      (1 <= maxShardSize_ m ->
                       ShardInfo.getMemberCount sh2 < to_size_t (maxShardSize_ m))).
  { assert (s < nextShardID_ m) as Hlt by (apply Hfresh; eauto).
    subst chosen. destruct (Z.eqb_spec found (-1)) as [Hminus|Hminus].
    - unfold createShard. simpl.
      split; [lia|]. rewrite lookup_insert_ne by lia.
      split; [done|]. split; [lia|]. split; [done|]. split; [done|].
      eexists. rewrite lookup_insert_eq. split; [done|].
      rewrite Hmax. unfold ShardInfo.getMemberCount. simpl ShardInfo.members.
      rewrite size_empty. lia.
    - destruct (getShardForLocation_spec location m1) as [|Hacc]; [done|].
      fold found in Hacc. unfold canAcceptMember in Hacc. simpl in *.
      destruct (shards_ m !! found) as [sh|] eqn:Hfound; [|done].
      apply Z.ltb_lt in Hacc.
      split; [|by eauto 10].
      intros ->. rewrite Hs in Hfound. injection Hfound as <-. lia. }
  destruct Hchosen as (Hne & Hs2 & Hnext & Hmax2 & Hsplits2 & sh2 & Hsh2 & Hroom).
  destruct (joinShard_frame nodeID chosen.1 s now chosen.2 shard sh2)
    as (Hs' & Hmax' & Hsplits'); [done..|].
  cbn [fst snd]. split; [done|]. split; [done|]. split.
  - unfold shouldSplitShard. rewrite Hs', Hmax', Hmax2, Hmax, Hfull.
    apply Z.ltb_irrefl.
  - intros Hpos. rewrite Hsplits', Hsplits2; [done|]. rewrite Hmax2. auto.
Qed.

(** The leave half of C9. *)
Lemma removeNode_full_shard (m : t) (s : ShardID) (shard : ShardInfo.t)
    (nodeID : NodeID) (now : simtime_t) :
  shards_ m !! s = Some shard ->
  ShardInfo.getMemberCount shard = maxShardSize_ m ->
  int_range (maxShardSize_ m) ->
  nodeShardMap_ m !! nodeID = Some s ->
  0 <= minShardSize_ m <= maxShardSize_ m - 1 ->
  let m' := removeNode nodeID now m in
  totalSplits_ m' = totalSplits_ m /\
  totalMerges_ m' = totalMerges_ m /\
  nextShardID_ m' = nextShardID_ m /\
  (forall k, k <> s -> shards_ m' !! k = shards_ m !! k) /\
  nodeShardMap_ m' = delete nodeID (nodeShardMap_ m) /\
  ShardInfo.members <$> shards_ m' !! s
  = (if (size (ShardInfo.members shard ∖ {[nodeID]}) =? 0)%nat then None
     else Some (ShardInfo.members shard ∖ {[nodeID]})) /\
  shouldMergeShard s m' = false /\
  shouldSplitShard s m' = false.
Proof.
  intros Hs Hfull Hrange Hplaced Hmin.
  pose proof (to_size_t_count _ _ Hfull Hrange) as Hmax.
  assert (to_size_t (minShardSize_ m) = minShardSize_ m) as Hmin'.
  { unfold to_size_t. apply Z.mod_small. unfold int_range in Hrange. lia. }
  unfold removeNode. rewrite Hplaced. rewrite touchShard_present by eauto.
  set (left := ShardInfo.members shard ∖ {[nodeID]}).
  set (m2 := with_shards _ m).
  set (m3 := if String.eqb _ _ then _ else _).
  assert (Hm3 : (forall k, k <> s -> shards_ m3 !! k = shards_ m !! k) /\
                ShardInfo.members <$> shards_ m3 !! s = Some left /\
                nodeShardMap_ m3 = nodeShardMap_ m /\
                nextShardID_ m3 = nextShardID_ m /\
                minShardSize_ m3 = minShardSize_ m /\
                maxShardSize_ m3 = maxShardSize_ m /\
                totalSplits_ m3 = totalSplits_ m /\
                totalMerges_ m3 = totalMerges_ m).
  { assert (Hm2 : (forall k, k <> s -> shards_ m2 !! k = shards_ m !! k) /\
                  ShardInfo.members <$> shards_ m2 !! s = Some left).
    { subst m2. simpl. split.
      - intros k Hk. by rewrite lookup_alter_ne.
      - rewrite lookup_alter_eq, Hs. done. }
    destruct Hm2 as [Hm2 Hleft2].
    subst m3. destruct (String.eqb _ _); [|done].
    set (m' := with_shards (alter (set_leader "") s) m2).
    assert (Hm' : (forall k, k <> s -> shards_ m' !! k = shards_ m !! k) /\
                  ShardInfo.members <$> shards_ m' !! s = Some left).
    { change (shards_ m') with (alter (set_leader "") s (shards_ m2)). split.
      - intros k Hk. rewrite lookup_alter_ne by done. by apply Hm2.
      - rewrite lookup_alter_eq. destruct (shards_ m2 !! s); [|done].
        simpl in *. done. }
    destruct Hm' as [Hm' Hleft'].
    destruct (negb _); [|done].
    rewrite electLeader_members.
    destruct (electLeader_frame s now m') as (-> & -> & -> & -> & -> & ->).
    split; [|done]. intros k Hk. rewrite electLeader_lookup_ne by done. by apply Hm'. }
  destruct Hm3 as (Hother & Hleft & Hmap & Hnext & Hmin3 & Hmax3 & Hsplits & Hmerges).
  apply fmap_Some in Hleft as (sh3 & Hsh3 & Hmem3).
  set (m4 := with_nodeInfo _ _ _).
  assert (Hat : shardAt s m4 = sh3) by (unfold shardAt; subst m4; simpl; by rewrite Hsh3).
  rewrite Hat, <- Hmem3.
  pose proof (size_remove_member (ShardInfo.members shard) nodeID) as Hsize.
  assert (size left <= size (ShardInfo.members shard))%nat as Hsize'
    by (apply subseteq_size, subseteq_difference_l; done).
  fold left in Hsize. unfold ShardInfo.getMemberCount in Hfull.
  destruct (Nat.eqb_spec (size left) 0) as [Hzero|Hzero].
  - cbn [totalSplits_ totalMerges_ nextShardID_ shards_ nodeShardMap_ count with_shards
         with_nodeInfo with_nodeShardMap m4].
    rewrite !Z.add_0_r, Hmap, lookup_delete_eq.
    unfold shouldMergeShard, shouldSplitShard. simpl. rewrite lookup_delete_eq.
    repeat split; try done.
    intros k Hk. rewrite lookup_delete_ne by done. by apply Hother.
  - assert (shouldMergeShard s m4 = false) as Hmerge.
    { unfold shouldMergeShard. subst m4. simpl. rewrite Hsh3, Hmin3, Hmin'.
      apply Z.ltb_ge. unfold ShardInfo.getMemberCount. rewrite <- Hmem3. lia. }
    rewrite Hmerge.
    assert (shouldSplitShard s m4 = false) as Hsplit.
    { unfold shouldSplitShard. subst m4. simpl. rewrite Hsh3, Hmax3, Hmax.
      apply Z.ltb_ge. unfold ShardInfo.getMemberCount. rewrite <- Hmem3. lia. }
    change (shouldMergeShard s (count 0 1 0 0 m4)) with (shouldMergeShard s m4).
    change (shouldSplitShard s (count 0 1 0 0 m4)) with (shouldSplitShard s m4).
    rewrite Hmerge, Hsplit.
    cbn [totalSplits_ totalMerges_ nextShardID_ shards_ nodeShardMap_ count with_shards
         with_nodeInfo with_nodeShardMap m4].
    rewrite !Z.add_0_r, Hmap, Hsh3. simpl.
    repeat split; try done. by rewrite Hmem3.
Qed.

(** C10.  For a node that is already assigned to a shard, [addNode]
    returns that shard's id and the manager unchanged, whatever the
    location and the reputation passed. *)
Theorem addNode_placed_is_noop (nodeID : NodeID) (shardID : ShardID)
    (location : GeoCoord.t) (reputation : ReputationScore) (now : simtime_t) (m : t) :
  nodeShardMap_ m !! nodeID = Some shardID ->
  addNode nodeID location reputation now m = (shardID, m).
Proof. unfold addNode. by intros ->. Qed.
End Shards.

Lemma fullShard_shards :
  RegionalShardManager.shards_ Scenario.fullShard = {[0 := Scenario.shard0]}.
Proof. vm_compute. reflexivity. Qed.

Lemma fullShard_fresh_ids : fresh_ids Scenario.fullShard.
Proof.
  intros k [sh Hk]. rewrite fullShard_shards in Hk.
  apply lookup_singleton_Some in Hk as [<- _]. reflexivity.
Qed.

(** C9 (counterexample).  Shard 0 of [Scenario.fullShard] holds exactly
    [maxShardSize_] = 2 members and contains the origin.  Adding "c" at
    the origin returns shard 1, a new shard that holds "c" alone; shard
    0 still holds "a" and "b", does not meet the split condition, and no
    split has been counted. *)
Lemma addNode_full_shard_no_split :
  let r := RegionalShardManager.addNode "c" Scenario.origin 0.5%float 1 Scenario.fullShard in
  ShardInfo.getMemberCount Scenario.shard0
  = RegionalShardManager.maxShardSize_ Scenario.fullShard /\
  ShardInfo.contains Scenario.shard0 Scenario.origin = true /\
  r.1 = 1 /\
  set_in_order (ShardInfo.members (RegionalShardManager.shardAt 0 r.2)) = ["a"; "b"] /\
  set_in_order (ShardInfo.members (RegionalShardManager.shardAt 1 r.2)) = ["c"] /\
  RegionalShardManager.shouldSplitShard 0 r.2 = false /\
  RegionalShardManager.totalSplits_ r.2 = 0.
Proof. vm_compute. repeat split; reflexivity. Qed.

(** C10 (witness): "a" is in shard 0; adding it again far away and with
    another reputation returns 0 and the same manager. *)
Lemma addNode_placed_is_noop_witness :
  RegionalShardManager.addNode "a" Scenario.farAway 0.9%float 5 Scenario.fullShard
  = (0, Scenario.fullShard).
Proof.
  apply (addNode_placed_is_noop "a" 0 Scenario.farAway 0.9%float 5 Scenario.fullShard).
  vm_compute. reflexivity.
Defined.

(* ===================================================================== *)
(** ** The consensus engine: rounds, timeouts and certificates            *)
(* ===================================================================== *)

Section EngineRounds.
Import HotStuffEngine.

Variable show_uint64 : Z -> string.
Variable show_time : simtime_t -> string.
Variable show_time6 : simtime_t -> string.

Lemma canPropose_iff (e : t) :
  canPropose e = true <-> currentPhase_ e = IDLE /\ hasActiveProposal_ e = false.
Proof.
  unfold canPropose. rewrite andb_true_iff, bool_decide_eq_true, negb_true_iff. done.
Qed.

Lemma append_separator_nonempty (a b : string) : a +:+ "_" +:+ b <> "".
Proof. by destruct a. Qed.

(** X1.  [proposeBlock] succeeds exactly when the engine is idle without
    an active proposal and the transaction list is not empty.  A refused
    call changes nothing and emits nothing; after a successful call every
    further call is refused. *)
Theorem proposeBlock_once (transactions : list Transaction.t) (now : simtime_t) (e : t) :
  let r := proposeBlock show_uint64 show_time show_time6 transactions now e in
  (r.1.1.1 = true <-> canPropose e = true /\ transactions <> []) /\
  (r.1.1.1 = false -> r = (false, e, [], [])) /\
  (r.1.1.1 = true ->
     forall transactions' now',
       proposeBlock show_uint64 show_time show_time6 transactions' now' r.1.1.2
       = (false, r.1.1.2, [], [])).
Proof.
  unfold proposeBlock. destruct (canPropose e) eqn:Hcan; simpl.
  - destruct transactions as [|tx txs]; simpl.
    + split; [split; [done|by intros [_ ?]]|]. split; done.
    + split; [done|]. split; [done|]. intros _ transactions' now'.
      unfold proposeBlock, canPropose. simpl. done.
  - split; [split; [done|by intros [? _]]|]. split; done.
Qed.

(** The proposal that a successful [proposeBlock] publishes. *)
Lemma proposeBlock_proposal (transactions : list Transaction.t) (now : simtime_t) (e : t) :
  canPropose e = true -> transactions <> [] ->
  let r := proposeBlock show_uint64 show_time show_time6 transactions now e in
  let p := currentProposal_ r.1.1.2 in
  r.1.1.1 = true /\
  hasActiveProposal_ r.1.1.2 = true /\ currentPhase_ r.1.1.2 = PREPARE /\
  ConsensusProposal.proposalID p <> "" /\
  ConsensusProposal.blockHash p <> "" /\
  ConsensusProposal.blockHeight p = uint64 (currentHeight_ e + 1) /\
  ConsensusProposal.viewNumber p = currentView_ e /\
  ConsensusProposal.leaderID p = nodeID_ e /\
  ConsensusProposal.shardID p = shardID_ e /\
  ConsensusProposal.transactions p = transactions /\
  (proposalCallback_ e = true -> r.1.2 = [p]).
Proof.
  intros Hcan Htx. unfold proposeBlock. rewrite Hcan. simpl.
  destruct transactions as [|tx txs]; [done|]. simpl.
  repeat split; try done.
  - unfold generateProposalID. apply append_separator_nonempty.
  - apply append_separator_nonempty.
  - by intros ->.
Qed.

(** X2.  A replica at the leader's height whose view is not ahead of
    the leader's validates the proposal published by a successful
    [proposeBlock] exactly when every transaction of the block has a
    non-empty id and a non-empty sender. *)
Theorem proposeBlock_validated_by_replica (transactions : list Transaction.t)
    (now : simtime_t) (leader replica : t) :
  canPropose leader = true ->
  transactions <> [] ->
  currentHeight_ replica = currentHeight_ leader ->
  currentView_ replica <= currentView_ leader ->
  let r := proposeBlock show_uint64 show_time show_time6 transactions now leader in
  validateProposal (currentProposal_ r.1.1.2) replica = true
  <-> Forall wellFormedTx transactions.
Proof.
  intros Hcan Htx Hheight Hview r.
  destruct (proposeBlock_proposal transactions now leader Hcan Htx)
    as (_ & _ & _ & Hid & Hhash & Hh & Hv & _ & _ & Htxs & _).
  fold r in Hid, Hhash, Hh, Hv, Htxs.
  rewrite validateProposal_iff, Htxs, Hh, Hv, Hheight. split.
  - by intros (_ & _ & _ & _ & _ & ?).
  - intros Hall. repeat split; try done.
Qed.

(** X3.  A timeout while a proposal is active returns the engine to
    IDLE without an active proposal, empties the vote store and the
    phase certificates and counts one failed consensus; height, view and
    committed blocks are kept, and the engine can propose again.  Without
    an active proposal the timeout changes nothing. *)
Theorem handleTimeout_resets (e : t) :
  (hasActiveProposal_ e = true ->
     let e' := handleTimeout e in
     currentPhase_ e' = IDLE /\ hasActiveProposal_ e' = false /\
     voteStore_ e' = ∅ /\ phaseQCs_ e' = ∅ /\
     ConsensusMetrics.failedConsensus (metrics_ e')
     = ConsensusMetrics.failedConsensus (metrics_ e) + 1 /\
     currentHeight_ e' = currentHeight_ e /\ currentView_ e' = currentView_ e /\
     committedBlocks_ e' = committedBlocks_ e /\
     canPropose e' = true) /\
  (hasActiveProposal_ e = false -> handleTimeout e = e).
Proof. unfold handleTimeout. split; intros ->; done. Qed.

(** X4.  [handlePhaseAdvance] changes the engine only when the id is the
    current proposal's and the move is PREPARE to PRE_COMMIT or PRE_COMMIT
    to COMMIT; then only the phase changes and one approving vote for the
    new phase is sent.  In every other case the engine is unchanged and
    nothing is sent. *)
Theorem handlePhaseAdvance_successor_only (proposalID : string) (toPhase : ConsensusPhase)
    (now : simtime_t) (e : t) :
  let legal :=
    proposalID = ConsensusProposal.proposalID (currentProposal_ e) /\
    ((currentPhase_ e = PREPARE /\ toPhase = PRE_COMMIT) \/
     (currentPhase_ e = PRE_COMMIT /\ toPhase = COMMIT)) in
  let r := handlePhaseAdvance proposalID toPhase now e in
  (legal ->
     r.1 = set_round toPhase (currentView_ e) (currentHeight_ e) (currentProposal_ e)
                     (hasActiveProposal_ e) (consensusStartTime_ e) e /\
     r.2 = sendVote (currentProposal_ e) toPhase true now e) /\
  (~ legal -> r = (e, [])).
Proof.
  unfold handlePhaseAdvance.
  destruct (String.eqb_spec proposalID (ConsensusProposal.proposalID (currentProposal_ e)))
    as [Hid|Hid]; simpl.
  - destruct (currentPhase_ e) eqn:Hphase; simpl.
    + split; [intros (_ & [[? _]|[? _]]); done|done].
    + case_bool_decide as Hto; simpl.
      * split; [done|]. intros Hillegal. exfalso. apply Hillegal. auto.
      * split; [intros (_ & [[_ ?]|[? _]]); done|done].
    + case_bool_decide as Hto; simpl.
      * split; [done|]. intros Hillegal. exfalso. apply Hillegal. auto.
      * split; [intros (_ & [[? _]|[_ ?]]); done|done].
    + split; [intros (_ & [[? _]|[? _]]); done|done].
  - split; [by intros [? _]|done].
Qed.

(** X5.  [syncToHeight] only ever raises the height: the height after
    it is the larger of the old height and the argument, and two
    synchronisations amount to one to the larger height. *)
Theorem syncToHeight_max (a b : BlockHeight) (e : t) :
  currentHeight_ (syncToHeight a e) = Z.max (currentHeight_ e) a /\
  syncToHeight a (syncToHeight b e) = syncToHeight (Z.max a b) e.
Proof.
  unfold syncToHeight. split.
  - destruct (Z.ltb_spec (currentHeight_ e) a); simpl; lia.
  - destruct (Z.ltb_spec (currentHeight_ e) b) as [Hb|Hb]; simpl.
    + destruct (Z.ltb_spec b a) as [Hab|Hab].
      * rewrite Z.max_l by lia.
        destruct (Z.ltb_spec (currentHeight_ e) a); [done|lia].
      * rewrite Z.max_r by lia.
        destruct (Z.ltb_spec (currentHeight_ e) b); [done|lia].
    + destruct (Z.ltb_spec (currentHeight_ e) a) as [Ha|Ha].
      * rewrite Z.max_l by lia.
        destruct (Z.ltb_spec (currentHeight_ e) a); [done|lia].
      * destruct (Z.ltb_spec (currentHeight_ e) (Z.max a b)); [lia|done].
Qed.

Lemma handleVote_keeps_round (v : VoteInfo.t) (e : t) :
  currentPhase_ (handleVote v e) = currentPhase_ e /\
  currentHeight_ (handleVote v e) = currentHeight_ e /\
  currentView_ (handleVote v e) = currentView_ e /\
  hasActiveProposal_ (handleVote v e) = hasActiveProposal_ e /\
  currentProposal_ (handleVote v e) = currentProposal_ e /\
  committedBlocks_ (handleVote v e) = committedBlocks_ e /\
  highestQC_ (handleVote v e) = highestQC_ e.
Proof.
  unfold handleVote, hasQuorum, advancePhase. by repeat case_match.
Qed.

(** X6.  No sequence of votes moves the engine on: after [handleVote] has
    processed any list of votes the phase, the height, the view, the
    active proposal, the committed blocks and the highest certificate are
    what they were. *)
Theorem handleVotes_never_advance (votes : list VoteInfo.t) (e : t) :
  currentPhase_ (handleVotes votes e) = currentPhase_ e /\
  currentHeight_ (handleVotes votes e) = currentHeight_ e /\
  currentView_ (handleVotes votes e) = currentView_ e /\
  hasActiveProposal_ (handleVotes votes e) = hasActiveProposal_ e /\
  currentProposal_ (handleVotes votes e) = currentProposal_ e /\
  committedBlocks_ (handleVotes votes e) = committedBlocks_ e /\
  highestQC_ (handleVotes votes e) = highestQC_ e.
Proof.
  revert e. induction votes as [|v votes IH]; intros e; [done|].
  unfold handleVotes. simpl. fold (handleVotes votes (handleVote v e)).
  destruct (IH (handleVote v e)) as (-> & -> & -> & -> & -> & -> & ->).
  apply handleVote_keeps_round.
Qed.

(** X7.  The certificate that [createQC] builds carries the votes stored
    for the proposal and the phase, but its vote total is 0: it is not
    valid for the engine's quorum size, nor for any positive quorum size,
    however many votes are stored. *)
Theorem createQC_never_valid (proposalID : string) (phase : ConsensusPhase)
    (quorumSize : Z) (e : t) :
  QuorumCertificate.votes (createQC proposalID phase e)
  = storedVotes proposalID phase e /\
  QuorumCertificate.isValid (createQC proposalID phase e) (getQuorumSize e) = false /\
  (QuorumCertificate.isValid (createQC proposalID phase e) quorumSize = true
   <-> quorumSize <= 0).
Proof.
  unfold createQC, storedVotes, QuorumCertificate.isValid. simpl.
  split; [|split; [done|apply Z.leb_le]].
  destruct (voteStore_ e !! proposalID) as [byPhase|]; simpl; [|done].
  by destruct (byPhase !! phase).
Qed.
End EngineRounds.

(** X2 (witness): the leader "n1" proposes a block with one well-formed
    transaction; the replica "n2" is at the same height and view. *)
Lemma proposeBlock_validated_by_replica_witness :
  let r :=
    HotStuffEngine.proposeBlock Scenario.show_decimal Scenario.show_ticks
      Scenario.show_ticks [Scenario.tx1] 0 Scenario.leader in
  HotStuffEngine.validateProposal
    (HotStuffEngine.currentProposal_ r.1.1.2) Scenario.replica = true
  <-> Forall wellFormedTx [Scenario.tx1].
Proof.
  apply (proposeBlock_validated_by_replica Scenario.show_decimal Scenario.show_ticks
           Scenario.show_ticks [Scenario.tx1] 0 Scenario.leader Scenario.replica).
  - reflexivity.
  - discriminate.
  - reflexivity.
  - vm_compute. discriminate.
Defined.

(* ===================================================================== *)
(** ** The reputation manager: registration, decay and history            *)
(* ===================================================================== *)

Section Registry.
Import VRMManager.

Variable exp : double -> double.

Lemma clampReputation_bounds (score : ReputationScore) :
  PrimFloat.ltb (clampReputation score) Constants.MIN_REPUTATION = false /\
  PrimFloat.ltb Constants.MAX_REPUTATION (clampReputation score) = false.
Proof.
  unfold clampReputation.
  destruct (PrimFloat.ltb score Constants.MIN_REPUTATION) eqn:Hlow.
  - split; reflexivity.
  - destruct (PrimFloat.ltb Constants.MAX_REPUTATION score) eqn:Hhigh.
    + split; reflexivity.
    + done.
Qed.

(** X8.  [clampReputation] never returns a score that compares below 0
    or above 1, and clamping twice is clamping once. *)
Theorem clampReputation_range (score : ReputationScore) :
  PrimFloat.ltb (clampReputation score) Constants.MIN_REPUTATION = false /\
  PrimFloat.ltb Constants.MAX_REPUTATION (clampReputation score) = false /\
  clampReputation (clampReputation score) = clampReputation score.
Proof.
  destruct (clampReputation_bounds score) as [Hlow Hhigh].
  split; [exact Hlow|]. split; [exact Hhigh|].
  unfold clampReputation at 1. by rewrite Hlow, Hhigh.
Qed.

(** X9.  The first registration of a node wins: registering the node
    again, with any score and at any time, changes nothing.  A node
    registered for the first time is registered with the clamped score. *)
Theorem registerNode_first_wins (nodeID : NodeID) (s1 s2 : ReputationScore)
    (now1 now2 : simtime_t) (m : t) :
  registerNode nodeID s2 now2 (registerNode nodeID s1 now1 m)
  = registerNode nodeID s1 now1 m /\
  isRegistered nodeID (registerNode nodeID s1 now1 m) = true /\
  (isRegistered nodeID m = false ->
   getReputation nodeID (registerNode nodeID s1 now1 m) = clampReputation s1).
Proof.
  unfold registerNode, isRegistered, getReputation.
  destruct (records_ m !! nodeID) as [r|] eqn:Hr.
  - rewrite Hr. done.
  - simpl. rewrite lookup_insert_eq. done.
Qed.

(** X10.  Registering a node that was not registered and unregistering
    it again gives back the registry as it was. *)
Theorem unregisterNode_registerNode (nodeID : NodeID) (score : ReputationScore)
    (now : simtime_t) (m : t) :
  isRegistered nodeID m = false ->
  unregisterNode nodeID (registerNode nodeID score now m) = m.
Proof.
  unfold isRegistered, unregisterNode, registerNode.
  destruct (records_ m !! nodeID) eqn:Hr; [done|]. intros _. simpl.
  rewrite lookup_insert_eq. simpl. rewrite delete_insert_id by done. by destruct m.
Qed.

(** The record stored for a node after [recordEvent]. *)
Lemma recordEvent_lookup (nodeID n : NodeID) (event : ReputationEvent)
    (now : simtime_t) (m : t) :
  records_ (recordEvent exp nodeID event now m) !! n
  = match records_ m !! nodeID with
    | Some r =>
      if decide (nodeID = n) then
        Some (snd (applyEvent event 0.0%float
                (ReputationRecord.mk
                   (ReputationRecord.nodeID r) (ReputationRecord.globalReputation r)
                   (ReputationRecord.localPerformance r)
                   (ReputationRecord.localInteractionCount r) (ReputationRecord.score r)
                   (ReputationRecord.successfulTx r) (ReputationRecord.failedTx r)
                   (ReputationRecord.validProposals r) (ReputationRecord.totalProposals r)
                   (ReputationRecord.correctVotes r) (ReputationRecord.totalVotes r)
                   now (ReputationRecord.recentEvents r ++ [event]))))
      else records_ m !! n
    | None => records_ m !! n
    end.
Proof.
  unfold recordEvent. destruct (records_ m !! nodeID) as [r|] eqn:Hr; [|done].
  unfold getEventWeight, EventWeight.getEffectiveWeight. cbn [EventWeight.useMarginalDecay
    EventWeight.baseWeight].
  destruct (applyEvent _ _ _) as [delta record'] eqn:Happly.
  unfold updateScore. cbn [records_]. rewrite lookup_insert. by case_decide.
Qed.

Lemma recordOk_applyEvent (n : NodeID) (event : ReputationEvent) (alpha : double)
    (r : ReputationRecord.t) :
  recordOk n r -> recordOk n (snd (applyEvent event alpha r)).
Proof.
  unfold recordOk. intros (? & ? & ? & ? & ? & ? & ? & ? & ? & ?).
  destruct event; simpl; repeat split; try done; lia.
Qed.

(** The invariant of the records holds in every registry that the
    manager's operations build. *)
Lemma reachable_recordOk (m : t) :
  RegistryReachable exp m ->
  forall nodeID r, records_ m !! nodeID = Some r -> recordOk nodeID r.
Proof.
  induction 1 as [|m _ _|n0 s now m _ IH|n0 m _ IH|n0 event now m _ IH
                  |now m _ IH|maxEvents m _ IH]; intros n r Hr.
  - done.
  - done.
  - unfold registerNode in Hr. destruct (records_ m !! n0) eqn:Hn0; [by eapply IH|].
    simpl in Hr. apply lookup_insert_Some in Hr as [[<- <-]|[_ Hr]]; [|by eapply IH].
    unfold recordOk. simpl.
    destruct (clampReputation_bounds s) as (H1 & H2). repeat split; try done.
  - unfold unregisterNode in Hr. destruct (records_ m !! n0) eqn:Hn0; [|by eapply IH].
    simpl in Hr. apply lookup_delete_Some in Hr as [_ Hr]. by eapply IH.
  - rewrite recordEvent_lookup in Hr.
    destruct (records_ m !! n0) as [r0|] eqn:Hn0; [|by eapply IH].
    case_decide as Heq; [|by eapply IH]. subst n0. injection Hr as <-.
    apply recordOk_applyEvent. by apply (IH n r0).
  - unfold applyDecay in Hr. simpl in Hr. rewrite lookup_fmap in Hr.
    destruct (records_ m !! n) as [r0|] eqn:Hn; [|done]. injection Hr as <-.
    destruct (IH n r0 Hn) as (? & ? & ? & ? & ? & ? & ? & ? & ? & ?).
    unfold recordOk, decayRecord. simpl.
    match goal with |- context [clampReputation ?x] =>
      destruct (clampReputation_bounds x) as (H1' & H2') end.
    repeat split; try done; lia.
  - unfold cleanupHistory in Hr. simpl in Hr. rewrite lookup_fmap in Hr.
    destruct (records_ m !! n) as [r0|] eqn:Hn; [|done]. injection Hr as <-.
    by apply (IH n r0).
Qed.

(** X11.  In every registry that the manager's operations build from the
    constructor, each record is stored under its own node id, its score
    compares neither below 0 nor above 1, its global and local components
    are 0.5 with an interaction count of 0, and its counters satisfy
    0 <= valid <= total proposals, 0 <= correct <= total votes. *)
Theorem registry_invariant (m : t) (nodeID : NodeID) (r : ReputationRecord.t) :
  RegistryReachable exp m ->
  records_ m !! nodeID = Some r ->
  recordOk nodeID r.
Proof. intros Hreach. by apply reachable_recordOk. Qed.

(** X12.  Provided [exp(-0.0)] is 1, as it is for [std::exp], no node of
    a registry built by the manager's operations is ever rated reliable:
    the final reputation of every record is 0.5, below the 0.8 of the
    trusted tier. *)
Theorem isReliable_never (m : t) (nodeID : NodeID) :
  exp (-0.0)%float = 1.0%float ->
  RegistryReachable exp m ->
  isReliable exp nodeID m = false.
Proof.
  intros Hexp Hreach. unfold isReliable.
  destruct (records_ m !! nodeID) as [r|] eqn:Hr; [|done].
  destruct (reachable_recordOk m Hreach nodeID r Hr) as (_ & _ & _ & Hg & Hl & Hc & _).
  unfold ReputationRecord.isReliable, ReputationRecord.getFinalReputation.
  rewrite Hg, Hl, Hc.
  set (arg := (_ * double_of_int 0)%float).
  assert (arg = (-0.0)%float) as -> by reflexivity.
  rewrite Hexp. reflexivity.
Qed.

(** X13.  [applyDecay] keeps the set of registered nodes, and afterwards
    every score compares neither below 0 nor above 1, whatever it was
    before. *)
Theorem applyDecay_range (now : simtime_t) (m : t) (nodeID : NodeID) :
  isRegistered nodeID (applyDecay now m) = isRegistered nodeID m /\
  PrimFloat.ltb (getReputation nodeID (applyDecay now m)) Constants.MIN_REPUTATION = false /\
  PrimFloat.ltb Constants.MAX_REPUTATION (getReputation nodeID (applyDecay now m)) = false.
Proof.
  unfold isRegistered, getReputation, applyDecay. simpl. rewrite lookup_fmap.
  destruct (records_ m !! nodeID) as [r|]; simpl.
  - match goal with |- context [clampReputation ?x] =>
      destruct (clampReputation_bounds x) as (H1 & H2) end.
    done.
  - repeat split; reflexivity.
Qed.

Lemma trimEvents_spec (maxEventsPerNode : Z) (events : list ReputationEvent) :
  0 <= maxEventsPerNode < 2 ^ 31 ->
  Z.of_nat (length events) < 2 ^ 64 ->
  trimEvents maxEventsPerNode events
  = drop (length events - Z.to_nat maxEventsPerNode) events.
Proof.
  intros Hmax Hlen. unfold trimEvents.
  assert (to_size_t maxEventsPerNode = maxEventsPerNode) as ->.
  { unfold to_size_t. apply Z.mod_small. lia. }
  destruct (Z.ltb_spec maxEventsPerNode (Z.of_nat (length events))) as [Hlt|Hge].
  - unfold uint64. rewrite Z.mod_small by lia. f_equal. lia.
  - replace (length events - Z.to_nat maxEventsPerNode)%nat with 0%nat by lia. done.
Qed.

(** X14.  For a non-negative bound, [cleanupHistory] leaves in every
    history its most recent events, at most as many as the bound, and
    changes neither the registered nodes nor their scores. *)
Theorem cleanupHistory_keeps_recent (maxEventsPerNode : Z) (m : t)
    (nodeID : NodeID) (r : ReputationRecord.t) :
  0 <= maxEventsPerNode < 2 ^ 31 ->
  records_ m !! nodeID = Some r ->
  Z.of_nat (length (ReputationRecord.recentEvents r)) < 2 ^ 64 ->
  exists r',
    records_ (cleanupHistory maxEventsPerNode m) !! nodeID = Some r' /\
    ReputationRecord.recentEvents r'
    = drop (length (ReputationRecord.recentEvents r) - Z.to_nat maxEventsPerNode)
           (ReputationRecord.recentEvents r) /\
    length (ReputationRecord.recentEvents r')
    = Nat.min (length (ReputationRecord.recentEvents r)) (Z.to_nat maxEventsPerNode) /\
    ReputationRecord.score r' = ReputationRecord.score r.
Proof.
  intros Hmax Hr Hlen. unfold cleanupHistory. simpl. rewrite lookup_fmap, Hr. simpl.
  eexists. split; [done|]. simpl. rewrite trimEvents_spec by done.
  split; [done|]. split; [|done]. rewrite length_drop. lia.
Qed.

(** X15.  [updateForConsensusSuccess] appends to the history of every
    registered node one SUCCESSFUL_CONSENSUS event for each time the node
    occurs among the participants and keeps its score; participants that
    are not registered are skipped and stay unregistered. *)
Theorem updateForConsensusSuccess_history (participants : list NodeID)
    (now : simtime_t) (m : t) (nodeID : NodeID) :
  match records_ m !! nodeID with
  | Some r =>
    exists r',
      records_ (updateForConsensusSuccess exp participants now m) !! nodeID = Some r' /\
      ReputationRecord.recentEvents r'
      = ReputationRecord.recentEvents r
        ++ replicate (occurrences nodeID participants) SUCCESSFUL_CONSENSUS /\
      ReputationRecord.score r' = ReputationRecord.score r
  | None =>
    records_ (updateForConsensusSuccess exp participants now m) !! nodeID = None
  end.
Proof.
  revert m. induction participants as [|p ps IH]; intros m.
  - simpl. destruct (records_ m !! nodeID) as [r|]; [|done].
    exists r. by rewrite app_nil_r.
  - unfold updateForConsensusSuccess. simpl.
    fold (updateForConsensusSuccess exp ps now
            (recordEvent exp p SUCCESSFUL_CONSENSUS now m)).
    specialize (IH (recordEvent exp p SUCCESSFUL_CONSENSUS now m)).
    rewrite recordEvent_lookup in IH. unfold occurrences. simpl.
    destruct (records_ m !! p) as [rp|] eqn:Hp.
    + destruct (decide (p = nodeID)) as [->|Hne].
      * rewrite Hp. rewrite String.eqb_refl. simpl in *.
        destruct IH as (r' & Hr' & Hev & Hsc). exists r'. split; [done|].
        split; [|done]. rewrite Hev. by rewrite <- app_assoc.
      * apply String.eqb_neq in Hne as Hne'. rewrite String.eqb_sym, Hne'. exact IH.
    + destruct (String.eqb_spec nodeID p) as [->|Hne]; [|exact IH].
      rewrite Hp in IH |- *. exact IH.
Qed.
End Registry.

(** X10 (witness): "ghost" is not registered in [Scenario.registry]. *)
Lemma unregisterNode_registerNode_witness :
  VRMManager.unregisterNode "ghost"
    (VRMManager.registerNode "ghost" 0.9%float 3 Scenario.registry)
  = Scenario.registry.
Proof.
  apply (unregisterNode_registerNode "ghost" 0.9%float 3 Scenario.registry).
  reflexivity.
Defined.

(** X11 (witness): the record of "n1" in the registry of the scenario
    after a valid proposal of "n1" and a decay tick. *)
Lemma registry_invariant_witness :
  exists r,
    VRMManager.records_
      (VRMManager.applyDecay 2
         (VRMManager.recordEvent Scenario.exp_series "n1" PROPOSE_VALID_BLOCK 1
            Scenario.registry)) !! "n1" = Some r /\
    recordOk "n1" r.
Proof.
  assert (is_Some
            (VRMManager.records_
               (VRMManager.applyDecay 2
                  (VRMManager.recordEvent Scenario.exp_series "n1" PROPOSE_VALID_BLOCK 1
                     Scenario.registry)) !! "n1")) as [r Hr] by (vm_compute; eauto).
  exists r. split; [exact Hr|].
  apply (registry_invariant Scenario.exp_series
           (VRMManager.applyDecay 2
              (VRMManager.recordEvent Scenario.exp_series "n1" PROPOSE_VALID_BLOCK 1
                 Scenario.registry)) "n1" r); [|exact Hr].
  apply reach_applyDecay, reach_recordEvent.
  apply (reach_registerNode Scenario.exp_series "n1" Constants.INITIAL_REPUTATION 0).
  apply reach_initialize, reach_ctor.
Defined.

(** X12 (witness): the stand-in returns 1 at -0.0, and "n1" of the
    scenario is not reliable after a valid proposal. *)
Lemma isReliable_never_witness :
  VRMManager.isReliable Scenario.exp_series "n1"
    (VRMManager.recordEvent Scenario.exp_series "n1" PROPOSE_VALID_BLOCK 1
       Scenario.registry) = false.
Proof.
  apply (isReliable_never Scenario.exp_series).
  - vm_compute. reflexivity.
  - apply reach_recordEvent.
    apply (reach_registerNode Scenario.exp_series "n1" Constants.INITIAL_REPUTATION 0).
    apply reach_initialize, reach_ctor.
Defined.

(** X14 (witness): a history of three events trimmed to two. *)
Lemma cleanupHistory_keeps_recent_witness :
  let m :=
    VRMManager.recordEvent Scenario.exp_series "n1" TIMEOUT 3
      (VRMManager.recordEvent Scenario.exp_series "n1" VOTE_CORRECTLY 2
         (VRMManager.recordEvent Scenario.exp_series "n1" PROPOSE_VALID_BLOCK 1
            Scenario.registry)) in
  exists r r',
    VRMManager.records_ m !! "n1" = Some r /\
    VRMManager.records_ (VRMManager.cleanupHistory 2 m) !! "n1" = Some r' /\
    ReputationRecord.recentEvents r'
    = drop (length (ReputationRecord.recentEvents r) - Z.to_nat 2)
           (ReputationRecord.recentEvents r) /\
    length (ReputationRecord.recentEvents r')
    = Nat.min (length (ReputationRecord.recentEvents r)) (Z.to_nat 2) /\
    ReputationRecord.score r' = ReputationRecord.score r.
Proof.
  intros m.
  assert (is_Some (VRMManager.records_ m !! "n1")) as [r Hr] by (vm_compute; eauto).
  exists r.
  assert (Z.of_nat (length (ReputationRecord.recentEvents r)) < 2 ^ 64) as Hlen.
  { vm_compute in Hr. injection Hr as <-. vm_compute. reflexivity. }
  destruct (cleanupHistory_keeps_recent 2 m "n1" r) as (r' & H1 & H2 & H3 & H4).
  - split; [discriminate|reflexivity].
  - exact Hr.
  - exact Hlen.
  - exists r'. auto.
Defined.

(* ===================================================================== *)
(** ** The committee selector: roles                                      *)
(* ===================================================================== *)

Section Roles.
Import VRFSelector.

Lemma foldl_insert_role (role : NodeRole) (l : list NodeID)
    (acc : gmap NodeID NodeRole) (n : NodeID) :
  foldl (fun (a : gmap NodeID NodeRole) x => <[x := role]> a) acc l !! n
  = if decide (n ∈ l) then Some role else acc !! n.
Proof.
  revert acc. induction l as [|x l IH]; intros acc; cbn [foldl].
  - rewrite decide_False; [done|]. apply not_elem_of_nil.
  - rewrite IH. destruct (decide (n ∈ l)) as [Hin|Hnin].
    + rewrite decide_True; [done|]. by right.
    + destruct (decide (x = n)) as [->|Hne].
      * rewrite lookup_insert_eq. rewrite decide_True; [done|]. by left.
      * rewrite lookup_insert_ne by done. rewrite decide_False; [done|].
        intros Hin. apply elem_of_cons in Hin as [->|?]; done.
Qed.

Lemma existsb_eqb_elem (n : NodeID) (l : list NodeID) :
  existsb (String.eqb n) l = true <-> n ∈ l.
Proof.
  rewrite existsb_exists, list_elem_of_In. split.
  - intros (x & Hx & Heq). apply String.eqb_eq in Heq. by subst.
  - intros Hin. exists n. split; [done|]. apply String.eqb_refl.
Qed.

(** X16.  After [setCurrentGroup] the role of a node is redundant if it
    is listed as redundant (also when it is listed as primary too),
    primary if it is listed as primary only, and ordinary otherwise,
    whatever roles were recorded before; [isInConsensusGroup] and
    [isRedundantNode] answer by the two lists. *)
Theorem setCurrentGroup_roles (group : ConsensusGroup.t) (s : t) (nodeID : NodeID) :
  getNodeRole nodeID (setCurrentGroup group s)
  = (if decide (nodeID ∈ ConsensusGroup.redundantNodes group) then CONSENSUS_REDUNDANT
     else if decide (nodeID ∈ ConsensusGroup.primaryNodes group) then CONSENSUS_PRIMARY
     else ORDINARY) /\
  (isInConsensusGroup nodeID (setCurrentGroup group s) = true
   <-> nodeID ∈ ConsensusGroup.primaryNodes group) /\
  (isRedundantNode nodeID (setCurrentGroup group s) = true
   <-> nodeID ∈ ConsensusGroup.redundantNodes group).
Proof.
  unfold getNodeRole, isInConsensusGroup, isRedundantNode, setCurrentGroup. simpl.
  rewrite !foldl_insert_role, lookup_empty, !existsb_eqb_elem.
  split; [|done]. by repeat case_decide.
Qed.
End Roles.

(* ===================================================================== *)
(** ** The header chain: full blocks and clean-up                         *)
(* ===================================================================== *)

Section Blocks.
Import LightweightSync.

Variable hasher : string -> Z.
Variable to_string : Z -> string.

(** X17.  In every state that the sync operations build from the
    constructor, each header is stored under its own height, no stored
    header lies above the latest height, and each full block is stored
    under its own height. *)
Theorem sync_invariant (s : t) :
  SyncReachable hasher to_string s ->
  (forall k header, headers_ s !! k = Some header ->
     BlockHeader.height header = k /\ k <= latestHeight_ s) /\
  (forall k block, fullBlocks_ s !! k = Some block -> Block.height block = k).
Proof.
  induction 1 as [|role s _ _|header s _ [IHh IHb]|block s _ [IHh IHb]
                  |keepCount s _ [IHh IHb]].
  - done.
  - done.
  - unfold syncHeader. destruct (validateHeaderChain header s); simpl; [|done].
    split; [|done]. intros k hd Hk.
    apply lookup_insert_Some in Hk as [[<- <-]|[_ Hk]].
    + split; [done|]. destruct (Z.ltb_spec (latestHeight_ s) (BlockHeader.height header)); lia.
    + destruct (IHh k hd Hk) as [? ?]. split; [done|].
      destruct (Z.ltb_spec (latestHeight_ s) (BlockHeader.height header)); lia.
  - unfold receiveFullBlock. destruct (getHeader _ s); [|done].
    repeat (case_match; [done|]). simpl. split; [done|].
    intros k b Hk. apply lookup_insert_Some in Hk as [[<- <-]|[_ Hk]]; [done|].
    by apply IHb.
  - unfold cleanup. destruct (_ <=? _); [done|]. simpl. split.
    + intros k hd Hk. apply map_lookup_filter_Some in Hk as [Hk _]. by apply IHh.
    + intros k b Hk. apply map_lookup_filter_Some in Hk as [Hk _]. by apply IHb.
Qed.

(** X18.  A full block is accepted exactly when a header is stored at
    its height whose block hash, Merkle root and transaction count match
    the block; an accepted block is stored under its height and nothing
    else changes; a rejected block leaves the state as it was. *)
Theorem receiveFullBlock_verified (block : Block.t) (s : t) :
  let r := receiveFullBlock hasher to_string block s in
  (r.1 = true <->
     exists header,
       headers_ s !! Block.height block = Some header /\
       BlockHeader.blockHash header = Block.blockHash block /\
       BlockHeader.merkleRoot header
       = BlockHeader.calculateMerkleRoot hasher to_string (Block.transactions block) /\
       BlockHeader.txCount header = to_int (Z.of_nat (length (Block.transactions block)))) /\
  (r.1 = true ->
     r.2 = mk (nodeRole_ s) (headers_ s) (latestHeight_ s)
              (<[Block.height block := block]> (fullBlocks_ s))
              (pendingRequests_ s) (logCallback_ s) (requestCallback_ s)) /\
  (r.1 = false -> r.2 = s).
Proof.
  unfold receiveFullBlock, getHeader.
  destruct (headers_ s !! Block.height block) as [header|] eqn:Hh; simpl.
  2:{ split; [|done]. split; [done|]. by intros (? & ? & _). }
  destruct (String.eqb_spec (BlockHeader.blockHash header) (Block.blockHash block))
    as [Hhash|Hhash]; simpl.
  2:{ split; [|done]. split; [done|]. intros (? & [= <-] & ? & _). done. }
  destruct (String.eqb_spec (BlockHeader.merkleRoot header)
              (BlockHeader.calculateMerkleRoot hasher to_string (Block.transactions block)))
    as [Hroot|Hroot]; simpl.
  2:{ split; [|done]. split; [done|]. intros (? & [= <-] & _ & ? & _). done. }
  destruct (Z.eqb_spec (BlockHeader.txCount header)
              (to_int (Z.of_nat (length (Block.transactions block))))) as [Hcount|Hcount]; simpl.
  2:{ split; [|done]. split; [done|]. intros (? & [= <-] & _ & _ & ?). done. }
  split; [|done]. split; [|done]. intros _. by exists header.
Qed.

(** X19.  Once the header made from a block by [fromBlock] has been
    accepted by [syncHeader], the block itself is accepted by
    [receiveFullBlock] and can be read back at its height. *)
Theorem receiveFullBlock_after_fromBlock (block : Block.t) (s : t) :
  let header := BlockHeader.fromBlock hasher to_string block in
  fst (syncHeader header s) = true ->
  let s1 := snd (syncHeader header s) in
  fst (receiveFullBlock hasher to_string block s1) = true /\
  getFullBlock (Block.height block)
    (snd (receiveFullBlock hasher to_string block s1)) = Some block /\
  getHeader (Block.height block)
    (snd (receiveFullBlock hasher to_string block s1)) = Some header.
Proof.
  intros header Hacc s1.
  assert (Hstored : headers_ s1 !! Block.height block = Some header).
  { subst s1. unfold syncHeader in *. destruct (validateHeaderChain header s); [|done].
    simpl. apply lookup_insert_eq. }
  unfold receiveFullBlock, getHeader, getFullBlock. rewrite Hstored.
  subst header. simpl. rewrite !String.eqb_refl, Z.eqb_refl. simpl.
  split; [done|]. by rewrite lookup_insert_eq.
Qed.

(** X20.  With a non-negative [keepCount] below the latest height,
    [cleanup] keeps exactly the headers and the full blocks whose height
    is at least the latest height minus [keepCount] and does not change
    the latest height; when the latest height does not exceed
    [keepCount], it changes nothing. *)
Theorem cleanup_keeps_recent (keepCount : Z) (s : t) :
  0 <= keepCount < 2 ^ 31 ->
  0 <= latestHeight_ s < 2 ^ 64 ->
  (latestHeight_ s <= keepCount -> cleanup keepCount s = s) /\
  (keepCount < latestHeight_ s ->
     latestHeight_ (cleanup keepCount s) = latestHeight_ s /\
     forall k,
       headers_ (cleanup keepCount s) !! k
       = (if decide (latestHeight_ s - keepCount <= k) then headers_ s !! k else None) /\
       fullBlocks_ (cleanup keepCount s) !! k
       = (if decide (latestHeight_ s - keepCount <= k) then fullBlocks_ s !! k else None)).
Proof.
  intros Hkeep Hlatest. unfold cleanup.
  assert (to_size_t keepCount = keepCount) as ->.
  { unfold to_size_t. apply Z.mod_small. lia. }
  split.
  - intros Hle. destruct (Z.leb_spec (latestHeight_ s) keepCount); [done|lia].
  - intros Hlt. destruct (Z.leb_spec (latestHeight_ s) keepCount); [lia|]. simpl.
    split; [done|]. intros k. unfold uint64. rewrite Z.mod_small by lia.
    split; apply option_eq; intros x; rewrite map_lookup_filter_Some; simpl.
    all: case_decide as Hcut.
    all: split; [intros [Hk Hge]; first [exact Hk | lia]
                |intros Hk; first [split; [exact Hk|lia] | discriminate]].
Qed.
End Blocks.

(** X17 (witness): header 5, then header 6, then a clean-up keeping one
    height. *)
Lemma sync_invariant_witness :
  let s :=
    LightweightSync.cleanup 1
      (snd (LightweightSync.syncHeader Scenario.header6
         (snd (LightweightSync.syncHeader Scenario.header5 Scenario.emptySync)))) in
  (forall k header, LightweightSync.headers_ s !! k = Some header ->
     BlockHeader.height header = k /\ k <= LightweightSync.latestHeight_ s) /\
  (forall k block, LightweightSync.fullBlocks_ s !! k = Some block ->
     Block.height block = k).
Proof.
  apply (sync_invariant Scenario.hash_length Scenario.show_decimal).
  apply sync_cleanup, sync_syncHeader, sync_syncHeader.
  apply (sync_initialize _ _ ORDINARY), sync_ctor.
Defined.

(** X19 (witness): the header of [Scenario.block5] opens the chain of an
    empty store, then the block is received. *)
Lemma receiveFullBlock_after_fromBlock_witness :
  let header :=
    BlockHeader.fromBlock Scenario.hash_length Scenario.show_decimal Scenario.block5 in
  let s1 := snd (LightweightSync.syncHeader header Scenario.emptySync) in
  fst (LightweightSync.receiveFullBlock Scenario.hash_length Scenario.show_decimal
         Scenario.block5 s1) = true /\
  LightweightSync.getFullBlock 5
    (snd (LightweightSync.receiveFullBlock Scenario.hash_length Scenario.show_decimal
            Scenario.block5 s1)) = Some Scenario.block5 /\
  LightweightSync.getHeader 5
    (snd (LightweightSync.receiveFullBlock Scenario.hash_length Scenario.show_decimal
            Scenario.block5 s1)) = Some header.
Proof.
  apply (receiveFullBlock_after_fromBlock Scenario.hash_length Scenario.show_decimal
           Scenario.block5 Scenario.emptySync).
  reflexivity.
Defined.

(** X20 (witness): headers 5 and 6 are stored, the latest height is 6
    and one height is kept. *)
Lemma cleanup_keeps_recent_witness :
  let s :=
    snd (LightweightSync.syncHeader Scenario.header6
      (snd (LightweightSync.syncHeader Scenario.header5 Scenario.emptySync))) in
  (LightweightSync.latestHeight_ s <= 1 -> LightweightSync.cleanup 1 s = s) /\
  (1 < LightweightSync.latestHeight_ s ->
     LightweightSync.latestHeight_ (LightweightSync.cleanup 1 s)
     = LightweightSync.latestHeight_ s /\
     forall k,
       LightweightSync.headers_ (LightweightSync.cleanup 1 s) !! k
       = (if decide (LightweightSync.latestHeight_ s - 1 <= k)
          then LightweightSync.headers_ s !! k else None) /\
       LightweightSync.fullBlocks_ (LightweightSync.cleanup 1 s) !! k
       = (if decide (LightweightSync.latestHeight_ s - 1 <= k)
          then LightweightSync.fullBlocks_ s !! k else None)).
Proof.
  apply (cleanup_keeps_recent 1
           (snd (LightweightSync.syncHeader Scenario.header6
              (snd (LightweightSync.syncHeader Scenario.header5 Scenario.emptySync))))).
  - split; [discriminate|reflexivity].
  - vm_compute. split; [discriminate|reflexivity].
Defined.

(* ===================================================================== *)
(** ** The shard manager: placement, removal and moves                    *)
(* ===================================================================== *)

Section Placement.
Import RegionalShardManager.

Lemma map_in_order_elem {V} (m : gmap Z V) (k : Z) (v : V) :
  (k, v) ∈ map_in_order m <-> m !! k = Some v.
Proof.
  unfold map_in_order. rewrite merge_sort_Permutation. apply elem_of_map_to_list.
Qed.

Lemma set_in_order_elem (s : gset NodeID) (x : NodeID) :
  x ∈ set_in_order s <-> x ∈ s.
Proof. unfold set_in_order. rewrite merge_sort_Permutation. apply elem_of_elements. Qed.

Lemma bestShard_loop (location : GeoCoord.t) (m : t)
    (entries : list (ShardID * ShardInfo.t)) (acc : ShardID * double) :
  (forall entry, entry ∈ entries -> shards_ m !! entry.1 = Some entry.2) ->
  admits location m acc.1 \/ acc = (-1, DBL_MAX) ->
  let r := foldl (bestShardStep location m) acc entries in
  (admits location m r.1 \/ r = (-1, DBL_MAX)) /\
  (admits location m acc.1 \/
   Exists (fun entry =>
             admits location m entry.1 /\
             PrimFloat.ltb (GeoCoord.distanceTo (ShardInfo.centerPoint entry.2) location)
                           DBL_MAX = true) entries ->
   admits location m r.1).
Proof.
  revert acc. induction entries as [|entry entries IH]; intros acc Hvalid Hacc; simpl.
  - split; [done|]. intros [?|Hex]; [done|]. by apply Exists_nil in Hex.
  - assert (Hentry : shards_ m !! entry.1 = Some entry.2) by (apply Hvalid; left).
    assert (Hrest : forall e, e ∈ entries -> shards_ m !! e.1 = Some e.2)
      by (intros e He; apply Hvalid; by right).
    set (acc' := bestShardStep location m acc entry).
    assert (Hstep : (admits location m acc'.1 \/ acc' = (-1, DBL_MAX)) /\
                    (admits location m acc.1 -> admits location m acc'.1) /\
                    (admits location m entry.1 ->
                     PrimFloat.ltb (GeoCoord.distanceTo (ShardInfo.centerPoint entry.2)
                                      location) DBL_MAX = true ->
                     admits location m acc'.1)).
    { subst acc'. unfold bestShardStep. destruct acc as [best dist], entry as [sid sh].
      simpl in *.
      destruct (ShardInfo.contains sh location) eqn:Hin; [|by destruct Hacc as [?|[= -> ->]];
        [auto|split; [auto|split; [done|intros (x & Hx & Hc & _); congruence]]]].
      destruct (canAcceptMember sid m) eqn:Hroom.
      2:{ split; [done|]. split; [done|]. intros (x & Hx & _ & Hc) _.
          unfold canAcceptMember in Hroom. rewrite Hx in Hroom.
          apply Z.ltb_ge in Hroom. lia. }
      assert (admits location m sid) as Hsid.
      { exists sh. unfold canAcceptMember in Hroom. rewrite Hentry in Hroom.
        by apply Z.ltb_lt in Hroom. }
      destruct (PrimFloat.ltb _ dist) eqn:Hlt; simpl.
      - auto.
      - split; [done|]. split; [done|]. intros _ Hmax.
        destruct Hacc as [?|[= -> ->]]; [done|congruence]. }
    destruct Hstep as (Hacc' & Hkeep & Hhit).
    destruct (IH acc' Hrest Hacc') as [IH1 IH2]. split; [exact IH1|].
    intros [Ha|Hex]; apply IH2.
    + left. by apply Hkeep.
    + apply Exists_cons in Hex as [[He Hd]|Hex]; [left; by apply Hhit|by right].
Qed.

(** X21.  [getShardForLocation] returns -1 or the id of a shard that
    contains the location and holds fewer members than the bound; it
    returns -1 on a manager without shards, and it does return such a
    shard whenever one exists whose centre is at a distance below the
    largest finite double. *)
Theorem getShardForLocation_result (location : GeoCoord.t) (m : t) :
  (admits location m (getShardForLocation location m) \/
   getShardForLocation location m = -1) /\
  (shards_ m = ∅ -> getShardForLocation location m = -1) /\
  (forall shardID shard,
     shards_ m !! shardID = Some shard ->
     admits location m shardID ->
     PrimFloat.ltb (GeoCoord.distanceTo (ShardInfo.centerPoint shard) location) DBL_MAX
     = true ->
     admits location m (getShardForLocation location m)).
Proof.
  unfold getShardForLocation.
  destruct (bestShard_loop location m (map_in_order (shards_ m)) (-1, DBL_MAX))
    as [Hsound Hcomplete].
  { intros [k v] Hin. by apply map_in_order_elem. }
  { by right. }
  split; [|split].
  - destruct Hsound as [?|Heq]; [by left|right]. simpl in Heq. by rewrite Heq.
  - intros Hempty. unfold map_in_order. rewrite Hempty, map_to_list_empty. done.
  - intros shardID shard Hshard Hadm Hdist. apply Hcomplete. right.
    apply Exists_exists. exists (shardID, shard). split; [|done].
    by apply map_in_order_elem.
Qed.

(** A loop over a list keeps what each step keeps for the list's elements. *)
Lemma foldl_keeps_elem {A B} (P : A -> Prop) (step : A -> B -> A) (l : list B) (a : A) :
  (forall acc x, x ∈ l -> P acc -> P (step acc x)) -> P a -> P (foldl step a l).
Proof.
  revert a. induction l as [|y l IH]; intros a Hstep Ha; simpl; [done|].
  apply IH.
  - intros acc x Hx. apply Hstep. by right.
  - apply Hstep; [left|done].
Qed.

Lemma alter_is_Some {V} (f : V -> V) (i k : Z) (shards : gmap Z V) :
  is_Some (alter f i shards !! k) <-> is_Some (shards !! k).
Proof.
  destruct (decide (i = k)) as [->|Hne].
  - rewrite lookup_alter_eq. apply fmap_is_Some.
  - by rewrite lookup_alter_ne.
Qed.

(** Altering one shard by a function that acts on the member set: what
    the shards then hold. *)
Lemma alter_lookup_members (g : ShardInfo.t -> ShardInfo.t)
    (f : gset NodeID -> gset NodeID) (i k : ShardID)
    (shards : gmap ShardID ShardInfo.t) (shard : ShardInfo.t) :
  (forall s, ShardInfo.members (g s) = f (ShardInfo.members s)) ->
  shards !! k = Some shard ->
  exists shard',
    alter g i shards !! k = Some shard' /\
    ShardInfo.members shard'
    = if decide (i = k) then f (ShardInfo.members shard) else ShardInfo.members shard.
Proof.
  intros Hg Hk. destruct (decide (i = k)) as [->|Hne].
  - rewrite lookup_alter_eq, Hk. eexists. split; [done|]. apply Hg.
  - rewrite lookup_alter_ne by done. by eexists.
Qed.

Lemma alter_members_lookup (f : gset NodeID -> gset NodeID) (i k : ShardID)
    (shards : gmap ShardID ShardInfo.t) (shard : ShardInfo.t) :
  shards !! k = Some shard ->
  exists shard',
    alter (set_members f) i shards !! k = Some shard' /\
    ShardInfo.members shard'
    = if decide (i = k) then f (ShardInfo.members shard) else ShardInfo.members shard.
Proof. by apply alter_lookup_members. Qed.

(** [shards_[shardID]] taken as a reference leaves everything else as it is. *)
Lemma touchShard_frame (sid : ShardID) (m : t) :
  is_Some (shards_ (touchShard sid m) !! sid) /\
  (forall k, k <> sid -> shards_ (touchShard sid m) !! k = shards_ m !! k) /\
  (forall k shard, shards_ m !! k = Some shard ->
                   shards_ (touchShard sid m) !! k = Some shard) /\
  nodeShardMap_ (touchShard sid m) = nodeShardMap_ m /\
  nodeLocationMap_ (touchShard sid m) = nodeLocationMap_ m /\
  nodeReputationMap_ (touchShard sid m) = nodeReputationMap_ m /\
  nextShardID_ (touchShard sid m) = nextShardID_ m /\
  totalJoins_ (touchShard sid m) = totalJoins_ m /\
  totalLeaves_ (touchShard sid m) = totalLeaves_ m /\
  totalSplits_ (touchShard sid m) = totalSplits_ m.
Proof.
  unfold touchShard. destruct (shards_ m !! sid) eqn:Hsid; simpl.
  - rewrite Hsid. eauto 10.
  - rewrite lookup_insert_eq. split; [eauto|]. split; [|split; [|done]].
    + intros k Hk. by rewrite lookup_insert_ne.
    + intros k shard Hk. rewrite lookup_insert_ne by congruence. done.
Qed.

(** [electLeader] keeps the node tables and the join and leave counters. *)
Lemma electLeader_nodeInfo (sid : ShardID) (now : simtime_t) (m : t) :
  nodeLocationMap_ (electLeader sid now m) = nodeLocationMap_ m /\
  nodeReputationMap_ (electLeader sid now m) = nodeReputationMap_ m /\
  totalJoins_ (electLeader sid now m) = totalJoins_ m /\
  totalLeaves_ (electLeader sid now m) = totalLeaves_ m.
Proof. unfold electLeader. by destruct (shards_ m !! sid). Qed.

Lemma electLeader_is_Some (sid k : ShardID) (now : simtime_t) (m : t) :
  is_Some (shards_ (electLeader sid now m) !! k) <-> is_Some (shards_ m !! k).
Proof.
  rewrite <- (fmap_is_Some ShardInfo.members), electLeader_members.
  apply fmap_is_Some.
Qed.

Lemma electLeader_fresh (sid : ShardID) (now : simtime_t) (m : t) :
  fresh_ids m -> fresh_ids (electLeader sid now m).
Proof.
  intros Hfresh k Hk. apply electLeader_is_Some in Hk.
  destruct (electLeader_frame sid now m) as (_ & -> & _). by apply Hfresh.
Qed.

Lemma electLeader_placed (nodeID : NodeID) (sid : ShardID) (now : simtime_t) (m : t) :
  placed nodeID m -> placed nodeID (electLeader sid now m).
Proof.
  intros (s0 & sh & Hn & Hs & Hin).
  pose proof (electLeader_members sid s0 now m) as Hmem. rewrite Hs in Hmem.
  simpl in Hmem. apply fmap_Some in Hmem as (sh' & Hs' & Hmem).
  exists s0, sh'. destruct (electLeader_frame sid now m) as (-> & _).
  rewrite Hmem in Hin. done.
Qed.

(** One iteration of the loop of [splitShard]. *)
Lemma splitShard_step_placed (nodeID moved : NodeID) (sid new : ShardID) (acc : t) :
  is_Some (shards_ acc !! new) ->
  moved = nodeID \/ placed nodeID acc ->
  placed nodeID
    (with_nodeShardMap (insert moved new)
       (with_shards
          (fun sh =>
             alter (set_members (fun s => s ∪ {[moved]})) new
               (alter (set_members (fun s => s ∖ {[moved]})) sid sh))
          acc)).
Proof.
  intros [shn Hshn] Hplaced. unfold placed. simpl.
  destruct (decide (moved = nodeID)) as [->|Hne].
  - rewrite lookup_insert_eq.
    destruct (alter_members_lookup (fun s => s ∖ {[nodeID]}) sid new _ _ Hshn)
      as (sh1 & Hsh1 & _).
    destruct (alter_members_lookup (fun s => s ∪ {[nodeID]}) new new _ _ Hsh1)
      as (sh2 & Hsh2 & Hmem2).
    exists new, sh2. rewrite decide_True in Hmem2 by done.
    split; [done|]. split; [done|]. rewrite Hmem2.
    apply elem_of_union_r, elem_of_singleton. done.
  - destruct Hplaced as [?|(s0 & sh & Hn & Hs & Hin)]; [done|].
    rewrite lookup_insert_ne by done.
    destruct (alter_members_lookup (fun s => s ∖ {[moved]}) sid s0 _ _ Hs)
      as (sh1 & Hsh1 & Hmem1).
    destruct (alter_members_lookup (fun s => s ∪ {[moved]}) new s0 _ _ Hsh1)
      as (sh2 & Hsh2 & Hmem2).
    exists s0, sh2. split; [done|]. split; [done|]. rewrite Hmem2.
    assert (nodeID ∈ ShardInfo.members sh1) as Hin1.
    { rewrite Hmem1. destruct (decide (sid = s0)); [|done].
      apply elem_of_difference. split; [done|]. rewrite elem_of_singleton. congruence. }
    destruct (decide (new = s0)); [|done]. by apply elem_of_union_l.
Qed.

(** What a split keeps: the node tables, the join and leave counters,
    the freshness of the shard ids, and the placement of every node
    that is not recorded under the id the split is about to hand out. *)
Lemma splitShard_keeps (sid : ShardID) (now : simtime_t) (m : t) :
  nodeLocationMap_ (splitShard sid now m) = nodeLocationMap_ m /\
  nodeReputationMap_ (splitShard sid now m) = nodeReputationMap_ m /\
  totalJoins_ (splitShard sid now m) = totalJoins_ m /\
  totalLeaves_ (splitShard sid now m) = totalLeaves_ m /\
  (fresh_ids m -> fresh_ids (splitShard sid now m)) /\
  (shardsOk m -> shardsOk (splitShard sid now m)) /\
  (forall nodeID,
     nodeShardMap_ m !! nodeID <> Some (nextShardID_ m) ->
     placed nodeID m -> placed nodeID (splitShard sid now m)) /\
  (splitShard sid now m = m \/
   totalSplits_ (splitShard sid now m) = totalSplits_ m + 1).
Proof.
  unfold splitShard.
  destruct (shards_ m !! sid) as [orig|]; [|by eauto 10].
  destruct (_ <=? _); [by eauto 10|]. unfold createShard. simpl.
  set (n := nextShardID_ m) in *.
  set (m1 := with_shards _ _).
  rewrite touchShard_present by (subst m1; simpl; rewrite lookup_insert_eq; eauto).
  match goal with |- context [foldl ?f m1 ?l] => set (m3 := foldl f m1 l) end.
  assert (Hm3 : nodeLocationMap_ m3 = nodeLocationMap_ m /\
                nodeReputationMap_ m3 = nodeReputationMap_ m /\
                totalJoins_ m3 = totalJoins_ m /\
                totalLeaves_ m3 = totalLeaves_ m /\
                totalSplits_ m3 = totalSplits_ m /\
                nextShardID_ m3 = n + 1 /\
                is_Some (shards_ m3 !! n) /\
                (forall k, is_Some (shards_ m3 !! k) -> is_Some (shards_ m !! k) \/ k = n) /\
                (forall nodeID, is_Some (nodeShardMap_ m3 !! nodeID) ->
                                is_Some (nodeShardMap_ m !! nodeID) \/ placed nodeID m3) /\
                (forall nodeID, nodeShardMap_ m !! nodeID <> Some n ->
                                placed nodeID m -> placed nodeID m3)).
  { subst m3.
    match goal with |- context [foldl ?f m1 ?l] =>
      apply (foldl_keeps_elem
        (fun acc => nodeLocationMap_ acc = nodeLocationMap_ m /\
                    nodeReputationMap_ acc = nodeReputationMap_ m /\
                    totalJoins_ acc = totalJoins_ m /\
                    totalLeaves_ acc = totalLeaves_ m /\
                    totalSplits_ acc = totalSplits_ m /\
                    nextShardID_ acc = n + 1 /\
                    is_Some (shards_ acc !! n) /\
                    (forall k, is_Some (shards_ acc !! k) ->
                               is_Some (shards_ m !! k) \/ k = n) /\
                    (forall nodeID, is_Some (nodeShardMap_ acc !! nodeID) ->
                                    is_Some (nodeShardMap_ m !! nodeID) \/
                                    placed nodeID acc) /\
                    (forall nodeID, nodeShardMap_ m !! nodeID <> Some n ->
                                    placed nodeID m -> placed nodeID acc)) f l)
    end.
    - intros acc x Hx (H1 & H2 & H3 & H4 & H5 & H6 & H7 & H8 & H9 & H10).
      do 6 (split; [done|]). split; [|split; [|split]].
      + simpl. by rewrite !alter_is_Some.
      + intros k. simpl. rewrite !alter_is_Some. apply H8.
      + intros nodeID Hsome. destruct (decide (x = nodeID)) as [->|Hne].
        * right. apply splitShard_step_placed; [done|by left].
        * simpl in Hsome. rewrite lookup_insert_ne in Hsome by done.
          destruct (H9 nodeID Hsome) as [?|Hp]; [by left|right].
          apply splitShard_step_placed; [done|by right].
      + intros nodeID Hn Hp. apply splitShard_step_placed; [done|]. right. by apply H10.
    - subst m1. simpl. do 6 (split; [done|]). split; [|split; [|split]].
      + rewrite lookup_insert_eq. eauto.
      + intros k. destruct (decide (n = k)) as [->|Hne]; [by right|].
        rewrite lookup_insert_ne by done. by left.
      + intros nodeID Hsome. by left.
      + intros nodeID Hn (s0 & sh & Hs0 & Hsh & Hin). exists s0, sh.
        simpl. rewrite lookup_insert_ne by congruence. done. }
  destruct Hm3 as (H1 & H2 & H3 & H4 & H5 & H6 & H7 & H8 & H9 & H10).
  set (m4 := electLeader sid now m3). set (m5 := electLeader n now m4).
  destruct (electLeader_nodeInfo n now m4) as (E1 & E2 & E3 & E4).
  destruct (electLeader_nodeInfo sid now m3) as (F1 & F2 & F3 & F4).
  destruct (electLeader_frame n now m4) as (G1 & G2 & _ & _ & G5 & _).
  destruct (electLeader_frame sid now m3) as (K1 & K2 & _ & _ & K5 & _).
  fold m4 in F1, F2, F3, F4, K1, K2, K5. fold m5 in E1, E2, E3, E4, G1, G2, G5.
  assert (Hfresh : fresh_ids m -> fresh_ids (count 0 0 1 0 m5)).
  { intros Hfresh k Hk. change (is_Some (shards_ m5 !! k)) in Hk.
    change (k < nextShardID_ m5). rewrite G2, K2, H6.
    apply electLeader_is_Some, electLeader_is_Some in Hk.
    destruct (H8 k Hk) as [Hold| ->]; [|lia].
    specialize (Hfresh k Hold). fold n in Hfresh. lia. }
  assert (Hkeep : forall nodeID, placed nodeID m3 -> placed nodeID (count 0 0 1 0 m5)).
  { intros nodeID Hp. by apply (electLeader_placed nodeID n now m4), electLeader_placed. }
  cbn [nodeLocationMap_ nodeReputationMap_ totalJoins_ totalLeaves_ totalSplits_ count].
  rewrite E1, E2, E3, E4, F1, F2, F3, F4, G5, K5, H1, H2, H3, H4, H5, !Z.add_0_r.
  do 4 (split; [done|]). split; [done|]. split; [|split; [|by right]].
  - intros [Hfr Hok]. split; [by apply Hfresh|].
    intros nodeID Hsome. change (is_Some (nodeShardMap_ m5 !! nodeID)) in Hsome.
    rewrite G1, K1 in Hsome. destruct (H9 nodeID Hsome) as [Hold|Hp]; [|by apply Hkeep].
    apply Hkeep, H10; [|by apply Hok].
    intros Heq. destruct (Hok nodeID Hold) as (s0 & sh & Hs0 & Hsh & _).
    assert (s0 < n) by (apply Hfr; eauto).
    rewrite Hs0 in Heq. injection Heq as ->. lia.
  - intros nodeID Hn Hp. by apply Hkeep, H10.
Qed.

Lemma electLeader_ok (sid : ShardID) (now : simtime_t) (m : t) :
  shardsOk m -> shardsOk (electLeader sid now m).
Proof.
  intros [Hfresh Hok]. split; [by apply electLeader_fresh|].
  intros nodeID Hsome. apply electLeader_placed, Hok.
  by destruct (electLeader_frame sid now m) as (<- & _).
Qed.

(** The part of [addNode] that follows the choice of the shard, for a
    shard id that the counter has handed out. *)
Lemma joinShard_keeps (nodeID : NodeID) (sid : ShardID) (now : simtime_t) (m2 : t) :
  sid < nextShardID_ m2 ->
  nodeLocationMap_ (joinShard nodeID sid now m2) = nodeLocationMap_ m2 /\
  nodeReputationMap_ (joinShard nodeID sid now m2) = nodeReputationMap_ m2 /\
  totalJoins_ (joinShard nodeID sid now m2) = totalJoins_ m2 + 1 /\
  totalLeaves_ (joinShard nodeID sid now m2) = totalLeaves_ m2 /\
  placed nodeID (joinShard nodeID sid now m2) /\
  (totalSplits_ (joinShard nodeID sid now m2) = totalSplits_ m2 ->
   nodeShardMap_ (joinShard nodeID sid now m2) !! nodeID = Some sid) /\
  (fresh_ids m2 -> fresh_ids (joinShard nodeID sid now m2)) /\
  (shardsOk m2 -> shardsOk (joinShard nodeID sid now m2)).
Proof.
  intros Hlt. unfold joinShard.
  destruct (touchShard_frame sid m2) as ([sh3 Hsh3] & T1 & T1' & T2 & T3 & T4 & T5 & T6 & T7 & T8).
  set (m3 := touchShard sid m2) in *.
  set (g := fun s => set_lastUpdate now (set_members (fun ms => ms ∪ {[nodeID]}) s)).
  set (m4 := with_nodeShardMap _ _).
  assert (Hg : forall s, ShardInfo.members (g s) = ShardInfo.members s ∪ {[nodeID]}) by done.
  assert (Hplaced4 : placed nodeID m4).
  { destruct (alter_lookup_members g (fun ms => ms ∪ {[nodeID]}) sid sid _ _ Hg Hsh3) as (sh4 & Hsh4 & Hmem4).
    exists sid, sh4. subst m4. simpl. rewrite lookup_insert_eq. split; [done|].
    split; [exact Hsh4|]. rewrite Hmem4, decide_True by done.
    apply elem_of_union_r, elem_of_singleton. done. }
  assert (Hfresh4 : fresh_ids m2 -> fresh_ids m4).
  { intros Hfresh k Hk. change (is_Some (alter g sid (shards_ m3) !! k)) in Hk.
    change (k < nextShardID_ m3). rewrite T5. apply alter_is_Some in Hk.
    destruct (decide (k = sid)) as [->|Hne]; [done|].
    rewrite T1 in Hk by done. by apply Hfresh. }
  assert (Hok4 : shardsOk m2 -> shardsOk m4).
  { intros [Hfresh Hok]. split; [by apply Hfresh4|].
    intros n' Hsome. destruct (decide (n' = nodeID)) as [->|Hne]; [done|].
    change (is_Some (insert nodeID sid (nodeShardMap_ m3) !! n')) in Hsome.
    rewrite lookup_insert_ne, T2 in Hsome by done.
    destruct (Hok n' Hsome) as (s0 & sh & Hs0 & Hsh & Hin).
    apply T1' in Hsh.
    destruct (alter_lookup_members g (fun ms => ms ∪ {[nodeID]}) sid s0 _ _ Hg Hsh) as (sh4 & Hsh4 & Hmem4).
    exists s0, sh4. subst m4. simpl. rewrite lookup_insert_ne, T2 by done.
    split; [done|]. split; [exact Hsh4|]. rewrite Hmem4.
    destruct (decide (sid = s0)); [by apply elem_of_union_l|done]. }
  assert (Hmap4 : nodeShardMap_ m4 !! nodeID = Some sid)
    by (subst m4; simpl; by rewrite lookup_insert_eq).
  set (m5 := if string_empty _ then _ else _).
  assert (Hm5 : placed nodeID m5 /\ (fresh_ids m2 -> fresh_ids m5) /\
                (shardsOk m2 -> shardsOk m5) /\
                nodeShardMap_ m5 !! nodeID = Some sid /\
                nextShardID_ m5 = nextShardID_ m2 /\
                nodeLocationMap_ m5 = nodeLocationMap_ m2 /\
                nodeReputationMap_ m5 = nodeReputationMap_ m2 /\
                totalJoins_ m5 = totalJoins_ m2 /\
                totalLeaves_ m5 = totalLeaves_ m2 /\
                totalSplits_ m5 = totalSplits_ m2).
  { subst m5. destruct (string_empty _).
    - destruct (electLeader_nodeInfo sid now m4) as (-> & -> & -> & ->).
      destruct (electLeader_frame sid now m4) as (-> & -> & _ & _ & -> & _).
      split; [by apply electLeader_placed|].
      split; [intros; by apply electLeader_fresh, Hfresh4|].
      split; [intros; by apply electLeader_ok, Hok4|].
      split; [done|]. subst m4. simpl. by rewrite T3, T4, T5, T6, T7, T8.
    - do 4 (split; [done|]). subst m4. simpl. by rewrite T3, T4, T5, T6, T7, T8. }
  destruct Hm5 as (Hp5 & Hfresh5 & Hok5 & Hmap5 & Hnext5 & H1 & H2 & H3 & H4 & H5).
  assert (Hnew : nodeShardMap_ m5 !! nodeID <> Some (nextShardID_ m5)).
  { rewrite Hmap5, Hnext5. intros [= ->]. lia. }
  destruct (shouldSplitShard sid m5).
  - destruct (splitShard_keeps sid now m5) as (S1 & S2 & S3 & S4 & S5 & S6 & S7 & S8).
    cbn [nodeLocationMap_ nodeReputationMap_ totalJoins_ totalLeaves_ totalSplits_ count].
    rewrite S1, S2, S3, S4, H1, H2, H3, H4, !Z.add_0_r.
    do 4 (split; [done|]). split; [by apply (S7 nodeID)|].
    split; [|split; [intros; by apply S5, Hfresh5|intros; by apply S6, Hok5]].
    intros Hsplits. change (nodeShardMap_ (splitShard sid now m5) !! nodeID = Some sid).
    destruct S8 as [->|Hplus]; [done|lia].
  - cbn [nodeLocationMap_ nodeReputationMap_ totalJoins_ totalLeaves_ totalSplits_ count].
    rewrite H1, H2, H3, H4, !Z.add_0_r.
    do 4 (split; [done|]). split; [exact Hp5|].
    split; [intros _; exact Hmap5|]. split; [exact Hfresh5|exact Hok5].
Qed.

(** [addNode] for a node that is not assigned yet, in a manager whose
    shard ids were handed out by the counter. *)
Lemma addNode_unplaced_keeps (nodeID : NodeID) (location : GeoCoord.t)
    (reputation : ReputationScore) (now : simtime_t) (m : t) :
  fresh_ids m ->
  nodeShardMap_ m !! nodeID = None ->
  let r := addNode nodeID location reputation now m in
  placed nodeID r.2 /\
  nodeLocationMap_ r.2 = <[nodeID := location]> (nodeLocationMap_ m) /\
  nodeReputationMap_ r.2 = <[nodeID := reputation]> (nodeReputationMap_ m) /\
  totalJoins_ r.2 = totalJoins_ m + 1 /\
  totalLeaves_ r.2 = totalLeaves_ m /\
  (totalSplits_ r.2 = totalSplits_ m -> nodeShardMap_ r.2 !! nodeID = Some r.1) /\
  fresh_ids r.2 /\
  (shardsOk m -> shardsOk r.2).
Proof.
  intros Hfresh Hnew. rewrite addNode_unplaced by done. cbv zeta.
  set (m1 := with_nodeInfo _ _ m).
  set (found := getShardForLocation location m1).
  set (chosen := if found =? -1 then _ else _).
  assert (Hchosen : chosen.1 < nextShardID_ chosen.2 /\
                    fresh_ids chosen.2 /\
                    (shardsOk m -> shardsOk chosen.2) /\
                    nodeLocationMap_ chosen.2 = <[nodeID := location]> (nodeLocationMap_ m) /\
                    nodeReputationMap_ chosen.2
                    = <[nodeID := reputation]> (nodeReputationMap_ m) /\
                    totalJoins_ chosen.2 = totalJoins_ m /\
                    totalLeaves_ chosen.2 = totalLeaves_ m /\
                    totalSplits_ chosen.2 = totalSplits_ m).
  { subst chosen. destruct (Z.eqb_spec found (-1)) as [Hminus|Hminus].
    - unfold createShard. cbn [fst snd].
      assert (Hfresh' : fresh_ids (with_shards
                 (insert (nextShardID_ m1)
                    (ShardInfo.mk (nextShardID_ m1) REGIONAL location (shardRadius_ m1)
                                  ∅ "" 0 now))
                 (with_nextShardID (nextShardID_ m1 + 1) m1))).
      { intros k Hk. simpl in *. destruct (decide (nextShardID_ m = k)) as [<-|Hne]; [lia|].
        rewrite lookup_insert_ne in Hk by done. specialize (Hfresh k Hk). lia. }
      split; [simpl; lia|]. split; [exact Hfresh'|]. split; [|done].
      intros [_ Hok]. split; [exact Hfresh'|].
      intros n' Hsome. destruct (Hok n' Hsome) as (s0 & sh & Hs0 & Hsh & Hin).
      exists s0, sh. simpl. split; [done|]. split; [|done].
      rewrite lookup_insert_ne; [done|]. assert (s0 < nextShardID_ m) by (apply Hfresh; eauto).
      lia.
    - cbn [fst snd]. split; [|done].
      destruct (getShardForLocation_spec location m1) as [|Hacc]; [done|].
      fold found in Hacc. unfold canAcceptMember in Hacc.
      apply Hfresh. change (shards_ m1) with (shards_ m) in Hacc.
      destruct (shards_ m !! found); [eauto|done]. }
  destruct Hchosen as (Hlt & Hfresh2 & Hok2 & N1 & N2 & N3 & N4 & N5).
  destruct (joinShard_keeps nodeID chosen.1 now chosen.2 Hlt)
    as (J1 & J2 & J3 & J4 & J5 & J6 & J7 & J8).
  cbn [fst snd]. rewrite J1, J2, J3, J4, N1, N2, N3, N4.
  split; [done|]. do 4 (split; [done|]). split; [|split; [by apply J7|]].
  - intros Hsplits. apply J6. by rewrite N5.
  - intros Hok. by apply J8, Hok2.
Qed.

(** [findNearestShard] returns -1 or the id of a shard in the table. *)
Lemma findNearestShard_spec (location : GeoCoord.t) (m : t) :
  findNearestShard location m = -1 \/
  is_Some (shards_ m !! findNearestShard location m).
Proof.
  unfold findNearestShard.
  match goal with |- context [foldl ?f ?a ?l] =>
    apply (foldl_keeps_elem (fun acc => acc.1 = -1 \/ is_Some (shards_ m !! acc.1)) f l a)
  end.
  - intros acc [k v] Hin Hacc. apply map_in_order_elem in Hin.
    simpl. destruct (PrimFloat.ltb _ _); simpl; eauto.
  - by left.
Qed.

(** The loop of [mergeShard]: every node of the list ends up assigned to
    the target shard and listed there; the others keep their entry; no
    shard loses a member. *)
Lemma mergeShard_loop (target : ShardID) (l : list NodeID) (acc : t) :
  is_Some (shards_ acc !! target) ->
  let step := fun acc nodeID =>
    with_nodeShardMap (insert nodeID target)
      (with_shards (alter (set_members (fun s => s ∪ {[nodeID]})) target) acc) in
  let r := foldl step acc l in
  nodeLocationMap_ r = nodeLocationMap_ acc /\
  nodeReputationMap_ r = nodeReputationMap_ acc /\
  totalJoins_ r = totalJoins_ acc /\
  totalLeaves_ r = totalLeaves_ acc /\
  nextShardID_ r = nextShardID_ acc /\
  (forall k, is_Some (shards_ r !! k) <-> is_Some (shards_ acc !! k)) /\
  (forall k sh, shards_ acc !! k = Some sh ->
     exists sh', shards_ r !! k = Some sh' /\ ShardInfo.members sh ⊆ ShardInfo.members sh') /\
  (forall nodeID, nodeID ∈ l ->
     nodeShardMap_ r !! nodeID = Some target /\
     exists sh', shards_ r !! target = Some sh' /\ nodeID ∈ ShardInfo.members sh') /\
  (forall nodeID, nodeID ∉ l -> nodeShardMap_ r !! nodeID = nodeShardMap_ acc !! nodeID).
Proof.
  intros Htarget step. revert acc Htarget.
  induction l as [|x l IH]; intros acc Htarget; simpl.
  - do 5 (split; [done|]). split; [done|]. split; [by eauto|].
    split; [|done]. intros nodeID Hin. by apply elem_of_nil in Hin.
  - assert (Htarget' : is_Some (shards_ (step acc x) !! target))
      by (simpl; by rewrite alter_is_Some).
    destruct (IH (step acc x) Htarget') as (H1 & H2 & H3 & H4 & H5 & H6 & H7 & H8 & H9).
    rewrite H1, H2, H3, H4, H5. do 5 (split; [done|]).
    assert (Hmono : forall k sh, shards_ acc !! k = Some sh ->
              exists sh', shards_ (foldl step (step acc x) l) !! k = Some sh' /\
                          ShardInfo.members sh ⊆ ShardInfo.members sh').
    { intros k sh Hk.
      destruct (alter_members_lookup (fun s => s ∪ {[x]}) target k _ _ Hk)
        as (sh1 & Hsh1 & Hmem1).
      destruct (H7 k sh1 Hsh1) as (sh' & Hsh' & Hsub). exists sh'. split; [done|].
      etrans; [|exact Hsub]. rewrite Hmem1.
      destruct (decide (target = k)); [apply union_subseteq_l|done]. }
    split; [|split; [exact Hmono|split]].
    + intros k. rewrite H6. simpl. apply alter_is_Some.
    + intros nodeID Hin. destruct (decide (nodeID ∈ l)) as [Hl|Hl]; [by apply H8|].
      apply elem_of_cons in Hin as [->|Hin]; [|done].
      rewrite H9 by done. simpl. rewrite lookup_insert_eq. split; [done|].
      destruct Htarget as [sht Hsht].
      destruct (alter_members_lookup (fun s => s ∪ {[x]}) target target _ _ Hsht)
        as (sh1 & Hsh1 & Hmem1).
      destruct (H7 target sh1 Hsh1) as (sh' & Hsh' & Hsub). exists sh'. split; [done|].
      apply Hsub. rewrite Hmem1, decide_True by done.
      apply elem_of_union_r, elem_of_singleton. done.
    + intros nodeID Hin. apply not_elem_of_cons in Hin as [Hne Hin].
      rewrite H9 by done. simpl. by rewrite lookup_insert_ne.
Qed.

(** What a merge keeps. *)
Lemma mergeShard_keeps (sid : ShardID) (now : simtime_t) (m : t) (shard : ShardInfo.t) :
  shards_ m !! sid = Some shard ->
  nodeLocationMap_ (mergeShard sid now m) = nodeLocationMap_ m /\
  nodeReputationMap_ (mergeShard sid now m) = nodeReputationMap_ m /\
  totalJoins_ (mergeShard sid now m) = totalJoins_ m /\
  totalLeaves_ (mergeShard sid now m) = totalLeaves_ m /\
  (forall nodeID, nodeID ∉ ShardInfo.members shard ->
     nodeShardMap_ (mergeShard sid now m) !! nodeID = nodeShardMap_ m !! nodeID) /\
  (shards_ (mergeShard sid now m) !! sid = Some shard \/
   shards_ (mergeShard sid now m) !! sid = None) /\
  (shardsOk m -> shardsOk (mergeShard sid now m)).
Proof.
  intros Hsid. unfold mergeShard. rewrite Hsid.
  set (target := findNearestShard (ShardInfo.centerPoint shard) m).
  destruct (Z.eqb_spec target (-1)) as [Hminus|Hminus]; [by eauto 10|].
  destruct (Z.eqb_spec target sid) as [Hsame|Hsame]; [by eauto 10|]. cbn [orb].
  assert (Htarget : is_Some (shards_ m !! target)).
  { destruct (findNearestShard_spec (ShardInfo.centerPoint shard) m); done. }
  rewrite touchShard_present by done.
  destruct (mergeShard_loop target (set_in_order (ShardInfo.members shard)) m Htarget)
    as (H1 & H2 & H3 & H4 & H5 & H6 & H7 & H8 & H9).
  cbv zeta in H1, H2, H3, H4, H5, H6, H7, H8, H9.
  match goal with |- context [foldl ?f m ?l] => set (m2 := foldl f m l) in * end.
  set (m3 := with_shards (delete sid) m2).
  set (m4 := electLeader target now m3).
  destruct (electLeader_nodeInfo target now m3) as (E1 & E2 & E3 & E4).
  destruct (electLeader_frame target now m3) as (G1 & G2 & _).
  fold m4 in E1, E2, E3, E4, G1, G2.
  cbn [nodeLocationMap_ nodeReputationMap_ totalJoins_ totalLeaves_ nodeShardMap_ shards_
       count].
  rewrite E1, E2, E3, E4, G1, !Z.add_0_r.
  do 4 (split; [done|]). split; [|split].
  - intros nodeID Hin. apply H9. by rewrite set_in_order_elem.
  - right. unfold m4. rewrite electLeader_lookup_ne by done.
    subst m3. simpl. apply lookup_delete_eq.
  - intros [Hfresh Hok].
    assert (Hkeep : forall nodeID, placed nodeID m3 -> placed nodeID (count 0 0 0 1 m4)).
    { intros nodeID Hp. by apply (electLeader_placed nodeID target now m3). }
    split.
    + intros k Hk. change (is_Some (shards_ m4 !! k)) in Hk.
      change (k < nextShardID_ m4). rewrite G2.
      apply electLeader_is_Some in Hk. change (nextShardID_ m3) with (nextShardID_ m2).
      rewrite H5. apply Hfresh. apply H6.
      subst m3. simpl in Hk. destruct (decide (sid = k)) as [->|Hne].
      * rewrite lookup_delete_eq in Hk. by destruct Hk.
      * by rewrite lookup_delete_ne in Hk.
    + intros nodeID Hsome. change (is_Some (nodeShardMap_ m4 !! nodeID)) in Hsome.
      rewrite G1 in Hsome. change (nodeShardMap_ m3) with (nodeShardMap_ m2) in Hsome.
      apply Hkeep.
      destruct (decide (nodeID ∈ ShardInfo.members shard)) as [Hin|Hin].
      * apply set_in_order_elem, H8 in Hin as (Hmap & sh' & Hsh' & Hmem).
        exists target, sh'. subst m3. simpl. rewrite lookup_delete_ne by done. done.
      * rewrite H9 in Hsome by (by rewrite set_in_order_elem).
        destruct (Hok nodeID Hsome) as (s0 & sh0 & Hs0 & Hsh0 & Hmem0).
        assert (s0 <> sid) as Hne by (intros ->; congruence).
        destruct (H7 s0 sh0 Hsh0) as (sh' & Hsh' & Hsub).
        exists s0, sh'. subst m3. simpl. rewrite lookup_delete_ne by done.
        rewrite H9 by (by rewrite set_in_order_elem). split; [done|]. split; [done|].
        by apply Hsub.
Qed.

(** [removeNode] for an assigned node. *)
Lemma removeNode_keeps (nodeID : NodeID) (sid : ShardID) (now : simtime_t) (m : t) :
  nodeShardMap_ m !! nodeID = Some sid ->
  nodeShardMap_ (removeNode nodeID now m) !! nodeID = None /\
  nodeLocationMap_ (removeNode nodeID now m) = delete nodeID (nodeLocationMap_ m) /\
  nodeReputationMap_ (removeNode nodeID now m) = delete nodeID (nodeReputationMap_ m) /\
  totalJoins_ (removeNode nodeID now m) = totalJoins_ m /\
  totalLeaves_ (removeNode nodeID now m) = totalLeaves_ m + 1 /\
  (forall shard, shards_ (removeNode nodeID now m) !! sid = Some shard ->
                 nodeID ∉ ShardInfo.members shard) /\
  (shardsOk m -> shardsOk (removeNode nodeID now m)).
Proof.
  intros Hplaced. unfold removeNode. rewrite Hplaced.
  destruct (touchShard_frame sid m) as ([sh1 Hsh1] & T1 & T1' & T2 & T3 & T4 & T5 & T6 & T7 & T8).
  set (m1 := touchShard sid m) in *.
  set (g := fun s => set_lastUpdate now (set_members (fun ms => ms ∖ {[nodeID]}) s)).
  set (m2 := with_shards (alter g sid) m1).
  set (left := ShardInfo.members sh1 ∖ {[nodeID]}).
  set (m3 := if String.eqb _ _ then _ else _).
  assert (Hm3 : (forall k, k <> sid -> shards_ m3 !! k = shards_ m1 !! k) /\
                ShardInfo.members <$> shards_ m3 !! sid = Some left /\
                nodeShardMap_ m3 = nodeShardMap_ m /\
                nodeLocationMap_ m3 = nodeLocationMap_ m /\
                nodeReputationMap_ m3 = nodeReputationMap_ m /\
                nextShardID_ m3 = nextShardID_ m /\
                totalJoins_ m3 = totalJoins_ m /\
                totalLeaves_ m3 = totalLeaves_ m).
  { assert (Hm2 : (forall k, k <> sid -> shards_ m2 !! k = shards_ m1 !! k) /\
                  ShardInfo.members <$> shards_ m2 !! sid = Some left).
    { subst m2. simpl. split.
      - intros k Hk. by rewrite lookup_alter_ne.
      - rewrite lookup_alter_eq, Hsh1. done. }
    destruct Hm2 as [Hm2 Hleft2].
    subst m3. destruct (String.eqb _ _); [|by rewrite <- T2, <- T3, <- T4, <- T5, <- T6, <- T7].
    set (m' := with_shards (alter (set_leader "") sid) m2).
    assert (Hm' : (forall k, k <> sid -> shards_ m' !! k = shards_ m1 !! k) /\
                  ShardInfo.members <$> shards_ m' !! sid = Some left).
    { change (shards_ m') with (alter (set_leader "") sid (shards_ m2)). split.
      - intros k Hk. rewrite lookup_alter_ne by done. by apply Hm2.
      - rewrite lookup_alter_eq. destruct (shards_ m2 !! sid); [|done].
        simpl in *. done. }
    destruct Hm' as [Hm' Hleft'].
    destruct (negb _); [|by rewrite <- T2, <- T3, <- T4, <- T5, <- T6, <- T7].
    rewrite electLeader_members.
    destruct (electLeader_nodeInfo sid now m') as (-> & -> & -> & ->).
    destruct (electLeader_frame sid now m') as (-> & -> & _).
    split; [|by rewrite <- T2, <- T3, <- T4, <- T5, <- T6, <- T7].
    intros k Hk. rewrite electLeader_lookup_ne by done. by apply Hm'. }
  destruct Hm3 as (Hother & Hleft & Hmap & Hloc & Hrep & Hnext & Hjoins & Hleaves).
  apply fmap_Some in Hleft as (sh3 & Hsh3 & Hmem3).
  set (m4 := with_nodeInfo _ _ _).
  assert (Hat : shardAt sid m4 = sh3) by (unfold shardAt; subst m4; simpl; by rewrite Hsh3).
  assert (Hnot : nodeID ∉ ShardInfo.members sh3).
  { rewrite <- Hmem3. subst left. rewrite elem_of_difference, elem_of_singleton.
    intros [_ Hne]. done. }
  assert (Hok4 : shardsOk m -> shardsOk m4).
  { intros [Hfresh Hok].
    assert (touchShard sid m = m) as Htouch.
    { apply touchShard_present. destruct (Hok nodeID) as (s0 & sh0 & Hs0 & Hsh0 & _); [eauto|].
      rewrite Hplaced in Hs0. injection Hs0 as <-. eauto. }
    fold m1 in Htouch. split.
    - intros k Hk. change (is_Some (shards_ m3 !! k)) in Hk.
      change (k < nextShardID_ m3). rewrite Hnext. apply Hfresh.
      destruct (decide (k = sid)) as [->|Hne].
      + rewrite <- Htouch. eauto.
      + rewrite Hother, Htouch in Hk by done. done.
    - intros n' Hsome. change (is_Some (delete nodeID (nodeShardMap_ m3) !! n')) in Hsome.
      destruct (decide (nodeID = n')) as [->|Hne].
      { rewrite lookup_delete_eq in Hsome. by destruct Hsome. }
      rewrite lookup_delete_ne, Hmap in Hsome by done.
      destruct (Hok n' Hsome) as (s0 & sh0 & Hs0 & Hsh0 & Hmem0).
      destruct (decide (s0 = sid)) as [->|Hs].
      + exists sid, sh3. subst m4. simpl. rewrite lookup_delete_ne, Hmap by done.
        split; [done|]. split; [done|]. rewrite <- Hmem3. subst left.
        rewrite elem_of_difference, elem_of_singleton.
        rewrite <- Htouch in Hsh0. fold m1 in Hsh0. rewrite Hsh1 in Hsh0.
        injection Hsh0 as ->. split; [done|congruence].
      + exists s0, sh0. subst m4. simpl. rewrite lookup_delete_ne, Hmap by done.
        split; [done|]. split; [|done]. rewrite Hother, Htouch by done. done. }
  assert (Hm4 : nodeShardMap_ m4 !! nodeID = None /\
                nodeLocationMap_ m4 = delete nodeID (nodeLocationMap_ m) /\
                nodeReputationMap_ m4 = delete nodeID (nodeReputationMap_ m) /\
                totalJoins_ m4 = totalJoins_ m /\
                totalLeaves_ m4 = totalLeaves_ m /\
                shards_ m4 !! sid = Some sh3).
  { subst m4. simpl. rewrite lookup_delete_eq, Hloc, Hrep. done. }
  destruct Hm4 as (M1 & M2 & M3 & M4 & M5 & M6).
  rewrite Hat.
  destruct (Nat.eqb_spec (size (ShardInfo.members sh3)) 0) as [Hzero|Hzero].
  - cbn [nodeLocationMap_ nodeReputationMap_ totalJoins_ totalLeaves_ nodeShardMap_ shards_
         count with_shards].
    rewrite M1, M2, M3, M4, M5, !Z.add_0_r, lookup_delete_eq.
    do 5 (split; [done|]). split; [done|].
    intros Hok. destruct (Hok4 Hok) as [Hfresh4 Hplaced4]. split.
    + intros k Hk. apply Hfresh4. simpl in Hk.
      destruct (decide (sid = k)) as [->|Hne].
      * rewrite lookup_delete_eq in Hk. by destruct Hk.
      * by rewrite lookup_delete_ne in Hk.
    + intros n' Hsome. destruct (Hplaced4 n' Hsome) as (s0 & sh0 & Hs0 & Hsh0 & Hmem0).
      exists s0, sh0. split; [done|]. split; [|done]. simpl.
      rewrite lookup_delete_ne; [done|]. intros <-.
      rewrite M6 in Hsh0. injection Hsh0 as <-.
      apply size_empty_inv in Hzero. apply Hzero in Hmem0.
      by apply not_elem_of_empty in Hmem0.
  - destruct (shouldMergeShard sid m4).
    + destruct (mergeShard_keeps sid now m4 sh3 M6) as (G1 & G2 & G3 & G4 & G5 & G6 & G7).
      cbn [nodeLocationMap_ nodeReputationMap_ totalJoins_ totalLeaves_ nodeShardMap_
           shards_ count].
      rewrite G1, G2, G3, G4, G5, M1, M2, M3, M4, M5, !Z.add_0_r by done.
      do 5 (split; [done|]). split.
      * intros shard Hshard. destruct G6 as [G6|G6]; rewrite G6 in Hshard; [|done].
        by injection Hshard as <-.
      * intros Hok. by apply G7, Hok4.
    + cbn [nodeLocationMap_ nodeReputationMap_ totalJoins_ totalLeaves_ nodeShardMap_
           shards_ count].
      rewrite M1, M2, M3, M4, M5, M6, !Z.add_0_r.
      do 5 (split; [done|]). split; [|exact Hok4].
      intros shard [= <-]. done.
Qed.

(** The invariant of the shard tables holds of every manager that the
    public operations build. *)
Lemma reachable_shardsOk (m : t) : ShardsReachable m -> shardsOk m.
Proof.
  induction 1 as [|radius lo hi m _ IH|nodeID location reputation now m _ IH
                  |nodeID now m _ IH|nodeID location now m _ IH].
  - split.
    + intros k [sh Hk]. simpl in Hk. by rewrite lookup_empty in Hk.
    + intros nodeID [s Hs]. simpl in Hs. by rewrite lookup_empty in Hs.
  - exact IH.
  - destruct (nodeShardMap_ m !! nodeID) as [sid|] eqn:Hmap.
    + unfold addNode. by rewrite Hmap.
    + destruct IH as [Hfresh Hok].
      by apply (addNode_unplaced_keeps nodeID location reputation now m Hfresh Hmap).
  - destruct (nodeShardMap_ m !! nodeID) as [sid|] eqn:Hmap.
    + by apply (removeNode_keeps nodeID sid now m Hmap).
    + unfold removeNode. by rewrite Hmap.
  - unfold updateNodeLocation.
    destruct (nodeShardMap_ m !! nodeID) as [sid|] eqn:Hmap; [|done].
    set (m1 := with_nodeInfo _ _ m).
    assert (Hok1 : shardsOk m1) by exact IH.
    assert (Htouch : touchShard sid m1 = m1).
    { apply touchShard_present. destruct IH as [_ Hok].
      destruct (Hok nodeID) as (s0 & sh0 & Hs0 & Hsh0 & _); [eauto|].
      rewrite Hmap in Hs0. injection Hs0 as <-. eauto. }
    rewrite Htouch. destruct (ShardInfo.contains _ _); [done|].
    assert (Hmap1 : nodeShardMap_ m1 !! nodeID = Some sid) by done.
    destruct (removeNode_keeps nodeID sid now m1 Hmap1) as (R1 & _ & _ & _ & _ & _ & R7).
    specialize (R7 Hok1). set (m3 := removeNode nodeID now m1) in *.
    assert (Hok4 : shardsOk (touchReputation nodeID m3)).
    { unfold touchReputation. by destruct (nodeReputationMap_ m3 !! nodeID). }
    assert (Hmap4 : nodeShardMap_ (touchReputation nodeID m3) !! nodeID = None).
    { unfold touchReputation. by destruct (nodeReputationMap_ m3 !! nodeID). }
    destruct Hok4 as [Hfresh4 Hok4'].
    by apply (addNode_unplaced_keeps nodeID location _ now _ Hfresh4 Hmap4).
Qed.

(** X22.  [updateNodeLocation] of a node that is not assigned returns -1
    and changes nothing; for a node whose shard still contains the new
    location it returns the node's shard and only overwrites the stored
    location. *)
Theorem updateNodeLocation_stays (nodeID : NodeID) (newLocation : GeoCoord.t)
    (now : simtime_t) (m : t) :
  (nodeShardMap_ m !! nodeID = None ->
   updateNodeLocation nodeID newLocation now m = (-1, m)) /\
  (forall sid shard,
     nodeShardMap_ m !! nodeID = Some sid ->
     shards_ m !! sid = Some shard ->
     ShardInfo.contains shard newLocation = true ->
     updateNodeLocation nodeID newLocation now m
     = (sid, with_nodeInfo (insert nodeID newLocation) (fun r => r) m)).
Proof.
  unfold updateNodeLocation. split.
  - by intros ->.
  - intros sid shard -> Hshard Hin.
    set (m1 := with_nodeInfo _ _ m).
    rewrite touchShard_present by (simpl; eauto).
    assert (shardAt sid m1 = shard) as -> by (unfold shardAt; simpl; by rewrite Hshard).
    by rewrite Hin.
Qed.

(** X23.  When an assigned node moves out of its shard,
    [updateNodeLocation] removes it and adds it again: it is assigned to
    a shard that lists it, its stored location is the new one, one leave
    and one join are counted, and its stored reputation is 0.0 whatever
    it was before, because [removeNode] erases the reputation entry
    before it is read. *)
Theorem updateNodeLocation_resets_reputation (nodeID : NodeID)
    (newLocation : GeoCoord.t) (now : simtime_t) (m : t)
    (sid : ShardID) (shard : ShardInfo.t) :
  shardsOk m ->
  nodeShardMap_ m !! nodeID = Some sid ->
  shards_ m !! sid = Some shard ->
  ShardInfo.contains shard newLocation = false ->
  nodeReputationMap_ (updateNodeLocation nodeID newLocation now m).2 !! nodeID
  = Some 0.0%float /\
  nodeLocationMap_ (updateNodeLocation nodeID newLocation now m).2 !! nodeID
  = Some newLocation /\
  placed nodeID (updateNodeLocation nodeID newLocation now m).2 /\
  totalLeaves_ (updateNodeLocation nodeID newLocation now m).2 = totalLeaves_ m + 1 /\
  totalJoins_ (updateNodeLocation nodeID newLocation now m).2 = totalJoins_ m + 1.
Proof.
  intros Hok Hmap Hshard Hout. unfold updateNodeLocation. rewrite Hmap.
  set (m1 := with_nodeInfo _ _ m).
  assert (Hok1 : shardsOk m1) by exact Hok.
  rewrite touchShard_present by (simpl; eauto).
  assert (shardAt sid m1 = shard) as -> by (unfold shardAt; simpl; by rewrite Hshard).
  rewrite Hout.
  assert (Hmap1 : nodeShardMap_ m1 !! nodeID = Some sid) by done.
  destruct (removeNode_keeps nodeID sid now m1 Hmap1) as (R1 & R2 & R3 & R4 & R5 & _ & R7).
  specialize (R7 Hok1). set (m3 := removeNode nodeID now m1) in *.
  assert (Hrep3 : nodeReputationMap_ m3 !! nodeID = None)
    by (rewrite R3; apply lookup_delete_eq).
  unfold touchReputation. rewrite Hrep3.
  set (m4 := with_nodeInfo _ _ m3).
  assert (nodeReputationMap_ m4 !! nodeID = Some 0.0%float) as ->
    by (subst m4; simpl; apply lookup_insert_eq).
  assert (Hmap4 : nodeShardMap_ m4 !! nodeID = None) by exact R1.
  assert (Hfresh4 : fresh_ids m4) by (destruct R7 as [Hfresh _]; exact Hfresh).
  destruct (addNode_unplaced_keeps nodeID newLocation 0.0%float now m4 Hfresh4 Hmap4)
    as (A1 & A2 & A3 & A4 & A5 & _).
  rewrite A2, A3, A4, A5, !lookup_insert_eq.
  split; [done|]. split; [done|]. split; [done|].
  change (totalLeaves_ m4) with (totalLeaves_ m3).
  change (totalJoins_ m4) with (totalJoins_ m3).
  rewrite R4, R5. done.
Qed.

(** X24.  After [removeNode] of an assigned node the manager holds no
    shard, location or reputation entry for it, the shard it was
    assigned to (if it is still there) does not list it, and one leave
    is counted; the location and reputation tables lose that entry only. *)
Theorem removeNode_forgets (nodeID : NodeID) (sid : ShardID) (now : simtime_t) (m : t) :
  nodeShardMap_ m !! nodeID = Some sid ->
  nodeShardMap_ (removeNode nodeID now m) !! nodeID = None /\
  nodeLocationMap_ (removeNode nodeID now m) = delete nodeID (nodeLocationMap_ m) /\
  nodeReputationMap_ (removeNode nodeID now m) = delete nodeID (nodeReputationMap_ m) /\
  totalJoins_ (removeNode nodeID now m) = totalJoins_ m /\
  totalLeaves_ (removeNode nodeID now m) = totalLeaves_ m + 1 /\
  (forall shard, shards_ (removeNode nodeID now m) !! sid = Some shard ->
                 nodeID ∉ ShardInfo.members shard).
Proof.
  intros Hmap.
  destruct (removeNode_keeps nodeID sid now m Hmap) as (R1 & R2 & R3 & R4 & R5 & R6 & _).
  done.
Qed.

(** X25.  [addNode] of a node that is not assigned yet, in a manager
    whose shard ids were handed out by the counter, leaves the node
    assigned to a shard that exists and lists it, stores the location and
    the reputation passed, and counts one join and no leave; the
    returned id is the shard recorded for the node unless the join
    caused a split. *)
Theorem addNode_places (nodeID : NodeID) (location : GeoCoord.t)
    (reputation : ReputationScore) (now : simtime_t) (m : t) :
  fresh_ids m ->
  nodeShardMap_ m !! nodeID = None ->
  placed nodeID (addNode nodeID location reputation now m).2 /\
  nodeLocationMap_ (addNode nodeID location reputation now m).2
  = <[nodeID := location]> (nodeLocationMap_ m) /\
  nodeReputationMap_ (addNode nodeID location reputation now m).2
  = <[nodeID := reputation]> (nodeReputationMap_ m) /\
  totalJoins_ (addNode nodeID location reputation now m).2 = totalJoins_ m + 1 /\
  totalLeaves_ (addNode nodeID location reputation now m).2 = totalLeaves_ m /\
  (totalSplits_ (addNode nodeID location reputation now m).2 = totalSplits_ m ->
   nodeShardMap_ (addNode nodeID location reputation now m).2 !! nodeID
   = Some (addNode nodeID location reputation now m).1).
Proof.
  intros Hfresh Hmap.
  destruct (addNode_unplaced_keeps nodeID location reputation now m Hfresh Hmap)
    as (A1 & A2 & A3 & A4 & A5 & A6 & _).
  done.
Qed.

(** X26.  In every manager built from a fresh one by [initialize],
    [addNode], [removeNode] and [updateNodeLocation], each assigned node
    is a member of the shard recorded for it, that shard exists, and
    every shard id in use is below [nextShardID_]. *)
Theorem shards_invariant (m : t) :
  ShardsReachable m ->
  (forall shardID, is_Some (shards_ m !! shardID) -> shardID < nextShardID_ m) /\
  (forall nodeID shardID,
     nodeShardMap_ m !! nodeID = Some shardID ->
     exists shard, shards_ m !! shardID = Some shard /\
                   nodeID ∈ ShardInfo.members shard).
Proof.
  intros Hreach. destruct (reachable_shardsOk m Hreach) as [Hfresh Hok].
  split; [exact Hfresh|].
  intros nodeID shardID Hmap.
  destruct (Hok nodeID) as (s0 & sh0 & Hs0 & Hsh0 & Hin); [eauto|].
  rewrite Hmap in Hs0. injection Hs0 as <-. eauto.
Qed.

(** Where a split leaves a node's assignment: as it was, or at the shard
    the split created. *)
Lemma splitShard_assignment (sid : ShardID) (now : simtime_t) (m : t) (nodeID : NodeID) :
  nodeShardMap_ (splitShard sid now m) !! nodeID = nodeShardMap_ m !! nodeID \/
  nodeShardMap_ (splitShard sid now m) !! nodeID = Some (nextShardID_ m).
Proof.
  unfold splitShard.
  destruct (shards_ m !! sid) as [orig|]; [|by left].
  destruct (_ <=? _); [by left|]. unfold createShard. simpl.
  set (n := nextShardID_ m) in *.
  set (m1 := with_shards _ _).
  rewrite touchShard_present by (subst m1; simpl; rewrite lookup_insert_eq; eauto).
  match goal with |- context [foldl ?f m1 ?l] => set (m3 := foldl f m1 l) end.
  destruct (electLeader_frame n now (electLeader sid now m3)) as (-> & _).
  destruct (electLeader_frame sid now m3) as (-> & _).
  subst m3.
  apply (foldl_keeps
           (fun acc => nodeShardMap_ acc !! nodeID = nodeShardMap_ m !! nodeID \/
                       nodeShardMap_ acc !! nodeID = Some n)).
  - intros acc x Hacc. simpl. destruct (decide (x = nodeID)) as [->|Hne].
    + right. apply lookup_insert_eq.
    + by rewrite lookup_insert_ne.
  - by left.
Qed.

(** Where [addNode] records a node that was not assigned: at the shard
    whose id it returns, or at a shard created by the split that the
    join caused. *)
Lemma addNode_assignment (nodeID : NodeID) (location : GeoCoord.t)
    (reputation : ReputationScore) (now : simtime_t) (m : t) :
  nodeShardMap_ m !! nodeID = None ->
  nodeShardMap_ (addNode nodeID location reputation now m).2 !! nodeID
  = Some (addNode nodeID location reputation now m).1 \/
  exists k, nodeShardMap_ (addNode nodeID location reputation now m).2 !! nodeID = Some k /\
            nextShardID_ m <= k.
Proof.
  intros Hnew. rewrite addNode_unplaced by done. cbv zeta.
  set (m1 := with_nodeInfo _ _ m).
  set (found := getShardForLocation location m1).
  set (chosen := if found =? -1 then _ else _).
  assert (Hnext : nextShardID_ m <= nextShardID_ chosen.2).
  { subst chosen. destruct (found =? -1); simpl; lia. }
  cbn [fst snd]. unfold joinShard.
  destruct (touchShard_frame chosen.1 chosen.2) as (_ & _ & _ & T2 & _ & _ & T5 & _).
  set (m3 := touchShard chosen.1 chosen.2) in *.
  set (m4 := with_nodeShardMap _ _).
  assert (Hmap4 : nodeShardMap_ m4 !! nodeID = Some chosen.1)
    by (subst m4; simpl; by rewrite lookup_insert_eq).
  assert (Hnext4 : nextShardID_ m4 = nextShardID_ chosen.2) by exact T5.
  set (m5 := if string_empty _ then _ else _).
  assert (Hm5 : nodeShardMap_ m5 !! nodeID = Some chosen.1 /\
                nextShardID_ m5 = nextShardID_ chosen.2).
  { subst m5. destruct (string_empty _); [|done].
    by destruct (electLeader_frame chosen.1 now m4) as (-> & -> & _). }
  destruct Hm5 as [Hmap5 Hnext5].
  destruct (shouldSplitShard chosen.1 m5); [|by left].
  change (nodeShardMap_ (count 1 0 0 0 (splitShard chosen.1 now m5)))
    with (nodeShardMap_ (splitShard chosen.1 now m5)).
  destruct (splitShard_assignment chosen.1 now m5 nodeID) as [Hkept|Hmoved].
  - left. by rewrite Hkept.
  - right. exists (nextShardID_ m5). split; [done|]. lia.
Qed.

(** C9 (as the code has it).  Let shard [s] hold exactly
    [maxShardSize_] members, in a manager whose shard ids were handed
    out by [nextShardID_].  Adding a node that is not placed yet never
    puts it into [s]: the node is assigned to a shard other than [s]
    that exists and lists it (the shard whose id is returned, when the
    bound is at least 1), [s] keeps its record and does not meet the
    split condition, and no split is counted when the bound is at least
    1.  Removing a member of [s], the count staying at or above a
    non-negative [minShardSize_], counts neither a split nor a merge,
    creates no shard, leaves every other shard and every other node's
    assignment alone, and [s] (with the member taken out, or erased when
    it became empty) meets neither the merge nor the split condition. *)
Theorem full_shard_join_and_leave (m : t) (s : ShardID) (shard : ShardInfo.t) :
  shards_ m !! s = Some shard ->
  ShardInfo.getMemberCount shard = maxShardSize_ m ->
  int_range (maxShardSize_ m) ->
  fresh_ids m ->
  (forall nodeID location reputation now,
     nodeShardMap_ m !! nodeID = None ->
     let r := addNode nodeID location reputation now m in
     r.1 <> s /\
     shards_ r.2 !! s = Some shard /\
     shouldSplitShard s r.2 = false /\
     (1 <= maxShardSize_ m -> totalSplits_ r.2 = totalSplits_ m) /\
     (exists shardID joined,
        nodeShardMap_ r.2 !! nodeID = Some shardID /\
        shardID <> s /\
        shards_ r.2 !! shardID = Some joined /\
        nodeID ∈ ShardInfo.members joined) /\
     (1 <= maxShardSize_ m -> nodeShardMap_ r.2 !! nodeID = Some r.1)) /\
  (forall nodeID now,
     nodeShardMap_ m !! nodeID = Some s ->
     0 <= minShardSize_ m <= maxShardSize_ m - 1 ->
     let m' := removeNode nodeID now m in
     totalSplits_ m' = totalSplits_ m /\
     totalMerges_ m' = totalMerges_ m /\
     nextShardID_ m' = nextShardID_ m /\
     (forall k, k <> s -> shards_ m' !! k = shards_ m !! k) /\
     nodeShardMap_ m' = delete nodeID (nodeShardMap_ m) /\
     ShardInfo.members <$> shards_ m' !! s
     = (if (size (ShardInfo.members shard ∖ {[nodeID]}) =? 0)%nat then None
        else Some (ShardInfo.members shard ∖ {[nodeID]})) /\
     shouldMergeShard s m' = false /\
     shouldSplitShard s m' = false).
Proof.
  intros Hs Hfull Hrange Hfresh. split.
  - intros nodeID location reputation now Hnew r.
    destruct (addNode_full_shard m s shard nodeID location reputation now
                Hs Hfull Hrange Hfresh Hnew) as (J1 & J2 & J3 & J4).
    destruct (addNode_unplaced_keeps nodeID location reputation now m Hfresh Hnew)
      as ((shardID & joined & P1 & P2 & P3) & _ & _ & _ & _ & A6 & _).
    fold r in J1, J2, J3, J4, P1, P2, P3, A6.
    do 4 (split; [done|]). split.
    + exists shardID, joined. split; [done|]. split; [|done].
      destruct (addNode_assignment nodeID location reputation now m Hnew)
        as [Hret|(k & Hk & Hle)].
      * fold r in Hret. rewrite P1 in Hret. by injection Hret as ->.
      * fold r in Hk. rewrite P1 in Hk. injection Hk as ->.
        assert (s < nextShardID_ m) by (apply Hfresh; eauto). lia.
    + intros Hpos. apply A6. by apply J4.
  - intros. by apply removeNode_full_shard.
Qed.

(** C9 (witness): in [Scenario.fullShard] shard 0 holds "a" and "b" and
    the bound is 2; "c" joins at the centre of shard 0 and is assigned
    to another shard, "a" leaves. *)
Lemma full_shard_join_and_leave_witness :
  (addNode "c" Scenario.origin 0.5%float 1 Scenario.fullShard).1 <> 0 /\
  shards_ (addNode "c" Scenario.origin 0.5%float 1 Scenario.fullShard).2 !! 0
  = Some Scenario.shard0 /\
  totalSplits_ (addNode "c" Scenario.origin 0.5%float 1 Scenario.fullShard).2
  = totalSplits_ Scenario.fullShard /\
  (exists shardID joined,
     nodeShardMap_ (addNode "c" Scenario.origin 0.5%float 1 Scenario.fullShard).2 !! "c"
     = Some shardID /\
     shardID <> 0 /\
     shards_ (addNode "c" Scenario.origin 0.5%float 1 Scenario.fullShard).2 !! shardID
     = Some joined /\
     "c" ∈ ShardInfo.members joined) /\
  nodeShardMap_ (addNode "c" Scenario.origin 0.5%float 1 Scenario.fullShard).2 !! "c"
  = Some (addNode "c" Scenario.origin 0.5%float 1 Scenario.fullShard).1 /\
  totalSplits_ (removeNode "a" 1 Scenario.fullShard) = totalSplits_ Scenario.fullShard /\
  totalMerges_ (removeNode "a" 1 Scenario.fullShard) = totalMerges_ Scenario.fullShard /\
  shouldMergeShard 0 (removeNode "a" 1 Scenario.fullShard) = false /\
  shouldSplitShard 0 (removeNode "a" 1 Scenario.fullShard) = false.
Proof.
  destruct (full_shard_join_and_leave Scenario.fullShard 0 Scenario.shard0)
    as [Hjoin Hleave].
  - vm_compute. reflexivity.
  - vm_compute. reflexivity.
  - vm_compute. split; [discriminate|reflexivity].
  - exact fullShard_fresh_ids.
  - destruct (Hjoin "c" Scenario.origin 0.5%float 1) as (H1 & H2 & _ & H4 & H5 & H6).
    + vm_compute. reflexivity.
    + destruct (Hleave "a" 1) as (L1 & L2 & _ & _ & _ & _ & L7 & L8).
      * vm_compute. reflexivity.
      * vm_compute. split; discriminate.
      * split; [exact H1|]. split; [exact H2|].
        split; [apply H4; vm_compute; discriminate|]. split; [exact H5|].
        split; [apply H6; vm_compute; discriminate|].
        split; [exact L1|]. split; [exact L2|]. split; [exact L7|exact L8].
Defined.

Lemma fullShard_reachable : ShardsReachable Scenario.fullShard.
Proof.
  unfold Scenario.fullShard.
  apply shards_addNode, shards_addNode, shards_initialize, shards_ctor.
Qed.

(** X23 (witness): "a" sits in shard 0 of [Scenario.fullShard] with
    reputation 0.5; moved far away it is placed again with reputation 0.0. *)
Lemma updateNodeLocation_resets_reputation_witness :
  nodeReputationMap_ Scenario.fullShard !! "a" = Some 0.5%float /\
  nodeReputationMap_ (updateNodeLocation "a" Scenario.farAway 1 Scenario.fullShard).2 !! "a"
  = Some 0.0%float /\
  nodeLocationMap_ (updateNodeLocation "a" Scenario.farAway 1 Scenario.fullShard).2 !! "a"
  = Some Scenario.farAway /\
  placed "a" (updateNodeLocation "a" Scenario.farAway 1 Scenario.fullShard).2 /\
  totalLeaves_ (updateNodeLocation "a" Scenario.farAway 1 Scenario.fullShard).2
  = totalLeaves_ Scenario.fullShard + 1 /\
  totalJoins_ (updateNodeLocation "a" Scenario.farAway 1 Scenario.fullShard).2
  = totalJoins_ Scenario.fullShard + 1.
Proof.
  split; [vm_compute; reflexivity|].
  apply (updateNodeLocation_resets_reputation "a" Scenario.farAway 1 Scenario.fullShard
           0 Scenario.shard0).
  - apply reachable_shardsOk, fullShard_reachable.
  - vm_compute. reflexivity.
  - vm_compute. reflexivity.
  - vm_compute. reflexivity.
Defined.

(** X24 (witness): "a" leaves [Scenario.fullShard]. *)
Lemma removeNode_forgets_witness :
  nodeShardMap_ (removeNode "a" 1 Scenario.fullShard) !! "a" = None /\
  nodeLocationMap_ (removeNode "a" 1 Scenario.fullShard)
  = delete "a" (nodeLocationMap_ Scenario.fullShard) /\
  nodeReputationMap_ (removeNode "a" 1 Scenario.fullShard)
  = delete "a" (nodeReputationMap_ Scenario.fullShard) /\
  totalJoins_ (removeNode "a" 1 Scenario.fullShard) = totalJoins_ Scenario.fullShard /\
  totalLeaves_ (removeNode "a" 1 Scenario.fullShard) = totalLeaves_ Scenario.fullShard + 1 /\
  (forall shard, shards_ (removeNode "a" 1 Scenario.fullShard) !! 0 = Some shard ->
                 "a" ∉ ShardInfo.members shard).
Proof.
  apply (removeNode_forgets "a" 0 1 Scenario.fullShard). vm_compute. reflexivity.
Defined.

(** X25 (witness): "c" joins [Scenario.fullShard] at the origin. *)
Lemma addNode_places_witness :
  placed "c" (addNode "c" Scenario.origin 0.5%float 1 Scenario.fullShard).2 /\
  nodeLocationMap_ (addNode "c" Scenario.origin 0.5%float 1 Scenario.fullShard).2
  = <["c" := Scenario.origin]> (nodeLocationMap_ Scenario.fullShard) /\
  nodeReputationMap_ (addNode "c" Scenario.origin 0.5%float 1 Scenario.fullShard).2
  = <["c" := 0.5%float]> (nodeReputationMap_ Scenario.fullShard) /\
  totalJoins_ (addNode "c" Scenario.origin 0.5%float 1 Scenario.fullShard).2
  = totalJoins_ Scenario.fullShard + 1 /\
  totalLeaves_ (addNode "c" Scenario.origin 0.5%float 1 Scenario.fullShard).2
  = totalLeaves_ Scenario.fullShard /\
  (totalSplits_ (addNode "c" Scenario.origin 0.5%float 1 Scenario.fullShard).2
   = totalSplits_ Scenario.fullShard ->
   nodeShardMap_ (addNode "c" Scenario.origin 0.5%float 1 Scenario.fullShard).2 !! "c"
   = Some (addNode "c" Scenario.origin 0.5%float 1 Scenario.fullShard).1).
Proof.
  apply (addNode_places "c" Scenario.origin 0.5%float 1 Scenario.fullShard).
  - exact fullShard_fresh_ids.
  - vm_compute. reflexivity.
Defined.

(** X26 (witness): the invariant in [Scenario.fullShard] after "a" has
    moved far away. *)
Lemma shards_invariant_witness :
  (forall shardID,
     is_Some (shards_ (updateNodeLocation "a" Scenario.farAway 1 Scenario.fullShard).2
              !! shardID) ->
     shardID < nextShardID_ (updateNodeLocation "a" Scenario.farAway 1 Scenario.fullShard).2) /\
  (forall nodeID shardID,
     nodeShardMap_ (updateNodeLocation "a" Scenario.farAway 1 Scenario.fullShard).2
     !! nodeID = Some shardID ->
     exists shard,
       shards_ (updateNodeLocation "a" Scenario.farAway 1 Scenario.fullShard).2
       !! shardID = Some shard /\
       nodeID ∈ ShardInfo.members shard).
Proof.
  apply (shards_invariant (updateNodeLocation "a" Scenario.farAway 1 Scenario.fullShard).2).
  apply shards_updateNodeLocation, fullShard_reachable.
Defined.
End Placement.

(* ===================================================================== *)
(** ** The low-reputation verifier                                        *)
(* ===================================================================== *)

Section Verification.
Import LowRepVerifier.

Variable show_fixed3 : simtime_t -> string.
Variable dbl : simtime_t -> double.

Lemma countAnswer_counts (confirm : bool) (event : PendingEvent.t) (eventID : string) :
  eventOk eventID event -> eventOk eventID (countAnswer confirm event).
Proof.
  intros (Hid & Hc & Hr & Hsum & Hres). unfold eventOk, countAnswer. simpl.
  destruct confirm; repeat split; try done; lia.
Qed.

(** The two loops of [cleanupExpiredEvents]: an entry is erased from both
    tables when its id is in the list, and kept otherwise. *)
Lemma cleanup_loop (l : list string) (s : t) :
  let r :=
    foldl (fun acc eventID =>
             mk (delete eventID (pendingEvents_ acc)) (delete eventID (tasks_ acc))
                (verifiersPerEvent_ acc) (threshold_ acc)
                (logCallback_ acc) (verificationCallback_ acc))
          s l in
  (forall k, pendingEvents_ r !! k
             = if decide (k ∈ l) then None else pendingEvents_ s !! k) /\
  (forall k, tasks_ r !! k = if decide (k ∈ l) then None else tasks_ s !! k) /\
  verifiersPerEvent_ r = verifiersPerEvent_ s /\
  threshold_ r = threshold_ s /\
  verificationCallback_ r = verificationCallback_ s.
Proof.
  revert s. induction l as [|x l IH]; intros s; cbn [foldl].
  - split; [|split; [|done]]; intros k; rewrite decide_False; try done;
      apply not_elem_of_nil.
  - destruct (IH (mk (delete x (pendingEvents_ s)) (delete x (tasks_ s))
                     (verifiersPerEvent_ s) (threshold_ s)
                     (logCallback_ s) (verificationCallback_ s)))
      as (H1 & H2 & H3 & H4 & H5).
    split; [|split; [|done]]; intros k; rewrite ?H1, ?H2;
      cbn [pendingEvents_ tasks_].
    + destruct (decide (k ∈ l)) as [Hin|Hin].
      * rewrite decide_True; [done|by right].
      * destruct (decide (k = x)) as [->|Hne].
        -- rewrite decide_True by left. apply lookup_delete_eq.
        -- rewrite decide_False by (rewrite elem_of_cons; tauto).
           by rewrite lookup_delete_ne.
    + destruct (decide (k ∈ l)) as [Hin|Hin].
      * rewrite decide_True; [done|by right].
      * destruct (decide (k = x)) as [->|Hne].
        -- rewrite decide_True by left. apply lookup_delete_eq.
        -- rewrite decide_False by (rewrite elem_of_cons; tauto).
           by rewrite lookup_delete_ne.
Qed.

Lemma expired_keys (currentTime : simtime_t) (timeout : double)
    (events : gmap string PendingEvent.t) (k : string) :
  k ∈ (map_to_list
         (filter (fun entry => expired dbl currentTime timeout entry.2 = true) events)).*1
  <-> exists event, events !! k = Some event /\
                    expired dbl currentTime timeout event = true.
Proof.
  rewrite list_elem_of_fmap. split.
  - intros ([k' v] & -> & Hin). apply elem_of_map_to_list in Hin.
    apply map_lookup_filter_Some in Hin as [Hk Hexp]. eauto.
  - intros (event & Hk & Hexp). exists (k, event). split; [done|].
    apply elem_of_map_to_list, map_lookup_filter_Some. done.
Qed.

(** [cleanupExpiredEvents], entry by entry. *)
Lemma cleanupExpiredEvents_lookup (currentTime : simtime_t) (timeout : double)
    (s : t) (eventID : string) :
  pendingEvents_ (cleanupExpiredEvents dbl currentTime timeout s) !! eventID
  = match pendingEvents_ s !! eventID with
    | Some event =>
      if expired dbl currentTime timeout event then None else Some event
    | None => None
    end /\
  tasks_ (cleanupExpiredEvents dbl currentTime timeout s) !! eventID
  = match pendingEvents_ s !! eventID with
    | Some event =>
      if expired dbl currentTime timeout event then None else tasks_ s !! eventID
    | None => tasks_ s !! eventID
    end.
Proof.
  unfold cleanupExpiredEvents.
  match goal with |- context [foldl ?f s ?l] =>
    destruct (cleanup_loop l s) as (H1 & H2 & _); cbv zeta in H1, H2;
    rewrite H1, H2
  end.
  destruct (pendingEvents_ s !! eventID) as [event|] eqn:Hk.
  - destruct (expired dbl currentTime timeout event) eqn:Hexp.
    + rewrite !decide_True; [done|apply expired_keys; eauto..].
    + rewrite !decide_False; [done|rewrite expired_keys; intros (e & He & Hx); congruence..].
  - rewrite !decide_False; [done|rewrite expired_keys; intros (e & He & Hx); congruence..].
Qed.

(** X27.  [submitVerification] for an event id that is not stored
    changes nothing and calls nothing; while fewer than
    [verifiersPerEvent_] answers have arrived (the new one included) it
    only counts the answer: the verified flag and the result stay as
    they were and the callback is not called, whatever the answers so
    far; and an event that is verified stays verified. *)
Theorem submitVerification_waits (eventID : string) (verifierID : NodeID)
    (confirm : bool) (s : t) :
  (pendingEvents_ s !! eventID = None ->
   submitVerification eventID verifierID confirm s = (s, [])) /\
  (forall stored,
     pendingEvents_ s !! eventID = Some stored ->
     PendingEvent.verificationCount stored + 1 < verifiersPerEvent_ s ->
     submitVerification eventID verifierID confirm s
     = (set_pendingEvents (<[eventID := countAnswer confirm stored]> (pendingEvents_ s)) s,
        [])) /\
  (forall other, isEventVerified other s = true ->
     isEventVerified other (submitVerification eventID verifierID confirm s).1 = true).
Proof.
  unfold submitVerification. split; [by intros ->|]. split.
  - intros stored -> Hfew. unfold checkVerificationThreshold.
    change (PendingEvent.verificationCount (countAnswer confirm stored))
      with (PendingEvent.verificationCount stored + 1).
    apply Z.ltb_lt in Hfew. by rewrite Hfew.
  - intros other Hver. unfold isEventVerified in *.
    destruct (pendingEvents_ s !! eventID) as [stored|] eqn:Hk; [|done].
    destruct (checkVerificationThreshold _ s); simpl;
      (destruct (decide (eventID = other)) as [->|Hne];
       [rewrite lookup_insert_eq|rewrite lookup_insert_ne by done; exact Hver]).
    + done.
    + rewrite Hk in Hver. exact Hver.
Qed.

(** X28.  In every verifier built from a fresh one by [initialize],
    [setVerificationCallback], [submitEvent], [submitVerification] and
    [cleanupExpiredEvents], each stored event is stored under its own
    id, its confirm and reject counters are non-negative and add up to
    its verification counter, and its result is set only if it is
    verified. *)
Theorem verifier_invariant (s : t) :
  VerifierReachable show_fixed3 dbl s ->
  forall eventID event, pendingEvents_ s !! eventID = Some event ->
                        eventOk eventID event.
Proof.
  induction 1 as [|n th s _ IH|s _ IH|reporterID eventType eventData rep now s _ IH
                  |eid verifierID confirm s _ IH|currentTime timeout s _ IH];
    intros eventID event Hk.
  - simpl in Hk. by rewrite lookup_empty in Hk.
  - by apply IH.
  - by apply IH.
  - simpl in Hk. destruct (decide (generateEventID show_fixed3 reporterID now = eventID))
      as [Heq|Hne].
    + rewrite Heq, lookup_insert_eq in Hk. injection Hk as <-.
      unfold eventOk. simpl. repeat split; try done.
    + rewrite lookup_insert_ne in Hk by done. by apply IH.
  - unfold submitVerification in Hk.
    destruct (pendingEvents_ s !! eid) as [stored|] eqn:Hstored; [|by apply IH].
    pose proof (countAnswer_counts confirm stored eid (IH _ _ Hstored)) as Hok.
    destruct (checkVerificationThreshold _ s); simpl in Hk;
      (destruct (decide (eid = eventID)) as [->|Hne];
       [rewrite lookup_insert_eq in Hk; injection Hk as <-
       |rewrite lookup_insert_ne in Hk by done; by apply IH]).
    + destruct Hok as (H1 & H2 & H3 & H4 & _). unfold eventOk. simpl in *.
      repeat split; try done.
    + exact Hok.
  - destruct (cleanupExpiredEvents_lookup currentTime timeout s eventID) as [Hl _].
    rewrite Hl in Hk. destruct (pendingEvents_ s !! eventID) as [e|] eqn:He; [|done].
    destruct (expired dbl currentTime timeout e); [done|].
    injection Hk as <-. by apply IH.
Qed.

(** The decision taken on three answers under the constructor's
    configuration. *)
Lemma default_decision (event : PendingEvent.t) (s : t) :
  verifiersPerEvent_ s = 3 ->
  threshold_ s = 0.67%float ->
  PendingEvent.verificationCount event = 3 ->
  0 <= PendingEvent.confirmCount event ->
  0 <= PendingEvent.rejectCount event ->
  PendingEvent.confirmCount event + PendingEvent.rejectCount event = 3 ->
  checkVerificationThreshold event s = true /\
  PrimFloat.leb (threshold_ s)
    (double_of_int (PendingEvent.confirmCount event)
     / double_of_int (PendingEvent.verificationCount event))%float
  = (PendingEvent.confirmCount event =? 3).
Proof.
  intros Hn Hth Hcount Hc Hr Hsum. unfold checkVerificationThreshold.
  rewrite Hn, Hth, Hcount.
  assert (Hcases : (PendingEvent.confirmCount event = 0 /\ PendingEvent.rejectCount event = 3)
                   \/ (PendingEvent.confirmCount event = 1 /\ PendingEvent.rejectCount event = 2)
                   \/ (PendingEvent.confirmCount event = 2 /\ PendingEvent.rejectCount event = 1)
                   \/ (PendingEvent.confirmCount event = 3 /\ PendingEvent.rejectCount event = 0))
    by lia.
  destruct Hcases as [[-> ->]|[[-> ->]|[[-> ->]|[-> ->]]]]; vm_compute; done.
Qed.

(** X29.  Under the constructor's configuration (three verifiers,
    threshold 0.67) the third answer always decides the event, and the
    result is true only if all three answers confirm: two confirmations
    out of three give the ratio 2/3, which is below 0.67. *)
Theorem default_threshold_needs_unanimity (eventID : string) (verifierID : NodeID)
    (confirm : bool) (s : t) (stored : PendingEvent.t) :
  verifiersPerEvent_ s = 3 ->
  threshold_ s = 0.67%float ->
  pendingEvents_ s !! eventID = Some stored ->
  PendingEvent.verificationCount stored = 2 ->
  0 <= PendingEvent.confirmCount stored ->
  0 <= PendingEvent.rejectCount stored ->
  PendingEvent.confirmCount stored + PendingEvent.rejectCount stored = 2 ->
  isEventVerified eventID (submitVerification eventID verifierID confirm s).1 = true /\
  getVerificationResult eventID (submitVerification eventID verifierID confirm s).1
  = confirm && (PendingEvent.confirmCount stored =? 2) /\
  (submitVerification eventID verifierID confirm s).2
  = (if verificationCallback_ s
     then [(eventID, confirm && (PendingEvent.confirmCount stored =? 2))] else []).
Proof.
  intros Hn Hth Hk Hcount Hc Hr Hsum.
  destruct (default_decision (countAnswer confirm stored) s) as [Hcheck Hres];
    [done|done|simpl; lia|destruct confirm; simpl; lia..|].
  unfold submitVerification, isEventVerified, getVerificationResult.
  rewrite Hk, Hcheck, Hres. cbn [fst snd pendingEvents_ set_pendingEvents].
  rewrite lookup_insert_eq. cbn [PendingEvent.verified PendingEvent.result andb].
  assert ((PendingEvent.confirmCount (countAnswer confirm stored) =? 3)
          = confirm && (PendingEvent.confirmCount stored =? 2)) as ->.
  { destruct confirm; simpl.
    - destruct (Z.eqb_spec (PendingEvent.confirmCount stored) 2);
        [apply Z.eqb_eq|apply Z.eqb_neq]; lia.
    - apply Z.eqb_neq. lia. }
  done.
Qed.

(** X30.  [cleanupExpiredEvents] erases exactly the stored events that
    are not verified and older than the timeout, together with their
    verification tasks; every other event and task is kept as it is, so
    a verified event is never erased. *)
Theorem cleanupExpiredEvents_spec (currentTime : simtime_t) (timeout : double)
    (s : t) (eventID : string) :
  pendingEvents_ (cleanupExpiredEvents dbl currentTime timeout s) !! eventID
  = match pendingEvents_ s !! eventID with
    | Some event =>
      if expired dbl currentTime timeout event then None else Some event
    | None => None
    end /\
  tasks_ (cleanupExpiredEvents dbl currentTime timeout s) !! eventID
  = match pendingEvents_ s !! eventID with
    | Some event =>
      if expired dbl currentTime timeout event then None else tasks_ s !! eventID
    | None => tasks_ s !! eventID
    end /\
  (isEventVerified eventID s = true ->
   pendingEvents_ (cleanupExpiredEvents dbl currentTime timeout s) !! eventID
   = pendingEvents_ s !! eventID).
Proof.
  destruct (cleanupExpiredEvents_lookup currentTime timeout s eventID) as [H1 H2].
  split; [exact H1|]. split; [exact H2|].
  intros Hver. rewrite H1. unfold isEventVerified in Hver.
  destruct (pendingEvents_ s !! eventID) as [event|]; [|done].
  unfold expired. by rewrite Hver.
Qed.
End Verification.

(** The event of [Scenario.twoConfirmed] as it is stored. *)
Lemma twoConfirmed_event :
  LowRepVerifier.pendingEvents_ Scenario.twoConfirmed !! "EVT_n9_0"
  = Some (PendingEvent.mk "n9" "EVT_n9_0" "accident" "lane 2" 0 0.2%float 2 2 0 false false).
Proof. vm_compute. reflexivity. Qed.

(** X28 (witness): the event of [Scenario.twoConfirmed]. *)
Lemma verifier_invariant_witness :
  eventOk "EVT_n9_0"
    (PendingEvent.mk "n9" "EVT_n9_0" "accident" "lane 2" 0 0.2%float 2 2 0 false false).
Proof.
  apply (verifier_invariant Scenario.show_ticks Scenario.seconds Scenario.twoConfirmed).
  - unfold Scenario.twoConfirmed, Scenario.reported.
    apply verifier_submitVerification, verifier_submitVerification.
    apply (verifier_submitEvent Scenario.show_ticks Scenario.seconds
             "n9" "accident" "lane 2" 0.2%float 0).
    apply verifier_setVerificationCallback, verifier_ctor.
  - exact twoConfirmed_event.
Defined.

(** X29 (witness): after two confirmations a rejection decides the event
    of [Scenario.twoConfirmed], with the result false. *)
Lemma default_threshold_needs_unanimity_witness :
  LowRepVerifier.isEventVerified "EVT_n9_0"
    (LowRepVerifier.submitVerification "EVT_n9_0" "n3" false Scenario.twoConfirmed).1 = true /\
  LowRepVerifier.getVerificationResult "EVT_n9_0"
    (LowRepVerifier.submitVerification "EVT_n9_0" "n3" false Scenario.twoConfirmed).1 = false /\
  (LowRepVerifier.submitVerification "EVT_n9_0" "n3" false Scenario.twoConfirmed).2
  = [("EVT_n9_0", false)].
Proof.
  apply (default_threshold_needs_unanimity "EVT_n9_0" "n3" false Scenario.twoConfirmed
           (PendingEvent.mk "n9" "EVT_n9_0" "accident" "lane 2" 0 0.2%float 2 2 0 false false)).
  - reflexivity.
  - reflexivity.
  - exact twoConfirmed_event.
  - reflexivity.
  - vm_compute. discriminate.
  - vm_compute. discriminate.
  - reflexivity.
Defined.
